(** * Regional bootstrap figures: the computational core of
      [Figure_1_3_S3_Locations_WUP300K.py]

    The script reads a table of urban agglomerations, groups its rows by
    world region, splits the groups in population-size cohorts, averages the
    studies of one location ([loc_average]), bootstraps the location means
    ([bstrap]) and writes figures, a summary and a spreadsheet.

    The embedding follows the Python text: lists are lists, a raised
    exception is a [Raise] result, the global NumPy generator is a state
    that is passed along, and Python floats are an interface [PyFloat] of
    the operations the script uses, so that what is proved holds for every
    arithmetic, IEEE doubles included. *)

From Stdlib Require Import Ascii QArith Qcanon SpecFloat.
From stdpp Require Import base numbers list strings gmap sorting.

Local Open Scope string_scope.
Local Open Scope list_scope.
Local Open Scope Z_scope.

(** ** Python values and exceptions *)

(** The exceptions the modelled code can raise. [PyException] is the
    plain [Exception(msg)] of the two [raise] statements. *)
Inductive exn : Type :=
  | IndexError
  | ValueError
  | TypeError
  | ZeroDivisionError
  | PyException (msg : string).

Inductive result (A : Type) : Type :=
  | Ok (a : A)
  | Raise (e : exn).
Arguments Ok {A} a.
Arguments Raise {A} e.

Definition result_bind {A B} (f : A → result B) (r : result A) : result B :=
  match r with
  | Ok a => f a
  | Raise e => Raise e
  end.

#[global] Instance result_ret : MRet result := λ A a, Ok a.
#[global] Instance result_mbind : MBind result := λ A B f r, result_bind f r.
#[global] Instance result_fmap : FMap result :=
  λ A B f r, result_bind (λ a, Ok (f a)) r.

Definition is_ok {A} (r : result A) : bool :=
  match r with Ok _ => true | Raise _ => false end.

(** A [for] loop whose body may raise: the state is threaded from left to
    right and the first exception ends the loop. *)
Fixpoint for_each {S X} (body : S → X → result S) (xs : list X) (s : S)
    : result S :=
  match xs with
  | [] => Ok s
  | x :: xs' => s' ← body s x; for_each body xs' s'
  end.

(** [[f(x) for x in xs]] with a body that may raise. *)
Fixpoint comprehension {X Y} (f : X → result Y) (xs : list X)
    : result (list Y) :=
  match xs with
  | [] => Ok []
  | x :: xs' => y ← f x; ys ← comprehension f xs'; Ok (y :: ys)
  end.

(** [l[i]] for an int [i]: negative indices count from the end. *)
Definition py_getitem {A} (l : list A) (i : Z) : result A :=
  let n := Z.of_nat (length l) in
  let j := if i <? 0 then i + n else i in
  if (j <? 0) || (n <=? j) then Raise IndexError
  else match l !! Z.to_nat j with
       | Some x => Ok x
       | None => Raise IndexError
       end.

(** [l[a:b]]: both bounds are clamped into the list, never raises. *)
Definition py_slice {A} (l : list A) (a b : Z) : list A :=
  let n := Z.of_nat (length l) in
  let clamp i := if i <? 0 then Z.max (i + n) 0 else Z.min i n in
  let lo := clamp a in
  let hi := clamp b in
  take (Z.to_nat (hi - lo)) (drop (Z.to_nat lo) l).

(** [zip] over the unpacked rows: the columns of a table, cut at its
    shortest row; no rows give no columns. *)
Fixpoint zip_star {A} (rows : list (list A)) : list (list A) :=
  match rows with
  | [] => []
  | r :: rs =>
      match rs with
      | [] => (λ x, [x]) <$> r
      | _ :: _ => zip_with cons r (zip_star rs)
      end
  end.

(** [a, b, c, d = xs] and [a, b, c, d, e = xs]: a length mismatch is a
    [ValueError]. *)
Definition unpack {A} (n : nat) (xs : list A) : result (list A) :=
  if (length xs =? n)%nat then Ok xs else Raise ValueError.

(** ** Floats *)

(** The float operations of the script. [float_of_str] is [float(x)] on a
    [str]: [None] stands for the [ValueError] of a text that is no number.
    [f_median] is [numpy.median] of an array with members. *)
Class PyFloat (F : Type) := {
  f_of_nat : nat → F;
  f_add : F → F → F;
  f_div : F → F → F;
  f_nan : F;
  f_isnan : F → bool;
  f_gt : F → F → bool;
  f_le : F → F → bool;
  f_median : list F → F;
  float_of_str : string → option F
}.

Section Floats.
Context {F : Type} `{PyFloat F}.

Definition py_float (x : string) : result F :=
  match float_of_str x with
  | Some v => Ok v
  | None => Raise ValueError
  end.

(** Left-to-right summation from the int [0]. *)
Definition f_sum (xs : list F) : F := foldl f_add (f_of_nat 0) xs.

(** The arithmetic mean of a sample: its sum over its size. *)
Definition mean (xs : list F) : F :=
  f_div (f_sum xs) (f_of_nat (length xs)).
End Floats.

(** ** [loc_average] *)

Inductive opt_token : Type := rate | PD.

(** A cell without a measurement: [''] or [' ']. *)
Definition blank (x : string) : bool :=
  String.eqb x EmptyString || String.eqb x " ".

(** [loc_name_unique]: the names in order of first occurrence. *)
Definition loc_name_unique_of (loc_name : list string) : list string :=
  foldl (λ u x, if bool_decide (x ∈ u) then u else u ++ [x]) [] loc_name.

(** [loc_index]: the positions of the rows named [name]. *)
Definition loc_index_of (loc_name : list string) (name : string) : list nat :=
  filter (λ i, loc_name !! i = Some name) (seq 0 (length loc_name)).

Section LocAverage.
Context {F : Type} `{PyFloat F}.

(** One decade in one turn of the loop over [k]: a cell with data adds to
    [sum_loc], a blank cell adds to [sub_loc]. *)
Definition accumulate (i : nat) (col : list string) (acc : F * nat)
    : result (F * nat) :=
  cell ← py_getitem col (Z.of_nat i);
  if negb (blank cell)
  then v ← py_float cell; Ok (f_add (fst acc) v, snd acc)
  else Ok (fst acc, S (snd acc)).

(** One turn of the loop over [k], decade after decade. *)
Fixpoint accumulate_row (i : nat) (data : list (list string))
    (accs : list (F * nat)) : result (list (F * nat)) :=
  match data, accs with
  | col :: data', acc :: accs' =>
      acc' ← accumulate i col acc;
      rest ← accumulate_row i data' accs';
      Ok (acc' :: rest)
  | _, _ => Ok []
  end.

(** The appends after the loop over [k]: a location mean is added to a
    decade only when some study of the location has data for it. *)
Definition append_mean (n : nat) (loc : list F) (acc : F * nat) : list F :=
  if bool_decide (0 < Z.of_nat n - Z.of_nat (snd acc))
  then loc ++ [f_div (fst acc) (f_of_nat (n - snd acc))]
  else loc.

(** The body of the loop over [j]: one location. *)
Definition location_step (loc_name : list string) (data : list (list string))
    (locs : list (list F)) (name : string) : result (list (list F)) :=
  let loc_index := loc_index_of loc_name name in
  let zero := (λ _ : list string, (f_of_nat 0, 0%nat)) <$> data in
  accs ← for_each (λ accs i, accumulate_row i data accs) loc_index zero;
  Ok (zip_with (append_mean (length loc_index)) locs accs).

Definition loc_average (regions : list (list (list string)))
    (m data_index_start data_index_end : Z) : result (list (list F)) :=
  region ← py_getitem regions m;
  loc_name ← py_getitem (zip_star region) 0;
  '(opt, data) ←
    (if data_index_end - data_index_start =? 4 then
       region' ← py_getitem regions m;
       d ← unpack 4 (py_slice (zip_star region') data_index_start data_index_end);
       Ok (rate, d)
     else if data_index_end - data_index_start =? 5 then
       region' ← py_getitem regions m;
       d ← unpack 5 (py_slice (zip_star region') data_index_start data_index_end);
       Ok (PD, d)
     else Raise (PyException "Number of decades should be 4 or 5."));
  let loc_name_unique := loc_name_unique_of loc_name in
  let locs : list (list F) :=
    match opt with
    | rate => [[]; []; []; []]
    | PD => [[]; []; []; []; []]
    end in
  for_each (location_step loc_name data) loc_name_unique locs.
End LocAverage.

(** ** [bstrap] *)

(** The global NumPy generator: [randint n g] draws an index below [n] and
    gives the next state; [random_sample n g] is the state after [n] floats
    were drawn for the jitter of a plot. *)
Class RandomState (G : Type) := {
  randint : nat → G → nat * G;
  random_sample : nat → G → G
}.

(** The contract of the generator: a draw from [n > 0] indices is one of
    them. *)
Class RandintInRange (G : Type) `{RandomState G} : Prop :=
  randint_lt : ∀ (n : nat) (g : G), (0 < n)%nat → (fst (randint n g) < n)%nat.

Section Bstrap.
Context {F : Type} `{PyFloat F} {G : Type} `{RandomState G}.

(** [c] successive draws below [n]. *)
Fixpoint draw_row (n c : nat) (g : G) : list nat * G :=
  match c with
  | O => ([], g)
  | S c' =>
      let '(k, g1) := randint n g in
      let '(ks, g2) := draw_row n c' g1 in
      (k :: ks, g2)
  end.

(** [r] rows of [c] draws, row after row. *)
Fixpoint draw_matrix (n r c : nat) (g : G) : list (list nat) * G :=
  match r with
  | O => ([], g)
  | S r' =>
      let '(row, g1) := draw_row n c g in
      let '(rows, g2) := draw_matrix n r' c g1 in
      (row :: rows, g2)
  end.

(** [numpy.random.choice(a, size=(r, c), replace=True)]: an [r] by [c]
    matrix of index draws below [len(a)], then the members of [a] at these
    indices. An empty [a] is refused unless nothing is drawn. *)
Definition random_choice (a : list F) (r c : nat) (g : G)
    : result (list (list F)) * G :=
  if bool_decide (a = []) && negb (r * c =? 0)%nat then (Raise ValueError, g)
  else
    let '(idx, g') := draw_matrix (length a) r c g in
    (comprehension (comprehension (λ k, py_getitem a (Z.of_nat k))) idx, g').

(** [numpy.mean] of a one-dimensional array; the mean of no value is
    [nan]. *)
Definition numpy_mean (xs : list F) : F :=
  match xs with
  | [] => f_nan
  | _ :: _ => mean xs
  end.

(** [numpy.mean(matrix, axis=1)]: the mean of every row. *)
Definition numpy_mean_axis1 (rows : list (list F)) : list F :=
  numpy_mean <$> rows.

(** One decade of [bstrap]: the sample is scaled by [numr8tr] and, unless
    it is empty, resampled [bs_iter] times. The members of a sample are
    floats already, as in every call of the script, so [float(x)] is
    [x]. *)
Definition bstrap_decade (bs_iter : nat) (numr8tr : nat) (data : list F)
    (g : G) : result (list F) * G :=
  if bool_decide (0 < length data)%nat then
    let data' := (λ x, f_div x (f_of_nat numr8tr)) <$> data in
    let npy := data' in
    let '(drawn, g') := random_choice npy bs_iter (length npy) g in
    (numpy_mean_axis1 <$> drawn, g')
  else (Ok [], g).

(** Decades one after the other, with the generator passed along; the
    first exception ends the run. *)
Fixpoint bstrap_decades (bs_iter numr8tr : nat) (data : list (list F))
    (g : G) : result (list (list F)) * G :=
  match data with
  | [] => (Ok [], g)
  | d :: data' =>
      match bstrap_decade bs_iter numr8tr d g with
      | (Ok bs, g1) =>
          match bstrap_decades bs_iter numr8tr data' g1 with
          | (Ok rest, g2) => (Ok (bs :: rest), g2)
          | (Raise e, g2) => (Raise e, g2)
          end
      | (Raise e, g1) => (Raise e, g1)
      end
  end.

Definition bstrap (bs_iter : nat) (data : list (list F)) (g : G)
    : result (list (list F)) * G :=
  match
    (if (length data =? 4)%nat then Ok rate
     else if (length data =? 5)%nat then Ok PD
     else Raise (PyException "Number of Decades should be 4 or 5"))
  with
  | Raise e => (Raise e, g)
  | Ok opt =>
      let numr8tr := match opt with rate => 1%nat | PD => 1000%nat end in
      match bstrap_decades bs_iter numr8tr (take 4 data) g with
      | (Raise e, g1) => (Raise e, g1)
      | (Ok bs, g1) =>
          match opt with
          | rate => (Ok bs, g1)
          | PD =>
              match bstrap_decades bs_iter 1000 (drop 4 data) g1 with
              | (Raise e, g2) => (Raise e, g2)
              | (Ok bs10, g2) => (Ok (bs ++ bs10), g2)
              end
          end
      end
  end.
End Bstrap.

(** ** An exact arithmetic and a generator to run the model *)

(** Rational numbers with one more value for [nan]: the arithmetic of the
    script without rounding. *)
Module Exact.
Definition num : Type := option Qc.

Definition of_Z (z : Z) : num := Some (Q2Qc (inject_Z z)).

Definition of_nat (n : nat) : num := of_Z (Z.of_nat n).

Definition add (a b : num) : num :=
  match a, b with
  | Some x, Some y => Some (x + y)%Qc
  | _, _ => None
  end.

Definition div (a b : num) : num :=
  match a, b with
  | Some x, Some y =>
      if Qeq_bool y 0 then None else Some (x / y)%Qc
  | _, _ => None
  end.

Definition isnan (a : num) : bool :=
  match a with Some _ => false | None => true end.

Definition le (a b : num) : bool :=
  match a, b with
  | Some x, Some y => Qle_bool x y
  | _, _ => false
  end.

Definition gt (a b : num) : bool :=
  match a, b with
  | Some x, Some y => negb (Qle_bool x y)
  | _, _ => false
  end.

Definition digit (c : ascii) : option Z :=
  let n := Z.of_nat (nat_of_ascii c) in
  if (48 <=? n) && (n <=? 57) then Some (n - 48) else None.

(** Digits with at most one point: the number read so far is
    [acc / scale]. *)
Fixpoint digits (s : string) (acc : Z) (scale : positive)
    (point seen : bool) : option (Z * positive) :=
  match s with
  | EmptyString => if seen then Some (acc, scale) else None
  | String c s' =>
      if Ascii.eqb c "."%char
      then if point then None else digits s' acc scale true seen
      else match digit c with
           | Some d =>
               digits s' (10 * acc + d)
                 (if point then (10 * scale)%positive else scale) point true
           | None => None
           end
  end.

(** Plain decimal literals with an optional sign; this is the part of
    Python's [float] on [str] that the tables of the script use. *)
Definition of_str (s : string) : option num :=
  let unsigned s' := digits s' 0 1 false false in
  let make (neg : bool) (r : option (Z * positive)) : option num :=
    match r with
    | Some (a, sc) => Some (Some (Q2Qc ((if neg then - a else a) # sc)))
    | None => None
    end in
  match s with
  | String c s' =>
      if Ascii.eqb c "-"%char then make true (unsigned s')
      else if Ascii.eqb c "+"%char then make false (unsigned s')
      else make false (unsigned s)
  | EmptyString => None
  end.

(** Insertion sort, to have a median. *)
Fixpoint insert (x : Qc) (l : list Qc) : list Qc :=
  match l with
  | [] => [x]
  | y :: l' => if Qle_bool x y then x :: l else y :: insert x l'
  end.

Definition sort (l : list Qc) : list Qc := foldr insert [] l.

(** The middle of the sorted values, or the mean of the two middle ones;
    [nan] as soon as a value is [nan]. *)
Definition median (xs : list num) : num :=
  vs ← mapM id xs;
  let sorted := sort vs in
  let n := length sorted in
  if Nat.even n
  then div (add (sorted !! (n / 2 - 1)%nat) (sorted !! (n / 2)%nat)) (of_nat 2)
  else sorted !! (n / 2)%nat.

#[global] Instance float : PyFloat num := {|
  f_of_nat := of_nat;
  f_add := add;
  f_div := div;
  f_nan := None;
  f_isnan := isnan;
  f_gt := gt;
  f_le := le;
  f_median := median;
  float_of_str := of_str
|}.

(** The value of a number as a fraction in lowest terms. *)
Definition view (a : num) : option Q := this <$> a.
End Exact.

(** A linear congruential generator, to have one generator to run. *)
Module Lcg.
Definition state : Type := N.

Definition next (g : state) : state :=
  ((g * 1103515245 + 12345) mod 2147483648)%N.

#[global] Instance random_state : RandomState state := {|
  randint n g := (N.to_nat ((g / 65536) mod N.of_nat n)%N, next g);
  random_sample n g := Nat.iter n next g
|}.
End Lcg.

(** IEEE 754 binary64 with rounding to nearest even, the floats of
    CPython and NumPy, on the Standard Library's [spec_float]. *)
Module Binary64.
Definition num : Type := spec_float.

Definition prec : Z := 53.
Definition emax : Z := 1024.

(** [float(z)] of an int. *)
Definition of_Z (z : Z) : num := binary_normalize prec emax z 0 false.

Definition of_nat (n : nat) : num := of_Z (Z.of_nat n).

Definition add (a b : num) : num := SFadd prec emax a b.

Definition div (a b : num) : num := SFdiv prec emax a b.

Definition isnan (a : num) : bool :=
  match a with S754_nan => true | _ => false end.

Definition le (a b : num) : bool := SFleb a b.

Definition gt (a b : num) : bool := SFltb b a.

(** A plain decimal literal with an optional sign, rounded once: the
    quotient of its digits by the power of ten of its scale. *)
Definition of_str (s : string) : option num :=
  let unsigned s' := Exact.digits s' 0 1 false false in
  let make (neg : bool) (r : option (Z * positive)) : option num :=
    match r with
    | Some (Z.pos a, sc) =>
        Some (div (S754_finite neg a 0) (S754_finite false sc 0))
    | Some (_, _) => Some (S754_zero neg)
    | None => None
    end in
  match s with
  | String c s' =>
      if Ascii.eqb c "-"%char then make true (unsigned s')
      else if Ascii.eqb c "+"%char then make false (unsigned s')
      else make false (unsigned s)
  | EmptyString => None
  end.

Fixpoint insert (x : num) (l : list num) : list num :=
  match l with
  | [] => [x]
  | y :: l' => if le x y then x :: l else y :: insert x l'
  end.

Definition sort (l : list num) : list num := foldr insert [] l.

(** The middle of the sorted values, or the mean of the two middle ones;
    [nan] as soon as a value is [nan]. *)
Definition median (xs : list num) : num :=
  if existsb isnan xs then S754_nan
  else
    let sorted := sort xs in
    let n := length sorted in
    if Nat.even n
    then div (add (default S754_nan (sorted !! (n / 2 - 1)%nat))
                  (default S754_nan (sorted !! (n / 2)%nat))) (of_nat 2)
    else default S754_nan (sorted !! (n / 2)%nat).

#[global] Instance float : PyFloat num := {|
  f_of_nat := of_nat;
  f_add := add;
  f_div := div;
  f_nan := S754_nan;
  f_isnan := isnan;
  f_gt := gt;
  f_le := le;
  f_median := median;
  float_of_str := of_str
|}.
End Binary64.

(** A generator that is the list of its coming outcomes: a call
    [randint(n)] takes the next one, and no outcome is used twice. *)
Module Tape.
Definition state : Type := list nat.

#[global] Instance random_state : RandomState state := {|
  randint n t :=
    match t with
    | [] => (0%nat, [])
    | k :: t' => ((k mod n)%nat, t')
    end;
  random_sample n t := drop n t
|}.

(** All sequences of [len] outcomes of [randint(n)]. With calls that are
    uniform and independent of each other, as those of NumPy's generator
    are to be, each of these sequences is as likely as any other. *)
Fixpoint outcomes (n len : nat) : list state :=
  match len with
  | O => [[]]
  | S len' => k ← seq 0 n; cons k <$> outcomes n len'
  end.
End Tape.

(** ** What [loc_average] is to compute, in the words of its description *)

(** A failed conversion of a cell ends [loc_average] with a
    [ValueError]. *)
Definition value_error {A} (o : option A) : result A :=
  match o with
  | Some a => Ok a
  | None => Raise ValueError
  end.

(** The names of a list in order of first occurrence. *)
Fixpoint first_occurrences (names : list string) : list string :=
  match names with
  | [] => []
  | x :: names' => x :: filter (λ y, y ≠ x) (first_occurrences names')
  end.

(** The entries of the location [name] in a decade column, in row order. *)
Definition entries (names col : list string) (name : string) : list string :=
  snd <$> filter (λ p, fst p = name) (zip names col).

(** Its valid entries: those that are not blank. *)
Definition valid_entries (names col : list string) (name : string)
    : list string :=
  filter (λ x, blank x = false) (entries names col name).

Section LocAverageSpec.
Context {F : Type} `{PyFloat F}.

(** What a location gives to a decade: the mean of the values of its
    valid entries, and nothing when it has none. [None] when a valid entry
    is no number. *)
Definition location_mean (names col : list string) (name : string)
    : option (list F) :=
  vs ← mapM float_of_str (valid_entries names col name);
  Some (match vs with [] => [] | _ :: _ => [mean vs] end).

(** The list of a decade: the location means, location after location in
    order of first occurrence. *)
Definition decade_means (names col : list string) : option (list F) :=
  mjoin <$> mapM (location_mean names col) (first_occurrences names).
End LocAverageSpec.

(** ** Missing entries, as they are described *)

(** An entry that counts as missing: the empty text or one space. *)
Definition missing (x : string) : Prop := x = EmptyString ∨ x = " ".

#[global] Instance missing_dec (x : string) : Decision (missing x).
Proof. unfold missing. apply _. Defined.

(** The entries of a location in a decade that are not missing. *)
Definition present_entries (names col : list string) (name : string)
    : list string :=
  filter (λ x, ¬ missing x) (entries names col name).

(** What a location gives to the list of a decade: nothing when all its
    entries are missing, and else the sum of the values of the present
    entries over their number. *)
Definition contributes {F : Type} `{PyFloat F} (names col : list string)
    (name : string) (c : list F) : Prop :=
  ∃ vs, Forall2 (λ x v, float_of_str x = Some v)
          (present_entries names col name) vs
        ∧ c = match present_entries names col name with
              | [] => []
              | _ :: _ =>
                  [f_div (f_sum vs)
                     (f_of_nat (length (present_entries names col name)))]
              end.

(** ** The loops of [loc_average] as functions on cells *)

Section LocAverageLoops.
Context {F : Type} `{PyFloat F}.

(** What one cell does to the pair [(sum_loc, sub_loc)]. *)
Definition cell_step (cell : string) (acc : F * nat) : option (F * nat) :=
  if negb (blank cell)
  then v ← float_of_str cell; Some (f_add (fst acc) v, snd acc)
  else Some (fst acc, S (snd acc)).

(** The loop over [k] seen from one decade: its cells one after the
    other. *)
Fixpoint column_loop (cells : list string) (acc : F * nat)
    : option (F * nat) :=
  match cells with
  | [] => Some acc
  | cell :: cells' => acc' ← cell_step cell acc; column_loop cells' acc'
  end.

(** The cells of a column at the rows [idxs]. *)
Definition cells_at (col : list string) (idxs : list nat) : list string :=
  omap (λ i, col !! i) idxs.

(** The mean that [append_mean] adds, as a list of at most one member. *)
Definition mean_of_acc (n : nat) (acc : F * nat) : list F :=
  append_mean n [] acc.
End LocAverageLoops.

(** ** What [bstrap] is to compute *)

(** The members of [a] at the indices [idxs], as [a[idxs]] gives them. *)
Definition take_at {A} (a : list A) (idxs : list nat) : list A :=
  omap (λ i, a !! i) idxs.

Section BstrapSpec.
Context {F : Type} `{PyFloat F} {G : Type} `{RandomState G}.

(** A sample with every value divided by [unit]. *)
Definition scaled (unit : nat) (d : list F) : list F :=
  (λ x, f_div x (f_of_nat unit)) <$> d.

(** [row] is a resample of the sample [d]: as many draws as [d] has
    members, each of them a position of [d]; a position may come more than
    once. *)
Definition resample_of (d : list F) (row : list nat) : Prop :=
  length row = length d ∧ Forall (λ k, (k < length d)%nat) row.

(** [b] holds the means of [bs_iter] resamples of [d], which are the
    rows of [draws]. *)
Definition bootstrap_of (bs_iter : nat) (d : list F)
    (draws : list (list nat)) (b : list F) : Prop :=
  length draws = bs_iter ∧ Forall (resample_of d) draws ∧
  b = (λ row, mean (take_at d row)) <$> draws.

(** Every index of [draws] is the outcome of a call of its own of the
    generator, for the [n] positions of a sample. *)
Definition drawn (n r c : nat) (draws : list (list nat)) : Prop :=
  ∃ g : G, draws = fst (draw_matrix n r c g).

(** What [bstrap] returns for the sample [d]: nothing for an empty
    sample, and else the means of [bs_iter] resamples drawn by the
    generator. *)
Definition bootstrapped (bs_iter : nat) (d b : list F) : Prop :=
  match d with
  | [] => b = []
  | _ :: _ =>
      ∃ draws, drawn (length d) bs_iter (length d) draws
               ∧ bootstrap_of bs_iter d draws b
  end.

(** The divisor of [bstrap] for a number of samples. *)
Definition unit_of (k : nat) : nat :=
  if (k =? 4)%nat then 1%nat else 1000%nat.
End BstrapSpec.
Arguments drawn G {_} n r c draws.
Arguments bootstrapped {F _} G {_} bs_iter d b.
Arguments unit_of k : clear implicits.
Arguments scaled {F _} unit d.
Arguments resample_of {F} d row.
Arguments bootstrap_of {F _} bs_iter d draws b.

#[global] Instance resample_of_dec {F} (d : list F) (row : list nat)
  : Decision (resample_of d row).
Proof. unfold resample_of. apply _. Defined.

(** Division by the int [1] changes no float; this holds for IEEE doubles
    too. *)
Class UnitDivision (F : Type) `{PyFloat F} : Prop :=
  f_div_1 : ∀ x : F, f_div x (f_of_nat 1) = x.

(** Arithmetic without rounding, as far as the scaling of [bstrap] needs
    it. *)
Class ExactArithmetic (F : Type) `{PyFloat F} : Prop := {
  f_div_add : ∀ (x y : F) (n : nat),
    f_div (f_add x y) (f_of_nat (S n)) =
      f_add (f_div x (f_of_nat (S n))) (f_div y (f_of_nat (S n)));
  f_div_0 : ∀ n : nat, f_div (f_of_nat 0) (f_of_nat (S n)) = f_of_nat 0;
  f_div_div : ∀ (x : F) (m n : nat),
    f_div (f_div x (f_of_nat (S m))) (f_of_nat (S n)) =
      f_div (f_div x (f_of_nat (S n))) (f_of_nat (S m))
}.

(** ** The draws of [bstrap], call by call *)

Section Calls.
Context {G : Type} `{RandomState G}.

(** The generator after [j] calls [randint(n)]. *)
Definition after_calls (n j : nat) (g : G) : G :=
  Nat.iter j (λ g', snd (randint n g')) g.

(** The outcome of the call [randint(n)] number [j], counted from 0 at the
    state [g]. *)
Definition call (n : nat) (g : G) (j : nat) : nat :=
  fst (randint n (after_calls n j g)).

(** Resample [r] of a sample of [n] members: the outcomes of [n] calls of
    their own, those from [r * n] on. *)
Definition resample (n : nat) (g : G) (r : nat) : list nat :=
  call n g <$> seq (r * n) n.
End Calls.

Section Resamples.
Context {F : Type} `{PyFloat F} {G : Type} `{RandomState G}.

(** The generator when [bstrap] comes to the sample [i]: a sample of [n]
    members before it took [bs_iter * n] calls. *)
Definition sample_start (bs_iter : nat) (data : list (list F)) (i : nat)
    (g : G) : G :=
  foldl (λ g' d, after_calls (length d) (bs_iter * length d) g') g
    (take i data).

(** The bootstrap array of the sample [d] from the state [g]: nothing for
    an empty sample, and else, for each of [bs_iter] resamples, the mean of
    the members of [d] at its indices. *)
Definition resample_means (bs_iter : nat) (d : list F) (g : G) : list F :=
  match d with
  | [] => []
  | _ :: _ =>
      (λ r, mean (take_at d (resample (length d) g r))) <$> seq 0 bs_iter
  end.

(** The same with the means of the raw values, divided by [unit]
    afterwards. *)
Definition raw_resample_means (unit bs_iter : nat) (d : list F) (g : G)
    : list F :=
  match d with
  | [] => []
  | _ :: _ =>
      (λ r, f_div (mean (take_at d (resample (length d) g r)))
              (f_of_nat unit)) <$> seq 0 bs_iter
  end.
End Resamples.

(** ** The script: rows, groups and cohorts *)

(** [s.split(sep)] for a separator of one character. *)
Fixpoint str_split (sep : ascii) (s : string) : list string :=
  match s with
  | EmptyString => [EmptyString]
  | String c s' =>
      if Ascii.eqb c sep then EmptyString :: str_split sep s'
      else match str_split sep s' with
           | w :: ws => String c w :: ws
           | [] => [String c EmptyString]
           end
  end.

(** [s.replace(a, b)] for characters [a] and [b]. *)
Fixpoint str_replace (a b : ascii) (s : string) : string :=
  match s with
  | EmptyString => EmptyString
  | String c s' => String (if Ascii.eqb c a then b else c) (str_replace a b s')
  end.

(** ['_'.join(parts)]. *)
Fixpoint str_join (sep : string) (parts : list string) : string :=
  match parts with
  | [] => EmptyString
  | [p] => p
  | p :: parts' => p +:+ sep +:+ str_join sep parts'
  end.

(** [[x for x in xs if cond(x)]] with a condition that may raise. *)
Fixpoint comprehension_if {X} (cond : X → result bool) (xs : list X)
    : result (list X) :=
  match xs with
  | [] => Ok []
  | x :: xs' =>
      b ← cond x;
      ys ← comprehension_if cond xs';
      Ok (if (b : bool) then x :: ys else ys)
  end.

(** The lines of the input file without the blank ones and without the
    header line, split at the commas. *)
Definition data_items_of (file_data : string) : result (list (list string)) :=
  let file_lines := str_split "010"%char file_data in
  let file_lines := filter (λ l, l ≠ EmptyString) file_lines in
  let file_lines := filter (λ l, l ≠ " ") file_lines in
  match file_lines with
  | [] => Raise IndexError
  | title_line :: file_lines' => Ok (str_split ","%char <$> file_lines')
  end.

(** The region keywords, in the order of the plots. *)
Definition region_unique : list string :=
  ["N Am"; "CS Am"; "Europe"; "Africa"; "SW Asia"; "SC Asia"; "India";
   "China"; "E Asia"; "SE Asia"].

(** [regions]: for every keyword the rows whose third field is the
    keyword. *)
Definition regions_of (data_items : list (list string))
    : result (list (list (list string))) :=
  for_each
    (λ regions region,
       group ← comprehension_if
                 (λ data_line,
                    field ← py_getitem data_line 2;
                    Ok (String.eqb field region))
                 data_items;
       Ok (regions ++ [group]))
    region_unique [].

Section Cohorts.
Context {F : Type} `{PyFloat F}.

(** [aboveregions]: the rows with more than two million people in 2010. *)
Definition aboveregions_of (allregions : list (list (list string)))
    : result (list (list (list string))) :=
  comprehension
    (λ region_line,
       comprehension_if
         (λ x, field ← py_getitem x 8;
               v ← py_float field;
               Ok (f_gt v (f_of_nat 2000)))
         region_line)
    allregions.

(** [belowregions]: the rows with at most two million people in 2010. *)
Definition belowregions_of (allregions : list (list (list string)))
    : result (list (list (list string))) :=
  comprehension
    (λ region_line,
       comprehension_if
         (λ x, field ← py_getitem x 8;
               v ← py_float field;
               Ok (f_le v (f_of_nat 2000)))
         region_line)
    allregions.
End Cohorts.

(** Comparison of floats that are numbers: [<=] is the negation of [>],
    and the float of an int is a number. *)
Class FloatOrder (F : Type) `{PyFloat F} : Prop := {
  f_le_not_gt : ∀ x y : F,
    f_isnan x = false → f_isnan y = false → f_le x y = negb (f_gt x y);
  f_of_nat_number : ∀ n : nat, f_isnan (f_of_nat (F:=F) n) = false
}.

(** The 2010 population of a row: field 8 as a number. *)
Definition population_2010 {F : Type} `{PyFloat F} (x : list string) (v : F)
    : Prop :=
  ∃ field, x !! 8%nat = Some field ∧ float_of_str field = Some v
           ∧ f_isnan v = false.

(** A row above the threshold: its 2010 population is more than 2000
    thousand. *)
Definition above_threshold {F : Type} `{PyFloat F} (x : list string) : Prop :=
  ∃ v : F, population_2010 x v ∧ f_gt v (f_of_nat 2000) = true.

(** A row below the threshold: its 2010 population is at most 2000
    thousand. *)
Definition below_threshold {F : Type} `{PyFloat F} (x : list string) : Prop :=
  ∃ v : F, population_2010 x v ∧ f_le v (f_of_nat 2000) = true.

(** ** The script: effects *)

(** [os.path.split], [os.path.splitext] and [os.path.join] of the
    platform. *)
Class OsPath := {
  path_split : string → string * string;
  path_splitext : string → string * string;
  path_join : string → string → string
}.

Inductive warning : Type :=
  | RuntimeWarning (msg : string).

(** The warnings that [numpy.mean] and [numpy.median] raise for an array.
    For an empty array NumPy raises more than one, and their wording is a
    matter of its version. *)
Class NumpyWarnings (F : Type) := {
  mean_warnings : list F → list warning;
  median_warnings : list F → list warning
}.

(** What a run leaves behind: files, the lines of the summary and the
    sheets of the workbook, and what was caught or ignored on the way. *)
Inductive event (F : Type) : Type :=
  | FileOpened (name : string)
  | SummaryWritten (cur_region title opic_string : string) (stats : list F)
  | SheetWritten (sheet_name : string) (columns : list (string * list F))
  | FigureSaved (name : string)
  | WorkbookSaved (name : string)
  | Caught (e : exn)
  | Ignored (w : warning).
Arguments FileOpened {F} name.
Arguments SummaryWritten {F} cur_region title opic_string stats.
Arguments SheetWritten {F} sheet_name columns.
Arguments FigureSaved {F} name.
Arguments WorkbookSaved {F} name.
Arguments Caught {F} e.
Arguments Ignored {F} w.

(** The state of a run: the generator and the events so far. *)
Record world (G F : Type) : Type := World {
  rng : G;
  log : list (event F)
}.
Arguments World {G F} rng log.
Arguments rng {G F} w.
Arguments log {G F} w.

(** A statement of the script: it may raise, and it changes the state. *)
Definition prog (G F A : Type) : Type := world G F → result A * world G F.

#[global] Instance prog_ret {G F} : MRet (prog G F) := λ A a w, (Ok a, w).
#[global] Instance prog_bind {G F} : MBind (prog G F) :=
  λ A B k p w,
    match p w with
    | (Ok a, w') => k a w'
    | (Raise e, w') => (Raise e, w')
    end.

Section Effects.
Context {G F : Type}.

Definition lift {A} (r : result A) : prog G F A := λ w, (r, w).

Definition emit (ev : event F) : prog G F unit :=
  λ w, (Ok (), World (rng w) (log w ++ [ev])).

Definition with_rng {A} (f : G → result A * G) : prog G F A :=
  λ w, let '(r, g') := f (rng w) in (r, World g' (log w)).

Definition skip_rng (f : G → G) : prog G F unit :=
  λ w, (Ok (), World (f (rng w)) (log w)).

(** A [for] loop of statements. *)
Fixpoint prog_for {S X} (body : S → X → prog G F S) (xs : list X) (s : S)
    : prog G F S :=
  match xs with
  | [] => mret s
  | x :: xs' => s' ← body s x; prog_for body xs' s'
  end.

(** [try: body except ZeroDivisionError: handler]. *)
Definition except_ZeroDivisionError {A} (body handler : prog G F A)
    : prog G F A :=
  λ w,
    match body w with
    | (Raise ZeroDivisionError, w') =>
        handler (World (rng w') (log w' ++ [Caught ZeroDivisionError]))
    | other => other
    end.

(** The names of the files a run has made, in order. *)
Definition files_of (evs : list (event F)) : list string :=
  omap (λ ev, match ev with
              | FileOpened name | FigureSaved name | WorkbookSaved name =>
                  Some name
              | _ => None
              end) evs.
End Effects.

(** ** What a statement adds to the log *)

Section Runs.
Context {G F : Type} `{NumpyWarnings F}.

(** [p] makes the files [names], in this order: a run that ends well has
    made them all, and a run that raises has made the first of them. *)
Definition writes {A} (names : list string) (p : prog G F A) : Prop :=
  ∀ w, ∃ new,
    log (snd (p w)) = log w ++ new
    ∧ files_of new `prefix_of` names
    ∧ (is_ok (fst (p w)) = true → files_of new = names).

(** Every event that [p] adds to the log satisfies [Q]. *)
Definition adds_only {A} (Q : event F → Prop) (p : prog G F A) : Prop :=
  ∀ w, ∃ new, log (snd (p w)) = log w ++ new ∧ Forall Q new.

(** An event of a run without other recovery than that of the script: an
    [except] clause ran for a [ZeroDivisionError] only, and a warning that
    was ignored is one that [numpy.mean] or [numpy.median] raised for an
    array. *)
Definition expected (ev : event F) : Prop :=
  match ev with
  | Caught e => e = ZeroDivisionError
  | Ignored w => ∃ b : list F, w ∈ mean_warnings b ∨ w ∈ median_warnings b
  | _ => True
  end.
End Runs.

(** ** The script: plots and files *)

Section Script.
Context {F : Type} `{PyFloat F} `{NumpyWarnings F} {G : Type}
  `{RandomState G} `{OsPath}.

(** [sum(xs)/len(xs)] on a list of floats: the ints [0/0] for no float. *)
Definition py_mean (xs : list F) : result F :=
  if (length xs =? 0)%nat then Raise ZeroDivisionError
  else Ok (f_div (f_sum xs) (f_of_nat (length xs))).

(** [numpy.mean] and [numpy.median] under [simplefilter("ignore")]: every
    warning that the statistic raises is dropped, whatever it is, and the
    statistic of an empty array is [nan]. *)
Definition numpy_stat (stat : list F → F) (warns : list F → list warning)
    (xs : list F) : prog G F F :=
  _ ← prog_for (λ _ w, emit (Ignored w)) (warns xs) ();
  mret (match xs with
        | [] => f_nan
        | _ :: _ => stat xs
        end).

(** [os.path.join(os.path.split(ifile_path)[0], name)]. *)
Definition beside (ifile_path name : string) : string :=
  path_join (fst (path_split ifile_path)) name.

(** The first loop of [plot_linear]: the means of the location-averaged
    rates of population change of every region, [nan] for a decade without
    rates. *)
Definition region_means_of (regions : list (list (list string)))
    : prog G F (list (list F)) :=
  prog_for
    (λ region_means m,
       pop_perc ← lift (loc_average regions (Z.of_nat m) 9 13);
       pop_perc ← lift (unpack 4 pop_perc);
       means ← prog_for
                 (λ means pop,
                    v ← except_ZeroDivisionError (lift (py_mean pop))
                          (mret f_nan);
                    mret (means ++ [v]))
                 pop_perc [];
       mret (region_means ++ [means]))
    (seq 0 (length region_unique)) [].

(** The columns of a sheet: an array with members is kept under its key
    unless the key is there already. *)
Definition bs_dict_update (cur_region opic_string : string)
    (bs_dict : list (string * list F)) (bs_item : string * list F)
    : list (string * list F) :=
  let bs_key :=
    str_join "_" [str_replace " "%char "_"%char cur_region; opic_string;
                  fst bs_item] in
  if (length (snd bs_item) =? 0)%nat then bs_dict
  else if bool_decide (bs_key ∈ fst <$> bs_dict) then bs_dict
  else bs_dict ++ [(bs_key, snd bs_item)].

(** The jitter of the box plots: one draw of floats per array. *)
Definition jitter (data_array : list (list F)) : prog G F unit :=
  prog_for (λ _ b, skip_rng (random_sample (length b))) data_array ().

(** A loop of [plot_linear] over the regions: location averages of the
    columns [s:e], their bootstrap, the lines of the summary, the columns
    of the sheet and the box plot. *)
Definition bootstrap_loop (regions : list (list (list string)))
    (opic_string title : string) (s e : Z) (labels : list string)
    : prog G F (list (list (list F)) * list (string * list F)) :=
  prog_for
    (λ '(bs_pack, bs_dict) '(m, cur_region),
       data ← lift (loc_average regions (Z.of_nat m) s e);
       data ← lift (unpack (length labels) data);
       bs ← with_rng (bstrap 1000 data);
       bs ← lift (unpack (length labels) bs);
       means ← prog_for (λ acc b, v ← numpy_stat numpy_mean mean_warnings b;
                                  mret (acc ++ [v])) bs [];
       medians ← prog_for (λ acc b,
                             v ← numpy_stat f_median median_warnings b;
                             mret (acc ++ [v])) bs [];
       _ ← emit (SummaryWritten cur_region title opic_string
                   (mjoin (zip_with (λ a b, [a; b]) means medians)));
       let bs_dict' :=
         foldl (bs_dict_update cur_region opic_string) bs_dict
           (zip labels bs) in
       _ ← jitter bs;
       mret (bs_pack ++ [bs], bs_dict'))
    (zip (seq 0 (length region_unique)) region_unique) ([], []).

Definition rate_labels : list string := ["70-80"; "80-90"; "90-00"; "00-10"].
Definition decade_labels : list string :=
  ["1970"; "1980"; "1990"; "2000"; "2010"].

Definition plot_linear (regions : list (list (list string)))
    (ifile_path opic_string : string)
    : prog G F (list (list (list F)) * list (list (list F)) * list (list F)) :=
  region_means ← region_means_of regions;
  '(bs_pack1, bs_dict1) ←
    bootstrap_loop regions opic_string "Urban Expansion Rates" 18 22
      rate_labels;
  _ ← emit (SheetWritten ("UER_" +:+ opic_string) bs_dict1);
  _ ← emit (FigureSaved (beside ifile_path (opic_string +:+ "_rates_linear.png")));
  '(bs_pack2, bs_dict2) ←
    bootstrap_loop regions opic_string "Population Density" 22 27
      decade_labels;
  _ ← emit (SheetWritten ("PD_" +:+ opic_string) bs_dict2);
  _ ← emit (FigureSaved (beside ifile_path (opic_string +:+ "_PD_linear.png")));
  mret (bs_pack1, bs_pack2, region_means).

(** A loop of [plot_log] over the regions: the bootstrap of the linear
    plot, the location averages once more for the counts, and the box
    plot. *)
Definition log_loop (regions : list (list (list string)))
    (bs_pack : list (list (list F))) (s e : Z) (k : nat) : prog G F unit :=
  prog_for
    (λ _ m,
       bs ← lift (py_getitem bs_pack (Z.of_nat m));
       bs ← lift (unpack k bs);
       data ← lift (loc_average regions (Z.of_nat m) s e);
       data ← lift (unpack k data);
       jitter bs)
    (seq 0 (length region_unique)) ().

Definition plot_log (regions : list (list (list string)))
    (ifile_path opic_string : string)
    (bs_pack1 bs_pack2 : list (list (list F))) (region_means : list (list F))
    : prog G F unit :=
  _ ← log_loop regions bs_pack1 18 22 4;
  _ ← emit (FigureSaved (beside ifile_path (opic_string +:+ "_rates_log.png")));
  _ ← log_loop regions bs_pack2 22 27 5;
  emit (FigureSaved (beside ifile_path (opic_string +:+ "_PD_log.png"))).

(** The linear and the logarithmic plots of one cohort. *)
Definition plot_cohort (regions : list (list (list string)))
    (input_file opic_string : string) : prog G F unit :=
  '(bs_pack1, bs_pack2, region_means) ←
    plot_linear regions input_file opic_string;
  plot_log regions input_file opic_string bs_pack1 bs_pack2 region_means.

Definition summary_output_file (input_file : string) : string :=
  path_join (fst (path_split input_file))
    ("regional_location_summary" +:+ snd (path_splitext input_file)).

Definition bstrap_output_file (input_file : string) : string :=
  path_join (fst (path_split input_file))
    ("regional_location_bstrap" +:+ ".xlsx").

(** The script from the command line on: [input_file] is [sys.argv[1]] and
    [file_data] what the file holds. *)
Definition main (input_file file_data : string) : prog G F unit :=
  _ ← emit (FileOpened (summary_output_file input_file));
  data_items ← lift (data_items_of file_data);
  regions ← lift (regions_of data_items);
  let allregions := regions in
  aboveregions ← lift (aboveregions_of allregions);
  belowregions ← lift (belowregions_of allregions);
  _ ← plot_cohort allregions input_file "regional_all_location";
  _ ← plot_cohort aboveregions input_file "regional_above_location";
  _ ← plot_cohort belowregions input_file "regional_below_location";
  emit (WorkbookSaved (bstrap_output_file input_file)).
End Script.

(** ** The output files, as they are described *)

Section OutputFiles.
Context `{OsPath}.

Definition cohort_names : list string :=
  ["regional_all_location"; "regional_above_location";
   "regional_below_location"].

(** The four figures of a cohort, in the order they are saved. *)
Definition figure_names (cohort : string) : list string :=
  [cohort +:+ "_rates_linear.png"; cohort +:+ "_PD_linear.png";
   cohort +:+ "_rates_log.png"; cohort +:+ "_PD_log.png"].

(** The directory of the input file and its extension. *)
Definition directory (input_file : string) : string :=
  fst (path_split input_file).
Definition extension (input_file : string) : string :=
  snd (path_splitext input_file).

(** The fourteen files of a run, in the order they are made. *)
Definition output_files (input_file : string) : list string :=
  path_join (directory input_file)
    ("regional_location_summary" +:+ extension input_file)
  :: (path_join (directory input_file)
        <$> (cohort_names ≫= figure_names))
  ++ [path_join (directory input_file) "regional_location_bstrap.xlsx"].
End OutputFiles.

(** ** The paths of a POSIX system, to run the script *)

Module Posix.
Definition chars (s : string) : list ascii := String.list_ascii_of_string s.
Definition str (l : list ascii) : string := String.string_of_list_ascii l.

(** [s.rfind(c)]: the last position of [c], or [-1]. *)
Fixpoint rfind_from (c : ascii) (l : list ascii) (i found : Z) : Z :=
  match l with
  | [] => found
  | x :: l' => rfind_from c l' (i + 1) (if Ascii.eqb x c then i else found)
  end.
Definition rfind (c : ascii) (l : list ascii) : Z := rfind_from c l 0 (-1).

(** [s.rstrip(c)]. *)
Fixpoint rstrip (c : ascii) (l : list ascii) : list ascii :=
  match l with
  | [] => []
  | x :: l' =>
      match rstrip c l' with
      | [] => if Ascii.eqb x c then [] else [x]
      | r => x :: r
      end
  end.

Definition split (p : string) : string * string :=
  let l := chars p in
  let i := Z.to_nat (rfind "/"%char l + 1) in
  let head := take i l in
  let tail := drop i l in
  let head :=
    if negb (forallb (Ascii.eqb "/"%char) head) then rstrip "/"%char head
    else head in
  (str head, str tail).

Definition splitext (p : string) : string * string :=
  let l := chars p in
  let sepIndex := rfind "/"%char l in
  let dotIndex := rfind "."%char l in
  if sepIndex <? dotIndex then
    let before := take (Z.to_nat (dotIndex - (sepIndex + 1)))
                    (drop (Z.to_nat (sepIndex + 1)) l) in
    if existsb (λ c, negb (Ascii.eqb c "."%char)) before
    then (str (take (Z.to_nat dotIndex) l), str (drop (Z.to_nat dotIndex) l))
    else (p, EmptyString)
  else (p, EmptyString).

Definition join (a b : string) : string :=
  match chars b with
  | c :: _ =>
      if Ascii.eqb c "/"%char then b
      else match last (chars a) with
           | None => b
           | Some d => if Ascii.eqb d "/"%char then a +:+ b
                       else a +:+ "/" +:+ b
           end
  | [] =>
      match last (chars a) with
      | None => b
      | Some d => if Ascii.eqb d "/"%char then a else a +:+ "/"
      end
  end.

#[global] Instance os_path : OsPath := {|
  path_split := split;
  path_splitext := splitext;
  path_join := join
|}.
End Posix.

(** ** Lists as objects: [loc_average] and [bstrap] on a store *)

(** A Python value: text, int, float, or the reference of a list object
    (a list, or a NumPy array). *)
Inductive value (F : Type) : Type :=
  | VStr (s : string)
  | VInt (n : Z)
  | VFloat (x : F)
  | VRef (l : positive).
Arguments VStr {F} s.
Arguments VInt {F} n.
Arguments VFloat {F} x.
Arguments VRef {F} l.

(** The list objects of a run, and the generator. *)
Record store (F G : Type) : Type := Store {
  objects : gmap positive (list (value F));
  generator : G
}.
Arguments Store {F G} objects generator.
Arguments objects {F G} _.
Arguments generator {F G} _.

(** A statement that works on the list objects. *)
Definition cmd (F G A : Type) : Type := store F G → result A * store F G.

#[global] Instance cmd_ret {F G} : MRet (cmd F G) := λ A a σ, (Ok a, σ).
#[global] Instance cmd_bind {F G} : MBind (cmd F G) :=
  λ A B k p σ,
    match p σ with
    | (Ok a, σ') => k a σ'
    | (Raise e, σ') => (Raise e, σ')
    end.

Section Objects.
Context {F G : Type}.

Definition pure_result {A} (r : result A) : cmd F G A := λ σ, (r, σ).

(** A new list object with the members [xs]. *)
Definition new_list (xs : list (value F)) : cmd F G positive :=
  λ σ, let l := fresh (dom (objects σ)) in
       (Ok l, Store (<[l := xs]> (objects σ)) (generator σ)).

(** The members of the list object [l]. *)
Definition contents (l : positive) : cmd F G (list (value F)) :=
  λ σ, match objects σ !! l with
       | Some xs => (Ok xs, σ)
       | None => (Raise TypeError, σ)
       end.

(** [l.append(v)]: the one statement of the two functions that changes a
    list object. *)
Definition list_append (l : positive) (v : value F) : cmd F G unit :=
  λ σ, match objects σ !! l with
       | Some xs => (Ok (), Store (<[l := xs ++ [v]]> (objects σ)) (generator σ))
       | None => (Raise TypeError, σ)
       end.

(** The members of the list that a value refers to. *)
Definition deref (v : value F) : cmd F G (list (value F)) :=
  match v with
  | VRef l => contents l
  | _ => pure_result (Raise TypeError)
  end.

Definition with_generator {A} (f : G → result A * G) : cmd F G A :=
  λ σ, let '(r, g') := f (generator σ) in (r, Store (objects σ) g').

Fixpoint cmd_for {S X} (body : S → X → cmd F G S) (xs : list X) (s : S)
    : cmd F G S :=
  match xs with
  | [] => mret s
  | x :: xs' => s' ← body s x; cmd_for body xs' s'
  end.

Fixpoint cmd_map {X Y} (f : X → cmd F G Y) (xs : list X) : cmd F G (list Y) :=
  match xs with
  | [] => mret []
  | x :: xs' => y ← f x; ys ← cmd_map f xs'; mret (y :: ys)
  end.

Definition as_str (v : value F) : result string :=
  match v with VStr s => Ok s | _ => Raise TypeError end.

Definition as_float (v : value F) : result F :=
  match v with VFloat x => Ok x | _ => Raise TypeError end.

Definition as_int (v : value F) : result Z :=
  match v with VInt n => Ok n | _ => Raise TypeError end.

(** The unchanged part of the store: the list objects [D] are there with
    the members they had. *)
Definition unchanged (D : gset positive) (σ σ' : store F G) : Prop :=
  D ⊆ dom (objects σ')
  ∧ ∀ l, l ∈ D → objects σ' !! l = objects σ !! l.

(** [p] leaves the list objects [D] as they are. *)
Definition frames {A} (D : gset positive) (p : cmd F G A) : Prop :=
  ∀ σ, D ⊆ dom (objects σ) → unchanged D σ (snd (p σ)).

(** What [p] returns when it returns satisfies [P]. *)
Definition returns {A} (D : gset positive) (P : A → Prop) (p : cmd F G A)
    : Prop :=
  ∀ σ, D ⊆ dom (objects σ) →
       match fst (p σ) with Ok a => P a | Raise _ => True end.
End Objects.

Section ObjectModel.
Context {F : Type} `{PyFloat F} {G : Type} `{RandomState G}.

(** The rows of a region: a list of references of lists of texts. *)
Definition read_table (region : value F) : cmd F G (list (list string)) :=
  rows ← deref region;
  cmd_map (λ row, cells ← deref row;
                  pure_result (comprehension as_str cells)) rows.

(** [loc_average] with its lists as objects: [regions] is the reference of
    the list of the regions; the lists [loc_name_unique], [loc_index] and
    [loc70] to [loc10] are new objects that grow by [append], and the
    lists that are returned are new copies. *)
Definition loc_average_obj (regions : positive) (m data_index_start
    data_index_end : Z) : cmd F G (list positive) :=
  regs ← contents regions;
  region ← pure_result (py_getitem regs m);
  table ← read_table region;
  loc_name ← pure_result (py_getitem (zip_star table) 0);
  '(opt, data) ←
    (if data_index_end - data_index_start =? 4 then
       regs' ← contents regions;
       region' ← pure_result (py_getitem regs' m);
       table' ← read_table region';
       d ← pure_result
             (unpack 4 (py_slice (zip_star table') data_index_start
                          data_index_end));
       mret (rate, d)
     else if data_index_end - data_index_start =? 5 then
       regs' ← contents regions;
       region' ← pure_result (py_getitem regs' m);
       table' ← read_table region';
       d ← pure_result
             (unpack 5 (py_slice (zip_star table') data_index_start
                          data_index_end));
       mret (PD, d)
     else pure_result
            (Raise (PyException "Number of decades should be 4 or 5.")));
  loc_name_unique ← new_list [];
  _ ← cmd_for
        (λ _ i,
           name ← pure_result (py_getitem loc_name (Z.of_nat i));
           unique ← contents loc_name_unique;
           unique ← pure_result (comprehension as_str unique);
           if bool_decide (name ∈ unique) then mret ()
           else list_append loc_name_unique (VStr name))
        (seq 0 (length loc_name)) ();
  locs ← cmd_map (λ _ : list string, new_list []) data;
  unique ← contents loc_name_unique;
  _ ← cmd_for
        (λ _ j,
           loc_index ← new_list [];
           _ ← cmd_for
                 (λ _ i,
                    name ← pure_result (py_getitem loc_name (Z.of_nat i));
                    unique ← contents loc_name_unique;
                    name_j ← pure_result (py_getitem unique (Z.of_nat j));
                    name_j ← pure_result (as_str name_j);
                    if String.eqb name name_j
                    then list_append loc_index (VInt (Z.of_nat i))
                    else mret ())
                 (seq 0 (length loc_name)) ();
           indices ← contents loc_index;
           accs ← cmd_for
                    (λ accs k,
                       indices ← contents loc_index;
                       i ← pure_result (py_getitem indices (Z.of_nat k));
                       i ← pure_result (as_int i);
                       pure_result (accumulate_row (Z.to_nat i) data accs))
                    (seq 0 (length indices))
                    ((λ _ : list string, (f_of_nat 0, 0%nat)) <$> data);
           cmd_for
             (λ _ '(loc, acc),
                indices ← contents loc_index;
                if bool_decide (0 < Z.of_nat (length indices)
                                    - Z.of_nat (snd acc))
                then list_append loc
                       (VFloat (f_div (fst acc)
                          (f_of_nat (length indices - snd acc))))
                else mret ())
             (zip locs accs) ())
        (seq 0 (length unique)) ();
  cmd_map (λ loc, xs ← contents loc; new_list xs) locs.

(** One decade of [bstrap] with its lists as objects: the name [data70]
    is bound to a new list of the scaled values, and the arrays are new
    objects. *)
Definition bstrap_decade_obj (bs_iter numr8tr : nat) (data : value F)
    : cmd F G positive :=
  members ← deref data;
  if bool_decide (0 < length members)%nat then
    floats ← pure_result (comprehension as_float members);
    data' ← new_list ((λ x, VFloat (f_div x (f_of_nat numr8tr))) <$> floats);
    scaled_members ← contents data';
    scaled_floats ← pure_result (comprehension as_float scaled_members);
    npy ← new_list (VFloat <$> scaled_floats);
    array ← contents npy;
    array_floats ← pure_result (comprehension as_float array);
    drawn ← with_generator
              (random_choice array_floats bs_iter (length array_floats));
    new_list (VFloat <$> numpy_mean_axis1 drawn)
  else new_list [].

(** [bstrap] with its lists as objects: [data] is the tuple of the
    references of the samples. *)
Definition bstrap_obj (bs_iter : nat) (data : list (value F))
    : cmd F G (list positive) :=
  opt ← pure_result
          (if (length data =? 4)%nat then Ok rate
           else if (length data =? 5)%nat then Ok PD
           else Raise (PyException "Number of Decades should be 4 or 5"));
  let numr8tr := match opt with rate => 1%nat | PD => 1000%nat end in
  bs ← cmd_map (bstrap_decade_obj bs_iter numr8tr) (take 4 data);
  match opt with
  | rate => mret bs
  | PD =>
      bs10 ← cmd_map (bstrap_decade_obj bs_iter 1000) (drop 4 data);
      mret (bs ++ bs10)
  end.
End ObjectModel.

(** ** The store and the values it stands for *)

Section Represents.
Context {F G : Type}.

(** The value [v] refers to a list object with the floats [d]. *)
Definition holds_floats (σ : store F G) (v : value F) (d : list F) : Prop :=
  ∃ l, v = VRef l ∧ objects σ !! l = Some (VFloat <$> d).

(** The value [v] refers to a list of rows, each a list of texts. *)
Definition holds_table (σ : store F G) (v : value F)
    (region : list (list string)) : Prop :=
  ∃ l rows, v = VRef l ∧ objects σ !! l = Some rows
    ∧ Forall2 (λ row_ref row,
                 ∃ l', row_ref = VRef l'
                       ∧ objects σ !! l' = Some (VStr <$> row))
        rows region.

(** The object [regions] is the list of the regions [rs]. *)
Definition holds_regions (σ : store F G) (regions : positive)
    (rs : list (list (list string))) : Prop :=
  ∃ refs, objects σ !! regions = Some refs
          ∧ Forall2 (holds_table σ) refs rs.
End Represents.

(** ** A table to run the model on *)

Module Sample.
(** A row of the input table: name, country, region, OID, the populations
    of the five decades, the four rates of population change, the five
    urban areas, the four rates of urban expansion, the five population
    densities. *)
Definition row (name country region oid : string)
    (pop pop_rate area area_rate density : list string) : list string :=
  [name; country; region; oid] ++ pop ++ pop_rate ++ area ++ area_rate
    ++ density.

(** A field without a measurement. *)
Definition no_data : string := EmptyString.

Definition lagos_1 : list string :=
  row "Lagos" "Nigeria" "Africa" "1"
    ["1400"; "2600"; "4800"; "7300"; "10800"] ["6.2"; "6.1"; "4.2"; "3.9"]
    ["120"; "250"; "480"; "700"; "900"] ["7.5"; "6.5"; "3.8"; "2.5"]
    ["11000"; "10400"; "10000"; "10400"; "12000"].

Definition cairo : list string :=
  row "Cairo" "Egypt" "Africa" "2"
    ["5600"; "7300"; "9900"; "13600"; "16900"] ["2.7"; "3.0"; "3.2"; "2.2"]
    ["300"; "400"; "550"; "800"; "1100"] ["2.9"; "3.2"; "3.8"; "3.2"]
    ["18000"; "18250"; "18000"; "17000"; "15000"].

(** A second study of Lagos, without data for the first decades. *)
Definition lagos_2 : list string :=
  row "Lagos" "Nigeria" "Africa" "3"
    ["1400"; "2600"; "4800"; "7300"; "10800"] ["6.2"; "6.1"; "4.2"; "3.9"]
    [no_data; no_data; "500"; "750"; "1000"] [no_data; " "; "4.2"; "3.5"]
    [no_data; no_data; "9000"; "9600"; "10000"].

(** A town below two million people, without rates of urban expansion. *)
Definition kano : list string :=
  row "Kano" "Nigeria" "Africa" "4"
    ["500"; "800"; "1100"; "1500"; "1900"] ["4.7"; "3.2"; "3.1"; "2.4"]
    [no_data; no_data; no_data; no_data; "150"] [no_data; no_data; no_data; no_data]
    [no_data; no_data; no_data; no_data; "12500"].

Definition paris : list string :=
  row "Paris" "France" "Europe" "5"
    ["8200"; "8700"; "9300"; "9700"; "10500"] ["0.6"; "0.7"; "0.4"; "0.8"]
    ["1500"; "1800"; "2100"; "2400"; "2800"] ["1.8"; "1.5"; "1.3"; "1.5"]
    ["5400"; "4800"; "4400"; "4000"; "3750"].

(** A row of a region that is not one of the ten. *)
Definition sydney : list string :=
  row "Sydney" "Australia" "Oceania" "6"
    ["2900"; "3300"; "3600"; "4100"; "4500"] ["1.3"; "0.9"; "1.3"; "0.9"]
    ["900"; "1100"; "1300"; "1500"; "1700"] ["2.0"; "1.7"; "1.4"; "1.3"]
    ["3200"; "3000"; "2800"; "2700"; "2650"].

Definition data_items : list (list string) :=
  [lagos_1; cairo; lagos_2; paris; kano; sydney].

Definition africa : list (list string) := [lagos_1; cairo; lagos_2; kano].
Definition europe : list (list string) := [paris].

(** The groups of [data_items] for the ten region keywords. *)
Definition regions : list (list (list string)) :=
  [[]; []; europe; africa; []; []; []; []; []; []].

(** Five samples of densities, as [loc_average] gives them. *)
Definition densities : list (list Exact.num) :=
  [ [Exact.of_Z 11000; Exact.of_Z 18000];
    [Exact.of_Z 10400; Exact.of_Z 18250];
    [Exact.of_Z 9500; Exact.of_Z 18000];
    [];
    [Exact.of_Z 11000; Exact.of_Z 15000; Exact.of_Z 12500] ].

Definition seed : Lcg.state := 20200818%N.

(** The warnings of NumPy 1.19 for the mean and the median of the arrays
    of the sample runs: two for an array without members. *)
Definition empty_slice (xs : list Exact.num) : list warning :=
  match xs with
  | [] => [RuntimeWarning "Mean of empty slice.";
           RuntimeWarning "invalid value encountered in double_scalars"]
  | _ :: _ => []
  end.

#[global] Instance numpy_warnings : NumpyWarnings Exact.num := {|
  mean_warnings := empty_slice;
  median_warnings := empty_slice
|}.

(** The African rows as list objects: the list of the regions is the
    object 1, its one region the object 2, and the rows the objects 3 to 6;
    the objects 7 to 11 are the five samples of densities. *)
Definition africa_objects : gmap positive (list (value Exact.num)) :=
  list_to_map
    ([(1%positive, [VRef 2%positive]);
      (2%positive, [VRef 3%positive; VRef 4%positive; VRef 5%positive;
                    VRef 6%positive]);
      (3%positive, VStr <$> lagos_1);
      (4%positive, VStr <$> cairo);
      (5%positive, VStr <$> lagos_2);
      (6%positive, VStr <$> kano)]
     ++ zip [7%positive; 8%positive; 9%positive; 10%positive; 11%positive]
          (fmap (M:=list) VFloat <$> densities)).

Definition africa_store : store Exact.num Lcg.state :=
  Store africa_objects seed.

Definition density_refs : list (value Exact.num) :=
  [VRef 7%positive; VRef 8%positive; VRef 9%positive; VRef 10%positive;
   VRef 11%positive].

(** A town without rates of population change. *)
Definition new_town (region : string) : list string :=
  row ("New town of " +:+ region) "Country" region "3"
    [no_data; no_data; no_data; no_data; "400"]
    [no_data; no_data; " "; " "]
    [no_data; no_data; no_data; no_data; "50"]
    [no_data; no_data; no_data; no_data]
    [no_data; no_data; no_data; no_data; "8000"].

(** A table with a city above and a town below two million people in
    every region, and its text as a file. *)
Definition city (region : string) : list string :=
  row ("City of " +:+ region) "Country" region "1"
    ["900"; "1300"; "1800"; "2400"; "3000"] ["3.7"; "3.3"; "2.9"; "2.3"]
    ["90"; "120"; "150"; "200"; "240"] ["2.9"; "2.3"; "2.9"; "1.8"]
    ["10000"; "10800"; "12000"; "12000"; "12500"].

Definition town (region : string) : list string :=
  row ("Town of " +:+ region) "Country" region "2"
    ["300"; "500"; "800"; "1200"; "1500"] ["5.2"; "4.8"; "4.1"; "2.3"]
    [no_data; "60"; "90"; "140"; "160"] [no_data; " "; "4.5"; "1.3"]
    [no_data; "8300"; "8900"; "8600"; "9400"].

Definition complete_items : list (list string) :=
  region_unique ≫= (λ region, [city region; town region]).

Definition header : string := "Name,Country,Region,OID,P70,P80,P90,P00,P10".

Definition file_of (items : list (list string)) : string :=
  str_join (String "010"%char EmptyString)
    (header :: (str_join "," <$> items)).
End Sample.

(** ** The script: the lines of the input file *)

(** [l.count(x)] on a list of texts. *)
Definition py_count (x : string) (l : list string) : nat :=
  length (filter (λ y, y = x) l).

(** [l.remove(x)]: the list without its first [x]; a [ValueError] when it
    has none. *)
Fixpoint py_remove (x : string) (l : list string) : result (list string) :=
  match l with
  | [] => Raise ValueError
  | y :: l' =>
      if decide (y = x) then Ok l'
      else l'' ← py_remove x l'; Ok (y :: l'')
  end.

(** [while l.count(x) > 0: l.remove(x)], for at most [fuel] tests of the
    condition: [None] when the tests are used up. *)
Fixpoint remove_all (fuel : nat) (x : string) (l : list string)
    : option (result (list string)) :=
  match fuel with
  | O => None
  | S fuel' =>
      if bool_decide (0 < py_count x l)%nat then
        match py_remove x l with
        | Ok l' => remove_all fuel' x l'
        | Raise err => Some (Raise err)
        end
      else Some (Ok l)
  end.

(** The characters of a text. *)
Definition characters (s : string) : list ascii :=
  String.list_ascii_of_string s.

Definition newline : ascii := "010"%char.
Definition comma : ascii := ","%char.

(** ** More laws of arithmetic *)

(** The int [0] that a sum starts from changes no float. Exact arithmetic
    has this law; IEEE doubles have it for every value but the zero with a
    minus sign, which [0 + x] gives back as the zero without it. *)
Class ZeroSum (F : Type) `{PyFloat F} : Prop :=
  f_add_0 : ∀ x : F, f_add (f_of_nat 0) x = x.

(** ** The generator after [bstrap] *)

Section GeneratorAfter.
Context {G : Type} `{RandomState G}.

(** The state of the generator after the draws for samples of the sizes
    [sizes]: [bs_iter] rows of [n] draws for a sample of [n > 0] members,
    and no draw for a sample without members. *)
Definition generator_after (bs_iter : nat) (sizes : list nat) (g : G) : G :=
  foldl (λ g n, match n with
                | O => g
                | S _ => snd (draw_matrix n bs_iter n g)
                end) g sizes.
End GeneratorAfter.

(** ** The last event of a run *)

Section RunsLast.
Context {G F : Type}.

(** [p] adds [ev] as its last event when it ends well, and apart from
    that it adds events that satisfy [Q] only. *)
Definition ends_with {A} (Q : event F → Prop) (ev : event F)
    (p : prog G F A) : Prop :=
  ∀ w, ∃ new,
    log (snd (p w)) = log w ++ new
    ∧ match fst (p w) with
      | Ok _ => ∃ before, new = before ++ [ev] ∧ Forall Q before
      | Raise _ => Forall Q new
      end.

(** An event that is not the saving of the workbook. *)
Definition not_saved (ev : event F) : Prop :=
  ∀ name, ev ≠ WorkbookSaved name.
End RunsLast.

(** ** What the summary and the sheets hold, as they are described *)

Section Outputs.
Context {F : Type} `{PyFloat F}.

(** The warnings of a statistic of the arrays [bs], ignored one after the
    other. *)
Definition stat_warnings (warns : list F → list warning)
    (bs : list (list F)) : list (event F) :=
  bs ≫= λ b, Ignored <$> warns b.

(** The median of an array as the summary has it: [nan] for an array
    without members. *)
Definition summary_median (b : list F) : F :=
  match b with
  | [] => f_nan
  | _ :: _ => f_median b
  end.

(** The numbers of a block of the summary: for every decade the mean and
    then the median of its array. *)
Definition summary_stats (bs : list (list F)) : list F :=
  bs ≫= λ b, [numpy_mean b; summary_median b].

(** The name of a column of a sheet: region, cohort and decade. *)
Definition column_key (cur_region opic_string label : string) : string :=
  str_join "_"
    [str_replace " "%char "_"%char cur_region; opic_string; label].

(** The columns that a region gives to a sheet: its arrays with members,
    under their names, in the order of the decades. *)
Definition region_columns (cur_region opic_string : string)
    (labels : list string) (bs : list (list F)) : list (string * list F) :=
  filter (λ c, snd c ≠ [])
    (zip (column_key cur_region opic_string <$> labels) bs).

(** The columns of a sheet: those of the regions, region after region. *)
Definition sheet_columns (opic_string : string) (labels : list string)
    (bs_pack : list (list (list F))) : list (string * list F) :=
  mjoin (zip_with (λ cur_region bs,
                     region_columns cur_region opic_string labels bs)
           region_unique bs_pack).

(** The blocks of the summary and the sheets among the events of a run. *)
Definition summary_of (ev : event F)
    : option (string * string * string * list F) :=
  match ev with
  | SummaryWritten cur_region title opic_string stats =>
      Some (cur_region, title, opic_string, stats)
  | _ => None
  end.

Definition sheet_of (ev : event F)
    : option (string * list (string * list F)) :=
  match ev with
  | SheetWritten sheet_name columns => Some (sheet_name, columns)
  | _ => None
  end.
End Outputs.

Section JitterDraws.
Context {F G : Type} `{RandomState G}.

(** The generator after the jitter of the arrays [bs]. *)
Definition jitter_rng (bs : list (list F)) (g : G) : G :=
  foldl (λ g b, random_sample (length b) g) g bs.
End JitterDraws.

Section RegionBootstrap.
Context {F : Type} `{PyFloat F} {G : Type} `{RandomState G}.

(** [bs] is a bootstrap of the location averages of the columns [s:e] of
    the region [m]: [loc_average] returns [k] lists for the region, and
    [bstrap] returns the [k] arrays [bs] for them from some state of the
    generator. *)
Definition region_bootstrap (regions : list (list (list string)))
    (s e : Z) (k m : nat) (bs : list (list F)) : Prop :=
  ∃ (data : list (list F)) (g : G),
    loc_average regions (Z.of_nat m) s e = Ok data
    ∧ length data = k
    ∧ fst (bstrap 1000 data g) = Ok bs
    ∧ length bs = k.
End RegionBootstrap.
Arguments region_bootstrap {F _} G {_} regions s e k m bs.

(** A table with one city in every region, to run [plot_linear] on. *)
Definition one_city_regions : list (list (list string)) :=
  (λ region, [Sample.city region]) <$> region_unique.

Section Plottable.
Context {F : Type} `{PyFloat F}.

(** The regions that [plot_linear] can plot: [loc_average] returns for
    each of the ten regions on the rates of population change, the rates of
    urban expansion and the densities. *)
Definition plottable (regions : list (list (list string))) : Prop :=
  Forall (λ m,
            is_ok (loc_average (F:=F) regions (Z.of_nat m) 9 13) = true
            ∧ is_ok (loc_average (F:=F) regions (Z.of_nat m) 18 22) = true
            ∧ is_ok (loc_average (F:=F) regions (Z.of_nat m) 22 27) = true)
    (seq 0 (length region_unique)).
End Plottable.

(** ** The ticks of the axes *)

(** The loop [while l <= hi: tp_yticks.append(l); l += 2] on ints, for at
    most [fuel] tests of the condition. *)
Fixpoint linear_ticks_loop (fuel : nat) (l hi : Z) (tp_yticks : list Z)
    : option (list Z) :=
  match fuel with
  | O => None
  | S fuel' =>
      if l <=? hi
      then linear_ticks_loop fuel' (l + 2) hi (tp_yticks ++ [l])
      else Some tp_yticks
  end.

(** The ticks of a linear axis with the int limits [lo] and [hi], as
    [plot_linear] makes them for [ylimList[0]]. *)
Definition linear_ticks (fuel : nat) (lo hi : Z) : option (result (list Z)) :=
  tp_yticks ← linear_ticks_loop fuel lo hi [];
  Some (last ← py_getitem tp_yticks (-1);
        Ok (if bool_decide (last ≠ hi) then tp_yticks ++ [hi]
            else tp_yticks)).

(** [range(start, stop, step)] for a step above zero. *)
Definition py_range (start stop step : Z) : list Z :=
  (λ i : nat, start + step * Z.of_nat i)
    <$> seq 0 (Z.to_nat ((stop - start + step - 1) / step)).

(** The ticks of the axis of the densities with the int limits [lo] and
    [hi], as [plot_linear] and [plot_log] make them for [ylimList[1]]. *)
Definition density_ticks (lo hi : Z) : result (list Z) :=
  let bt_yticks :=
    foldl (λ bt_yticks l,
             if bool_decide (l ≠ lo) then bt_yticks ++ [l] else bt_yticks)
      [lo] (py_range 10 hi 10) in
  last ← py_getitem bt_yticks (-1);
  Ok (if bool_decide (last ≠ hi) then bt_yticks ++ [hi] else bt_yticks).

(** The loop [while l <= hi: ...; n += 1; l = pow(2, n)] of [plot_log], for
    at most [fuel] tests. The limits are an int or a float each, here the
    rational they stand for: Python compares ints and floats by their exact
    values. *)
Fixpoint log_ticks_loop (fuel : nat) (l n : Z) (lo hi : Qc)
    (tp_yticks : list Qc) : option (list Qc) :=
  match fuel with
  | O => None
  | S fuel' =>
      if bool_decide (Qc_of_Z l ≤ hi)%Qc
      then log_ticks_loop fuel' (2 ^ (n + 1)) (n + 1) lo hi
             (if bool_decide (Qc_of_Z l ≠ lo) then tp_yticks ++ [Qc_of_Z l]
              else tp_yticks)
      else Some tp_yticks
  end.

(** The ticks of a logarithmic axis with the limits [lo] and [hi], as
    [plot_log] makes them for [ylimList[0]]. *)
Definition log_ticks (fuel : nat) (lo hi : Qc) : option (result (list Qc)) :=
  tp_yticks ← log_ticks_loop fuel (2 ^ 0) 0 lo hi [lo];
  Some (last ← py_getitem tp_yticks (-1);
        Ok (if bool_decide (last ≠ hi) then tp_yticks ++ [hi]
            else tp_yticks)).

(** ** [plot_linear] with the limits of its axes *)

(** The ticks of a linear axis: the loop of [linear_ticks] with the tests
    that it needs, one for each step of two up to [hi] and one more. *)
Definition linear_ticks_run (lo hi : Z) : result (list Z) :=
  match linear_ticks (S (Z.to_nat ((hi - lo + 2) / 2))) lo hi with
  | Some ticks => ticks
  | None => Raise IndexError
  end.

Section PlotLinearLimits.
Context {F : Type} `{PyFloat F} `{NumpyWarnings F} {G : Type}
  `{RandomState G} `{OsPath}.

(** [plot_linear] for [ylimList] with int limits: the ticks of the rates
    are made before each of the two axes of the first figure is drawn, and
    those of the densities for the two axes of the second one. *)
Definition plot_linear_limits (ylimList : (Z * Z) * (Z * Z))
    (regions : list (list (list string))) (ifile_path opic_string : string)
    : prog G F (list (list (list F)) * list (list (list F)) * list (list F)) :=
  region_means ← region_means_of regions;
  _ ← lift (linear_ticks_run (fst (fst ylimList)) (snd (fst ylimList)));
  '(bs_pack1, bs_dict1) ←
    bootstrap_loop regions opic_string "Urban Expansion Rates" 18 22
      rate_labels;
  _ ← emit (SheetWritten ("UER_" +:+ opic_string) bs_dict1);
  _ ← lift (linear_ticks_run (fst (fst ylimList)) (snd (fst ylimList)));
  _ ← emit (FigureSaved (beside ifile_path (opic_string +:+ "_rates_linear.png")));
  '(bs_pack2, bs_dict2) ←
    bootstrap_loop regions opic_string "Population Density" 22 27
      decade_labels;
  _ ← emit (SheetWritten ("PD_" +:+ opic_string) bs_dict2);
  _ ← lift (density_ticks (fst (snd ylimList)) (snd (snd ylimList)));
  _ ← lift (density_ticks (fst (snd ylimList)) (snd (snd ylimList)));
  _ ← emit (FigureSaved (beside ifile_path (opic_string +:+ "_PD_linear.png")));
  mret (bs_pack1, bs_pack2, region_means).
End PlotLinearLimits.

(** * Properties *)

(** ** Python lists *)

(** Case analysis on the integer tests of the goal. *)
Ltac z_cases :=
  repeat match goal with
         | |- context [Z.ltb ?x ?y] => destruct (Z.ltb_spec x y)
         | |- context [Z.leb ?x ?y] => destruct (Z.leb_spec x y)
         | |- context [Z.eqb ?x ?y] => destruct (Z.eqb_spec x y)
         end.

Section PyLists.
Context {A : Type}.
Implicit Types (l : list A) (rows : list (list A)).

Lemma py_getitem_nat l (i : nat) :
  py_getitem l (Z.of_nat i) =
    match l !! i with Some x => Ok x | None => Raise IndexError end.
Proof.
  unfold py_getitem. z_cases; simpl; try lia.
  - rewrite lookup_ge_None_2; [done | lia].
  - by rewrite Nat2Z.id.
Qed.

Lemma py_getitem_0 l :
  py_getitem l 0 = match l with x :: _ => Ok x | [] => Raise IndexError end.
Proof. change 0 with (Z.of_nat 0). rewrite py_getitem_nat. by destruct l. Qed.

Lemma zip_with_cons_length (r : list A) (cols : list (list A)) (n : nat) :
  Forall (λ c, length c = n) cols →
  Forall (λ c, length c = S n) (zip_with cons r cols).
Proof.
  intros Hc. revert r. induction Hc as [|c cols Hlen _ IH]; intros [|x r];
    simpl; constructor; simpl; auto.
Qed.

Lemma zip_star_cons (r r' : list A) (rs : list (list A)) :
  zip_star (r :: r' :: rs) = zip_with cons r (zip_star (r' :: rs)).
Proof. reflexivity. Qed.

Lemma zip_star_singleton (r : list A) : zip_star [r] = (λ x, [x]) <$> r.
Proof. reflexivity. Qed.

(** Every column of [zip_star rows] has one cell per row. *)
Lemma zip_star_column_length rows :
  Forall (λ c, length c = length rows) (zip_star rows).
Proof.
  induction rows as [|r rs IH]; [constructor|].
  destruct rs as [|r' rs'].
  - rewrite zip_star_singleton. apply Forall_fmap, Forall_true. done.
  - rewrite zip_star_cons. by apply zip_with_cons_length.
Qed.

(** The column [c] holds the cell [c] of every row, in row order. *)
Lemma zip_star_column rows (c : nat) (col : list A) :
  zip_star rows !! c = Some col →
  Forall2 (λ r x, r !! c = Some x) rows col.
Proof.
  revert c col. induction rows as [|r rs IH]; intros c col.
  { simpl. by rewrite lookup_nil. }
  destruct rs as [|r' rs'].
  - rewrite zip_star_singleton, list_lookup_fmap.
    destruct (r !! c) eqn:E; simpl; [|done].
    intros [= <-]. by repeat constructor.
  - rewrite zip_star_cons, lookup_zip_with.
    destruct (r !! c) eqn:E; [|done].
    destruct (zip_star (r' :: rs') !! c) eqn:E'; [|done].
    intros [= <-]. constructor; [done|]. by apply IH.
Qed.

(** A table whose rows all have a cell [c] has a column [c]. *)
Lemma zip_star_column_exists rows (c : nat) :
  rows ≠ [] → Forall (λ r, (c < length r)%nat) rows →
  is_Some (zip_star rows !! c).
Proof.
  induction rows as [|r rs IH]; [done|]. intros _ Hall.
  apply Forall_cons in Hall as [Hr Hrs].
  destruct (lookup_lt_is_Some_2 r c Hr) as [x Hx].
  destruct rs as [|r' rs'].
  - rewrite zip_star_singleton, list_lookup_fmap, Hx. by eexists.
  - rewrite zip_star_cons, lookup_zip_with, Hx.
    destruct IH as [col ->]; [done..|]. by eexists.
Qed.
End PyLists.

(** ** Loops that may fail, and their exchange *)

Section OptionLoops.
Context {X A : Type}.
Implicit Types (f g : X → A → option A) (xs : list X) (accs : list A).

Lemma value_error_bind {B C} (o : option B) (k : B → option C) :
  value_error (o ≫= k) = value_error o ≫= (λ b, value_error (k b)).
Proof. by destruct o. Qed.

Lemma mapM_zip_id xs accs :
  length accs = length xs →
  mapM (λ p : X * A, Some (snd p)) (zip xs accs) = Some accs.
Proof.
  revert accs. induction xs as [|x xs IH]; intros [|a accs] Hlen;
    simplify_eq/=; [done|].
  rewrite IH by lia. done.
Qed.

Lemma mapM_zip_length f xs accs accs' :
  length accs = length xs →
  mapM (λ p, f (fst p) (snd p)) (zip xs accs) = Some accs' →
  length accs' = length xs.
Proof.
  intros Hlen Hm. apply length_mapM in Hm. rewrite <- Hm, length_zip. lia.
Qed.

(** Two passes over the columns do what one pass with both steps does:
    a failure of a step fails both sides. *)
Lemma mapM_zip_bind f g xs accs :
  length accs = length xs →
  mapM (λ p, f (fst p) (snd p) ≫= g (fst p)) (zip xs accs) =
    mapM (λ p, f (fst p) (snd p)) (zip xs accs) ≫=
      (λ accs', mapM (λ p, g (fst p) (snd p)) (zip xs accs')).
Proof.
  revert accs. induction xs as [|x xs IH]; intros [|a accs] Hlen;
    simplify_eq/=; [done|].
  rewrite IH by lia.
  destruct (f x a) as [a'|]; simpl; [|done].
  destruct (mapM (λ p, f (fst p) (snd p)) (zip xs accs)) as [accs'|]; simpl.
  - done.
  - by destruct (g x a').
Qed.
End OptionLoops.

(** ** The loop over the studies of a location *)

Section InnerLoop.
Context {F : Type} `{PyFloat F}.
Implicit Types (col cells : list string) (data : list (list string))
  (acc : F * nat) (accs : list (F * nat)) (idxs : list nat).

Lemma accumulate_cell i col cell acc :
  col !! i = Some cell →
  accumulate i col acc = value_error (cell_step cell acc).
Proof.
  intros Hc. unfold accumulate, cell_step. rewrite py_getitem_nat, Hc. simpl.
  destruct (blank cell); simpl; [done|].
  unfold py_float. by destruct (float_of_str cell).
Qed.

Lemma accumulate_row_cells i data accs :
  Forall (λ col, (i < length col)%nat) data →
  length accs = length data →
  accumulate_row i data accs =
    value_error
      (mapM (λ p, cell_step (default EmptyString (fst p !! i)) (snd p)) (zip data accs)).
Proof.
  intros Hall. revert accs.
  induction Hall as [|col data Hi _ IH]; intros [|acc accs] Hlen;
    simplify_eq/=; [done|].
  destruct (lookup_lt_is_Some_2 col i Hi) as [cell Hcell].
  rewrite (accumulate_cell _ _ _ _ Hcell), IH, Hcell by lia. simpl.
  destruct (cell_step cell acc); simpl; [|done].
  by destruct (mapM _ (zip data accs)).
Qed.

Lemma cells_at_cons col i idxs :
  (i < length col)%nat →
  cells_at col (i :: idxs) = default EmptyString (col !! i) :: cells_at col idxs.
Proof.
  intros Hi. destruct (lookup_lt_is_Some_2 col i Hi) as [cell Hcell].
  unfold cells_at. simpl. by rewrite Hcell.
Qed.

(** The loop over [k] runs the loop of every decade, and fails with a
    [ValueError] when one of them meets a cell that is no number. *)
Lemma rows_loop_columns idxs data accs :
  Forall (λ col, Forall (λ i, (i < length col)%nat) idxs) data →
  length accs = length data →
  for_each (λ accs i, accumulate_row i data accs) idxs accs =
    value_error
      (mapM (λ p, column_loop (cells_at (fst p) idxs) (snd p)) (zip data accs)).
Proof.
  revert accs. induction idxs as [|i idxs IH]; intros accs Hall Hlen.
  - simpl. by rewrite mapM_zip_id.
  - assert (Forall (λ col, (i < length col)%nat) data) as Hi.
    { eapply Forall_impl; [exact Hall|]. intros col Hc. by inversion Hc. }
    assert (Forall (λ col, Forall (λ i, (i < length col)%nat) idxs) data) as Hrest.
    { eapply Forall_impl; [exact Hall|]. intros col Hc. by inversion Hc. }
    simpl. rewrite accumulate_row_cells by done.
    transitivity (value_error
      (mapM (λ p, cell_step (default EmptyString (fst p !! i)) (snd p)
                    ≫= column_loop (cells_at (fst p) idxs)) (zip data accs))).
    + rewrite (mapM_zip_bind
                 (λ col acc, cell_step (default EmptyString (col !! i)) acc)
                 (λ col acc, column_loop (cells_at col idxs) acc)) by done.
      destruct (mapM _ (zip data accs)) as [accs'|] eqn:E; simpl; [|done].
      apply IH; [done|].
      by apply (mapM_zip_length
                  (λ col acc, cell_step (default EmptyString (col !! i)) acc) data accs).
    + f_equal. apply Forall_mapM_ext.
      apply Forall_forall. intros [col acc] Hin.
      apply elem_of_zip_l in Hin. cbn [fst snd] in *.
      rewrite Forall_forall in Hi.
      by destruct (lookup_lt_is_Some_2 col i (Hi _ Hin)) as [cell ->].
Qed.

(** The loop of one decade: the sum of the values of the cells with data
    and the number of blank cells. *)
Lemma column_loop_spec cells acc :
  column_loop cells acc =
    vs ← mapM float_of_str (filter (λ x, blank x = false) cells);
    Some (foldl f_add (fst acc) vs,
          (snd acc + length (filter (λ x, blank x = true) cells))%nat).
Proof.
  revert acc. induction cells as [|cell cells IH]; intros [s b]; simpl.
  - f_equal. f_equal. lia.
  - unfold cell_step. rewrite !filter_cons.
    destruct (blank cell) eqn:Eb; simpl.
    + rewrite IH. simpl.
      destruct (mapM _ _); simpl; [|done]. do 2 f_equal. lia.
    + destruct (float_of_str cell); simpl; [|done].
      rewrite IH. simpl. by destruct (mapM _ _).
Qed.

Lemma filter_blank_length cells :
  length cells =
    (length (filter (λ x, blank x = false) cells)
     + length (filter (λ x, blank x = true) cells))%nat.
Proof.
  induction cells as [|cell cells IH]; [done|].
  rewrite !filter_cons. destruct (blank cell) eqn:Eb.
  - simpl. lia.
  - simpl. lia.
Qed.
End InnerLoop.

(** ** Location names and the rows of a location *)

Section Locations.
Implicit Types (names col : list string) (name : string).

Lemma unique_loop names (u : list string) :
  foldl (λ u x, if bool_decide (x ∈ u) then u else u ++ [x]) u names =
    u ++ filter (λ y, y ∉ u) (first_occurrences names).
Proof.
  revert u. induction names as [|x names IH]; intros u; simpl.
  - by rewrite app_nil_r.
  - rewrite IH. case_bool_decide as Hx.
    + rewrite filter_cons_False by (intros Hn; by apply Hn).
      f_equal. rewrite list_filter_filter. apply list_filter_iff.
      intros y. split; [|tauto]. intros Hy. split; [done|].
      intros ->. by apply Hy.
    + rewrite filter_cons_True by done. rewrite <- app_assoc. simpl.
      do 2 f_equal. rewrite list_filter_filter. apply list_filter_iff.
      intros y. rewrite not_elem_of_app, list_elem_of_singleton. tauto.
Qed.

(** [loc_name_unique] holds the names in order of first occurrence. *)
Lemma loc_name_unique_first_occurrences names :
  loc_name_unique_of names = first_occurrences names.
Proof.
  unfold loc_name_unique_of. rewrite unique_loop. simpl.
  induction (first_occurrences names) as [|z l IHl]; [done|].
  rewrite filter_cons_True by apply not_elem_of_nil. by f_equal.
Qed.

Lemma loc_index_shift names col name (pn pc : list string) :
  length col = length names → length pc = length pn →
  omap (λ i, (pc ++ col) !! i)
    (filter (λ i, (pn ++ names) !! i = Some name)
       (seq (length pn) (length names))) =
    snd <$> filter (λ p, fst p = name) (zip names col).
Proof.
  revert col pn pc. induction names as [|x names IH];
    intros [|y col] pn pc Hlen Hp; simplify_eq/=; [done|].
  rewrite !filter_cons.
  assert ((pn ++ x :: names) !! length pn = Some x) as Hx.
  { by rewrite lookup_app_r, Nat.sub_diag by lia. }
  assert ((pc ++ y :: col) !! length pn = Some y) as Hy.
  { by rewrite lookup_app_r, Hp, Nat.sub_diag by lia. }
  specialize (IH col (pn ++ [x]) (pc ++ [y])).
  rewrite !length_app, <- !app_assoc in IH. simpl in IH.
  rewrite !Nat.add_1_r in IH. rewrite Hx. simpl.
  destruct (decide (x = name)) as [->|Hne].
  - rewrite decide_True by done. simpl. rewrite Hy. f_equal.
    apply IH; lia.
  - rewrite decide_False by congruence. apply IH; lia.
Qed.

(** The cells of a decade at the rows of a location are the entries of
    the location in that decade. *)
Lemma cells_at_loc_index names col name :
  length col = length names →
  cells_at col (loc_index_of names name) = entries names col name.
Proof.
  intros Hlen. unfold cells_at, loc_index_of, entries.
  by apply (loc_index_shift names col name [] []).
Qed.

Lemma loc_index_in_range names col name :
  length col = length names →
  Forall (λ i, (i < length col)%nat) (loc_index_of names name).
Proof.
  intros Hlen. apply Forall_forall. intros i Hi.
  apply list_elem_of_filter in Hi as [_ Hi].
  apply elem_of_seq in Hi. lia.
Qed.

Lemma loc_index_length names col name :
  length col = length names →
  length (loc_index_of names name) = length (entries names col name).
Proof.
  intros Hlen. rewrite <- (cells_at_loc_index names col name Hlen).
  unfold cells_at. pose proof (loc_index_in_range names col name Hlen) as Hr.
  induction Hr as [|i idxs Hi _ IH]; [done|]. simpl.
  destruct (lookup_lt_is_Some_2 col i Hi) as [c ->]. simpl. by f_equal.
Qed.
End Locations.

(** ** The loop over the locations *)

Section OuterLoop.
Context {F : Type} `{PyFloat F}.
Implicit Types (names col : list string) (data : list (list string))
  (locs : list (list F)) (name : string).

Lemma mapM_zip_const {X A B} (h : X → A → option B) (z : A) (xs : list X) :
  mapM (λ p, h (fst p) (snd p)) (zip xs ((λ _, z) <$> xs)) =
    mapM (λ x, h x z) xs.
Proof.
  induction xs as [|x xs IH]; [done|]. simpl.
  change (list_fmap X A (λ _, z) xs) with ((λ _ : X, z) <$> xs).
  by rewrite IH.
Qed.

Lemma mapM_zip_with {X A B} (h : X → option B) (k : A → B → A)
    (xs : list X) (accs : list A) :
  length accs = length xs →
  mapM h xs ≫= (λ bs, Some (zip_with k accs bs)) =
    mapM (λ p, k (snd p) <$> h (fst p)) (zip xs accs).
Proof.
  revert accs. induction xs as [|x xs IH]; intros [|a accs] Hlen;
    simplify_eq/=; [done|].
  rewrite <- IH by lia.
  destruct (h x); simpl; [|done]. by destruct (mapM h xs).
Qed.

(** After the loop over [k], [sum_loc / (len(loc_index) - sub_loc)] is the
    mean of the values of the valid entries, and it is appended exactly
    when there is one. *)
Lemma append_mean_location_mean names col name (loc : list F) :
  append_mean (length (entries names col name)) loc
    <$> column_loop (entries names col name) (f_of_nat 0, 0%nat) =
  (λ c, loc ++ c) <$> location_mean names col name.
Proof.
  rewrite column_loop_spec. unfold location_mean, valid_entries.
  destruct (mapM float_of_str _) as [vs|] eqn:Evs; simpl; [|done].
  f_equal. apply length_mapM in Evs.
  pose proof (filter_blank_length (entries names col name)) as Hn.
  unfold append_mean. simpl. case_bool_decide as Hpos.
  - destruct vs as [|v vs]; [simpl in *; lia|].
    do 2 f_equal. unfold mean, f_sum. do 2 f_equal. lia.
  - destruct vs as [|v vs]; [by rewrite app_nil_r|simpl in *; lia].
Qed.

(** One turn of the loop over [j] appends to every decade what the
    location gives to it. *)
Lemma location_step_spec names data locs name :
  Forall (λ col, length col = length names) data →
  length locs = length data →
  location_step names data locs name =
    value_error
      (mapM (λ p, (λ c, snd p ++ c) <$> location_mean names (fst p) name)
         (zip data locs)).
Proof.
  intros Hcols Hlen. unfold location_step.
  rewrite rows_loop_columns.
  - rewrite (mapM_zip_const (λ col acc, column_loop
               (cells_at col (loc_index_of names name)) acc)).
    rewrite <- (mapM_zip_with (λ col, location_mean names col name)
                  (λ loc c, loc ++ c)) by done.
    assert (mapM (λ col, column_loop (cells_at col (loc_index_of names name))
                           (f_of_nat 0, 0%nat)) data ≫=
              (λ accs, Some (zip_with
                 (append_mean (length (loc_index_of names name))) locs accs)) =
            mapM (λ col, location_mean names col name) data ≫=
              (λ bs, Some (zip_with (λ loc c, loc ++ c) locs bs))) as Heq.
    { rewrite (mapM_zip_with _ (append_mean _)) by done.
      rewrite (mapM_zip_with _ (λ loc c, loc ++ c)) by done.
      apply Forall_mapM_ext, Forall_forall. intros [col loc] Hin.
      apply elem_of_zip_l in Hin. cbn [fst snd].
      rewrite Forall_forall in Hcols. specialize (Hcols _ Hin).
      rewrite (loc_index_length names col name Hcols).
      rewrite (cells_at_loc_index names col name Hcols).
      apply append_mean_location_mean. }
    rewrite <- Heq. by destruct (mapM _ data).
  - eapply Forall_impl; [exact Hcols|]. intros col Hc.
    by apply (loc_index_in_range names col name).
  - by rewrite length_fmap.
Qed.

(** The loop over [j]: every decade gets the means of the locations, one
    location after the other. *)
Lemma locations_loop names data locs (unames : list string) :
  Forall (λ col, length col = length names) data →
  length locs = length data →
  for_each (location_step names data) unames locs =
    value_error
      (mapM (λ p, (λ cs, snd p ++ mjoin cs)
                    <$> mapM (location_mean names (fst p)) unames)
         (zip data locs)).
Proof.
  intros Hcols. revert locs.
  induction unames as [|name unames IH]; intros locs Hlen.
  - simpl. rewrite (mapM_ext _ (λ p : list string * list F, Some (snd p))).
    + by rewrite mapM_zip_id.
    + intros [col loc]. simpl. by rewrite app_nil_r.
  - simpl. rewrite location_step_spec by done.
    transitivity (value_error
      (mapM (λ p, ((λ c, snd p ++ c) <$> location_mean names (fst p) name)
               ≫= (λ loc', (λ cs, loc' ++ mjoin cs)
                             <$> mapM (location_mean names (fst p)) unames))
         (zip data locs))).
    + rewrite (mapM_zip_bind
                 (λ col loc, (λ c, loc ++ c) <$> location_mean names col name)
                 (λ col loc', (λ cs, loc' ++ mjoin cs)
                                <$> mapM (location_mean names col) unames))
        by done.
      destruct (mapM _ (zip data locs)) as [locs'|] eqn:E; simpl; [|done].
      apply IH.
      by apply (mapM_zip_length
                  (λ col loc, (λ c, loc ++ c) <$> location_mean names col name)
                  data locs).
    + f_equal. apply mapM_ext. intros [col loc]. cbn [fst snd].
      destruct (location_mean names col name) as [c|]; simpl; [|done].
      destruct (mapM (location_mean names col) unames) as [cs|]; simpl; [|done].
      by rewrite app_assoc.
Qed.
End OuterLoop.

(** ** [loc_average] *)

Section LocAverageCorrect.
Context {F : Type} `{PyFloat F}.
Implicit Types (regions : list (list (list string))) (m s e : Z)
  (region : list (list string)) (names : list string).

Lemma py_slice_Forall {A} (P : A → Prop) (l : list A) (a b : Z) :
  Forall P l → Forall P (py_slice l a b).
Proof. intros Hl. unfold py_slice. by apply Forall_take, Forall_drop. Qed.

Lemma mapM_zip_nil names (data : list (list string)) (locs : list (list F))
    (unames : list string) :
  Forall (λ loc, loc = []) locs → length locs = length data →
  mapM (λ p, (λ cs, snd p ++ mjoin cs)
               <$> mapM (location_mean names (fst p)) unames)
    (zip data locs) =
  mapM (λ col, mjoin <$> mapM (location_mean names col) unames) data.
Proof.
  intros Hnil. revert data.
  induction Hnil as [|loc locs -> _ IH]; intros [|col data] Hlen;
    simplify_eq/=; [done|].
  by rewrite IH by lia.
Qed.

(** The table of a region, as [loc_average] reads it: the column of the
    names and the decade columns [data_index_start:data_index_end]. *)
Lemma loc_average_unfold regions m s e region names others :
  py_getitem regions m = Ok region →
  zip_star region = names :: others →
  e - s = 4 ∨ e - s = 5 →
  length (py_slice (zip_star region) s e) = Z.to_nat (e - s) →
  loc_average regions m s e =
    for_each (location_step names (py_slice (zip_star region) s e))
      (loc_name_unique_of names)
      (replicate (Z.to_nat (e - s)) []).
Proof.
  intros Hreg Hcols Hcnt Hlen. unfold loc_average.
  rewrite Hreg. simpl. rewrite py_getitem_0, Hcols. simpl.
  unfold unpack. rewrite Hcols in Hlen.
  destruct Hcnt as [Hcnt|Hcnt]; rewrite Hcnt in *; simpl.
  - rewrite Hlen. simpl. done.
  - rewrite Hlen. simpl. done.
Qed.
End LocAverageCorrect.

(** What [loc_average] returns for four or five decade columns: the
    means of the locations, decade by decade, or a [ValueError] when a
    valid entry is no number. *)
Lemma loc_average_decades {F : Type} `{PyFloat F}
    (regions : list (list (list string))) (m s e : Z)
    (region : list (list string)) (names : list string)
    (others : list (list string)) :
  py_getitem regions m = Ok region →
  zip_star region = names :: others →
  e - s = 4 ∨ e - s = 5 →
  length (py_slice (zip_star region) s e) = Z.to_nat (e - s) →
  loc_average regions m s e =
    value_error (mapM (decade_means names) (py_slice (zip_star region) s e)).
Proof.
  intros Hreg Hcols Hcnt Hlen.
  rewrite (loc_average_unfold regions m s e region names others) by done.
  assert (Forall (λ col, length col = length names)
            (py_slice (zip_star region) s e)) as Hall.
  { apply py_slice_Forall.
    pose proof (zip_star_column_length region) as Hz.
    rewrite Hcols in Hz. apply Forall_cons in Hz as [Hn Hz].
    rewrite Hcols. constructor; [done|].
    eapply Forall_impl; [exact Hz|]. intros col Hc. congruence. }
  rewrite locations_loop; [|done|by rewrite length_replicate].
  rewrite mapM_zip_nil.
  - by rewrite loc_name_unique_first_occurrences.
  - apply Forall_replicate. done.
  - by rewrite length_replicate.
Qed.

(** ** The draws of the generator *)

Section Draws.
Context {G : Type} `{RandomState G} `{!RandintInRange G}.

Lemma draw_row_spec (n c : nat) (g : G) :
  (0 < n)%nat →
  length (fst (draw_row n c g)) = c ∧
  Forall (λ k, (k < n)%nat) (fst (draw_row n c g)).
Proof.
  intros Hn. revert g. induction c as [|c IH]; intros g; simpl.
  - split; [done|constructor].
  - pose proof (randint_lt n g Hn) as Hk.
    destruct (randint n g) as [k g1]. specialize (IH g1).
    destruct (draw_row n c g1) as [ks g2]. simpl in *.
    destruct IH as [IH1 IH2]. split; [by f_equal|by constructor].
Qed.

Lemma draw_matrix_spec (n r c : nat) (g : G) :
  (0 < n)%nat →
  length (fst (draw_matrix n r c g)) = r ∧
  Forall (λ row, length row = c ∧ Forall (λ k, (k < n)%nat) row)
    (fst (draw_matrix n r c g)).
Proof.
  intros Hn. revert g. induction r as [|r IH]; intros g; simpl.
  - split; [done|constructor].
  - pose proof (draw_row_spec n c g Hn) as Hrow.
    destruct (draw_row n c g) as [row g1]. specialize (IH g1).
    destruct (draw_matrix n r c g1) as [rows g2]. simpl in *.
    destruct IH as [IH1 IH2]. split; [by f_equal|by constructor].
Qed.
End Draws.

Section Choice.
Context {A : Type}.

Lemma comprehension_getitem (a : list A) (row : list nat) :
  Forall (λ k, (k < length a)%nat) row →
  comprehension (λ k, py_getitem a (Z.of_nat k)) row = Ok (take_at a row).
Proof.
  induction 1 as [|k row Hk _ IH]; [done|]. simpl.
  rewrite py_getitem_nat, IH. unfold take_at. simpl.
  by destruct (lookup_lt_is_Some_2 a k Hk) as [x ->].
Qed.

Lemma comprehension_rows (a : list A) (idx : list (list nat)) :
  Forall (Forall (λ k, (k < length a)%nat)) idx →
  comprehension (comprehension (λ k, py_getitem a (Z.of_nat k))) idx =
    Ok (take_at a <$> idx).
Proof.
  induction 1 as [|row idx Hrow _ IH]; [done|]. simpl.
  by rewrite comprehension_getitem, IH.
Qed.

Lemma take_at_length (a : list A) (row : list nat) :
  Forall (λ k, (k < length a)%nat) row → length (take_at a row) = length row.
Proof.
  induction 1 as [|k row Hk _ IH]; [done|]. unfold take_at in *. simpl.
  destruct (lookup_lt_is_Some_2 a k Hk) as [x ->]. simpl. by f_equal.
Qed.

Lemma take_at_fmap {B} (f : A → B) (a : list A) (row : list nat) :
  take_at (f <$> a) row = f <$> take_at a row.
Proof.
  unfold take_at. induction row as [|k row IH]; [done|].
  cbn [omap list_omap]. fold (omap (λ i, (f <$> a) !! i) row).
  fold (omap (λ i, a !! i) row). rewrite IH, list_lookup_fmap.
  by destruct (a !! k).
Qed.

Lemma take_at_elem_of (a : list A) (row : list nat) (x : A) :
  x ∈ take_at a row → x ∈ a.
Proof.
  unfold take_at. rewrite list_elem_of_omap. intros (k & _ & Hk).
  by eapply list_elem_of_lookup_2.
Qed.
End Choice.

(** ** [bstrap] *)

Section BstrapCorrect.
Context {F : Type} `{PyFloat F} {G : Type} `{RandomState G}
  `{!RandintInRange G}.
Implicit Types (d b : list F) (data bs : list (list F)) (g : G).

Lemma random_choice_spec (a : list F) (r c : nat) g :
  a ≠ [] →
  random_choice a r c g =
    (Ok (take_at a <$> fst (draw_matrix (length a) r c g)),
     snd (draw_matrix (length a) r c g)).
Proof.
  intros Ha. unfold random_choice.
  rewrite bool_decide_eq_false_2 by done. simpl.
  assert (0 < length a)%nat as Hn by (destruct a; [done|simpl; lia]).
  pose proof (draw_matrix_spec (length a) r c g Hn) as [_ Hidx].
  destruct (draw_matrix (length a) r c g) as [idx g']. simpl in *.
  rewrite comprehension_rows; [done|].
  eapply Forall_impl; [exact Hidx|]. by intros row [_ ?].
Qed.

Lemma numpy_mean_axis1_take (a : list F) (idx : list (list nat)) :
  a ≠ [] →
  Forall (λ row, length row = length a
                 ∧ Forall (λ k, (k < length a)%nat) row) idx →
  numpy_mean_axis1 (take_at a <$> idx) = (λ row, mean (take_at a row)) <$> idx.
Proof.
  intros Ha Hidx. unfold numpy_mean_axis1. rewrite <- list_fmap_compose.
  apply Forall_fmap_ext_1. eapply Forall_impl; [exact Hidx|].
  intros row [Hlen Hrow]. simpl.
  pose proof (take_at_length a row Hrow) as Ht.
  destruct (take_at a row) as [|x xs] eqn:E; [|done].
  destruct a; [done|]. simpl in *. lia.
Qed.

(** One decade: an empty sample gives an empty array, and a sample with
    members gives the means of [bs_iter] resamples of the scaled
    sample. *)
Lemma bstrap_decade_spec (bs_iter unit : nat) d g :
  ∃ b g', bstrap_decade bs_iter unit d g = (Ok b, g')
          ∧ bootstrapped G bs_iter (scaled unit d) b.
Proof.
  unfold bstrap_decade. destruct d as [|x d].
  { exists [], g. by rewrite bool_decide_eq_false_2 by (simpl; lia). }
  rewrite bool_decide_eq_true_2 by (simpl; lia).
  set (a := (λ x, f_div x (f_of_nat unit)) <$> (x :: d)).
  assert (a ≠ []) as Ha by done.
  rewrite (random_choice_spec a bs_iter (length a) g Ha).
  assert (0 < length a)%nat as Hn by (simpl; lia).
  pose proof (draw_matrix_spec (length a) bs_iter (length a) g Hn)
    as [Hlen Hidx].
  exists ((λ row, mean (take_at a row))
            <$> fst (draw_matrix (length a) bs_iter (length a) g)),
         (snd (draw_matrix (length a) bs_iter (length a) g)).
  split.
  - do 2 f_equal. simpl. f_equal. by apply numpy_mean_axis1_take.
  - change (scaled unit (x :: d)) with a.
    assert (∃ draws, drawn G (length a) bs_iter (length a) draws
                     ∧ bootstrap_of bs_iter a draws
                         ((λ row, mean (take_at a row))
                            <$> fst (draw_matrix (length a) bs_iter (length a) g)))
      as Hgoal.
    { exists (fst (draw_matrix (length a) bs_iter (length a) g)).
      split; [by exists g|by repeat split]. }
    exact Hgoal.
Qed.

Lemma bstrap_decades_spec (bs_iter unit : nat) data g :
  ∃ bs g', bstrap_decades bs_iter unit data g = (Ok bs, g')
           ∧ Forall2 (λ d b, bootstrapped G bs_iter (scaled unit d) b) data bs.
Proof.
  revert g. induction data as [|d data IH]; intros g.
  { exists [], g. split; [done|constructor]. }
  simpl. destruct (bstrap_decade_spec bs_iter unit d g) as (b & g1 & -> & Hb).
  destruct (IH g1) as (bs & g2 & -> & Hbs).
  exists (b :: bs), g2. split; [done|by constructor].
Qed.

(** The whole of [bstrap] for four or five samples. *)
Lemma bstrap_spec (bs_iter : nat) data g :
  length data = 4%nat ∨ length data = 5%nat →
  ∃ bs g', bstrap bs_iter data g = (Ok bs, g')
           ∧ Forall2 (λ d b, bootstrapped G bs_iter
                               (scaled (unit_of (length data)) d) b) data bs.
Proof.
  intros [Hlen|Hlen]; unfold bstrap, unit_of; rewrite Hlen; simpl.
  - rewrite <- Hlen, firstn_all.
    destruct (bstrap_decades_spec bs_iter 1 data g) as (bs & g' & -> & Hbs).
    by exists bs, g'.
  - destruct (bstrap_decades_spec bs_iter 1000 (take 4 data) g)
      as (bs & g1 & -> & Hbs).
    destruct (bstrap_decades_spec bs_iter 1000 (drop 4 data) g1)
      as (bs10 & g2 & -> & Hbs10).
    exists (bs ++ bs10), g2. split; [done|].
    rewrite <- (take_drop 4 data) at 1. by apply Forall2_app.
Qed.

Lemma bootstrapped_length (bs_iter : nat) d b :
  bootstrapped G bs_iter d b →
  length b = match d with [] => 0%nat | _ :: _ => bs_iter end.
Proof.
  destruct d as [|x d]; simpl.
  - by intros ->.
  - intros (draws & _ & Hlen & _ & ->). by rewrite length_fmap.
Qed.
End BstrapCorrect.

(** ** The exact arithmetic and the generator of the examples *)

#[global] Instance lcg_in_range : RandintInRange Lcg.state.
Proof.
  intros n g Hn. simpl.
  assert (N.of_nat n ≠ 0%N) as Hne by lia.
  pose proof (N.mod_upper_bound (g / 65536) (N.of_nat n) Hne). lia.
Qed.

Lemma exact_of_nat_S_nonzero (n : nat) :
  Qeq_bool (Q2Qc (inject_Z (Z.of_nat (S n)))) 0 = false.
Proof.
  apply not_true_iff_false. intros Heq. apply Qeq_bool_iff in Heq.
  simpl in Heq. rewrite Qred_correct in Heq.
  unfold Qeq, inject_Z in Heq. simpl in Heq. lia.
Qed.

Lemma exact_of_nat_S_neq (n : nat) :
  Q2Qc (inject_Z (Z.of_nat (S n))) ≠ 0%Qc.
Proof.
  intros Heq. pose proof (exact_of_nat_S_nonzero n) as Hb.
  rewrite Heq in Hb. done.
Qed.

Lemma exact_div_S (x : Qc) (n : nat) :
  Exact.div (Some x) (Exact.of_nat (S n)) =
    Some (x / Q2Qc (inject_Z (Z.of_nat (S n))))%Qc.
Proof.
  unfold Exact.div, Exact.of_nat, Exact.of_Z.
  by rewrite exact_of_nat_S_nonzero.
Qed.

#[global] Instance exact_unit_division : UnitDivision Exact.num.
Proof.
  intros [x|]; [|done]. cbn [f_div f_of_nat Exact.float].
  rewrite exact_div_S. f_equal. unfold Qcdiv.
  replace (/ Q2Qc (inject_Z (Z.of_nat 1)))%Qc with 1%Qc
    by (apply Qc_is_canon; reflexivity).
  apply Qcmult_1_r.
Qed.

#[global] Instance exact_arithmetic : ExactArithmetic Exact.num.
Proof.
  split; cbn [f_div f_of_nat f_add Exact.float].
  - intros [x|] [y|] n; try done.
    + cbn [Exact.add]. rewrite !exact_div_S. cbn [Exact.add]. f_equal. field.
      apply exact_of_nat_S_neq.
    + cbn [Exact.add]. by rewrite exact_div_S.
  - intros n. change (Exact.of_nat 0) with (Some 0%Qc).
    rewrite exact_div_S. f_equal. field. apply exact_of_nat_S_neq.
  - intros [x|] m n; [|done]. rewrite !exact_div_S. f_equal. field.
    split; apply exact_of_nat_S_neq.
Qed.

(** ** When [loc_average] returns *)

Section LocAverageReturns.
Context {F : Type} `{PyFloat F}.
Implicit Types (regions : list (list (list string))) (m s e : Z)
  (names col : list string) (data : list (list string)).

Lemma py_getitem_error {A} (l : list A) (i : Z) (err : exn) :
  py_getitem l i = Raise err → err = IndexError.
Proof.
  unfold py_getitem. z_cases; simpl; try congruence;
    destruct (l !! _); congruence.
Qed.

Lemma entries_elem_of names col name (x : string) :
  x ∈ entries names col name → x ∈ col.
Proof.
  unfold entries. rewrite list_elem_of_fmap. intros ([n y] & -> & Hin).
  apply list_elem_of_filter in Hin as [_ Hin]. by apply elem_of_zip_r in Hin.
Qed.

(** A decade whose cells with data are all numbers has its means. *)
Lemma decade_means_is_Some names col :
  Forall (λ x, blank x = false → is_Some (float_of_str (F:=F) x)) col →
  is_Some (decade_means (F:=F) names col).
Proof.
  intros Hcol. unfold decade_means.
  apply fmap_is_Some, mapM_is_Some, Forall_forall. intros name _. simpl.
  unfold location_mean.
  assert (is_Some (mapM (float_of_str (F:=F)) (valid_entries names col name)))
    as [vs ->]; [|by eexists].
  apply mapM_is_Some, Forall_forall. intros x Hx. simpl.
  apply list_elem_of_filter in Hx as [Hb Hx].
  apply entries_elem_of in Hx. rewrite Forall_forall in Hcol. by apply Hcol.
Qed.

(** With a wrong number of decades the call raises, whatever the table. *)
Lemma loc_average_bad_count regions m s e :
  e - s ≠ 4 → e - s ≠ 5 → is_ok (loc_average (F:=F) regions m s e) = false.
Proof.
  intros H4 H5. unfold loc_average.
  destruct (py_getitem regions m) as [region|]; simpl; [|done].
  destruct (py_getitem (zip_star region) 0) as [names|]; simpl; [|done].
  by z_cases.
Qed.

(** With four or five decades, the call returns as many lists, or fails
    on the table with an [IndexError] or a [ValueError]. *)
Lemma loc_average_good_count regions m s e :
  e - s = 4 ∨ e - s = 5 →
  match loc_average (F:=F) regions m s e with
  | Ok ds => length ds = Z.to_nat (e - s)
  | Raise err => err = IndexError ∨ err = ValueError
  end.
Proof.
  intros Hcnt.
  destruct (py_getitem regions m) as [region|err] eqn:Hreg.
  2: { unfold loc_average. rewrite Hreg. simpl. left.
       by apply py_getitem_error in Hreg. }
  destruct (zip_star region) as [|names others] eqn:Hcols.
  { unfold loc_average. rewrite Hreg. simpl. rewrite py_getitem_0, Hcols.
    simpl. by left. }
  destruct (decide (length (py_slice (zip_star region) s e) = Z.to_nat (e - s)))
    as [Hlen|Hlen].
  - rewrite (loc_average_decades regions m s e region names others) by done.
    destruct (mapM _ _) as [ds|] eqn:E; simpl; [|by right].
    apply length_mapM in E. congruence.
  - unfold loc_average. rewrite Hreg. simpl. rewrite py_getitem_0, Hcols.
    simpl. rewrite <- Hcols. unfold unpack.
    destruct Hcnt as [Hcnt|Hcnt]; rewrite Hcnt in *; simpl.
    + change (Z.to_nat 4) with 4%nat in Hlen.
      rewrite (proj2 (Nat.eqb_neq _ _) Hlen). simpl. by right.
    + change (Z.to_nat 5) with 5%nat in Hlen.
      rewrite (proj2 (Nat.eqb_neq _ _) Hlen). simpl. by right.
Qed.

(** A region with rows, a name column and the decade columns, whose cells
    with data are numbers, is averaged without an exception. *)
Lemma loc_average_returns regions m s e region names others :
  py_getitem regions m = Ok region →
  zip_star region = names :: others →
  e - s = 4 ∨ e - s = 5 →
  length (py_slice (zip_star region) s e) = Z.to_nat (e - s) →
  Forall (Forall (λ x, blank x = false → is_Some (float_of_str (F:=F) x)))
    (py_slice (zip_star region) s e) →
  ∃ ds, loc_average (F:=F) regions m s e = Ok ds
        ∧ length ds = Z.to_nat (e - s).
Proof.
  intros Hreg Hcols Hcnt Hlen Hnum.
  rewrite (loc_average_decades regions m s e region names others) by done.
  assert (is_Some (mapM (decade_means (F:=F) names)
                     (py_slice (zip_star region) s e))) as [ds Hds].
  { apply mapM_is_Some. eapply Forall_impl; [exact Hnum|].
    intros col Hcol. by apply decade_means_is_Some. }
  rewrite Hds. exists ds. split; [done|].
  apply length_mapM in Hds. congruence.
Qed.
End LocAverageReturns.

(** ** The scaling of [bstrap] *)

Section Scaling.
Context {F : Type} `{PyFloat F} {G : Type} `{RandomState G}.
Implicit Types (d b xs : list F).

Lemma scaled_1 `{!UnitDivision F} d : scaled 1 d = d.
Proof.
  unfold scaled. induction d as [|x d IH]; [done|].
  rewrite fmap_cons, IH. by rewrite f_div_1.
Qed.

Lemma foldl_add_scaled `{!ExactArithmetic F} (u : nat) (a : F) xs :
  foldl f_add (f_div a (f_of_nat (S u))) (scaled (S u) xs) =
    f_div (foldl f_add a xs) (f_of_nat (S u)).
Proof.
  revert a. induction xs as [|x xs IH]; intros a; [done|].
  unfold scaled in *. rewrite fmap_cons. simpl.
  by rewrite <- f_div_add, IH.
Qed.

(** Without rounding, the mean of the scaled values is the scaled mean. *)
Lemma mean_scaled `{!ExactArithmetic F} (u : nat) xs :
  xs ≠ [] →
  mean (scaled (S u) xs) = f_div (mean xs) (f_of_nat (S u)).
Proof.
  intros Hxs. unfold mean, f_sum.
  rewrite <- (f_div_0 u) at 1. rewrite foldl_add_scaled.
  unfold scaled. rewrite length_fmap.
  destruct xs as [|x xs]; [done|]. simpl length. apply f_div_div.
Qed.

End Scaling.

(** ** The draws of [bstrap], call by call *)

Section Calls.
Context {G : Type} `{RandomState G}.
Implicit Types (n c r j : nat) (g : G).

Lemma after_calls_S n j g :
  after_calls n (S j) g = after_calls n j (snd (randint n g)).
Proof.
  unfold after_calls.
  exact (Nat.iter_succ_r j (λ g', snd (randint n g')) g).
Qed.

Lemma after_calls_add n a b g :
  after_calls n (a + b) g = after_calls n b (after_calls n a g).
Proof.
  revert g. induction a as [|a IH]; intros g; [done|].
  change (S a + b)%nat with (S (a + b)). by rewrite !after_calls_S, IH.
Qed.

Lemma call_add n a j g : call n g (a + j) = call n (after_calls n a g) j.
Proof. unfold call. by rewrite after_calls_add. Qed.

Lemma draw_row_calls n c g :
  draw_row n c g = (call n g <$> seq 0 c, after_calls n c g).
Proof.
  revert g. induction c as [|c IH]; intros g; [done|].
  cbn [draw_row]. destruct (randint n g) as [k g1] eqn:E.
  rewrite IH, after_calls_S, E. cbn [seq fmap list_fmap snd]. f_equal.
  f_equal; [by unfold call; cbn; rewrite E|].
  rewrite <- fmap_S_seq, <- list_fmap_compose. apply list_fmap_ext.
  intros _ j _. cbn. change (S j) with (1 + j)%nat. rewrite call_add.
  do 2 f_equal. cbn. by rewrite E.
Qed.

Lemma draw_matrix_calls n r c g :
  draw_matrix n r c g
  = ((λ i, call n g <$> seq (i * c) c) <$> seq 0 r, after_calls n (r * c) g).
Proof.
  revert g. induction r as [|r IH]; intros g; [done|].
  cbn [draw_matrix]. rewrite draw_row_calls, IH.
  cbn [seq fmap list_fmap]. f_equal.
  - f_equal. rewrite <- fmap_S_seq, <- list_fmap_compose.
    apply list_fmap_ext. intros _ i _. cbn [compose].
    change (S i * c)%nat with (c + i * c)%nat.
    rewrite <- fmap_add_seq, <- list_fmap_compose. apply list_fmap_ext.
    intros _ j _. cbn [compose]. by rewrite call_add.
  - change (S r * c)%nat with (c + r * c)%nat. by rewrite after_calls_add.
Qed.

Lemma resample_length n g r : length (resample n g r) = n.
Proof. unfold resample. by rewrite length_fmap, length_seq. Qed.

Lemma resample_in_range `{!RandintInRange G} n g r :
  (0 < n)%nat → Forall (λ k, (k < n)%nat) (resample n g r).
Proof.
  intros Hn. unfold resample. apply Forall_fmap, Forall_forall.
  intros j _. by apply randint_lt.
Qed.
End Calls.

Section BstrapRuns.
Context {F : Type} `{PyFloat F} {G : Type} `{RandomState G}
  `{!RandintInRange G}.
Implicit Types (d b : list F) (data bs : list (list F)) (g : G).

Lemma resample_of_resample d g r :
  d ≠ [] → resample_of d (resample (length d) g r).
Proof.
  intros Hd. split; [apply resample_length|].
  apply resample_in_range. destruct d; [done|simpl; lia].
Qed.

(** One decade, its draws counted from the state it starts in. *)
Lemma bstrap_decade_run (bs_iter unit : nat) d g :
  bstrap_decade bs_iter unit d g
  = (Ok (resample_means bs_iter (scaled unit d) g),
     after_calls (length d) (bs_iter * length d) g).
Proof.
  unfold bstrap_decade. destruct d as [|x d].
  { rewrite bool_decide_eq_false_2 by (simpl; lia).
    by rewrite Nat.mul_0_r. }
  rewrite bool_decide_eq_true_2 by (simpl; lia).
  set (a := (λ x, f_div x (f_of_nat unit)) <$> (x :: d)).
  assert (a ≠ []) as Ha by done.
  assert (length a = length (x :: d)) as Hlen by apply length_fmap.
  rewrite (random_choice_spec a bs_iter (length a) g Ha).
  rewrite draw_matrix_calls. cbn [fst snd fmap result_fmap result_bind].
  rewrite numpy_mean_axis1_take; [|done|].
  - rewrite <- list_fmap_compose.
    replace (after_calls (length a) (bs_iter * length a) g)
      with (after_calls (length (x :: d)) (bs_iter * length (x :: d)) g)
      by (by rewrite Hlen).
    reflexivity.
  - apply Forall_fmap, Forall_forall. intros r _.
    apply (resample_of_resample a g r Ha).
Qed.

Lemma bstrap_decades_run (bs_iter unit : nat) data g :
  bstrap_decades bs_iter unit data g
  = (Ok (imap (λ i d, resample_means bs_iter (scaled unit d)
                        (sample_start bs_iter data i g)) data),
     sample_start bs_iter data (length data) g).
Proof.
  revert g. induction data as [|d data IH]; intros g; [done|].
  cbn [bstrap_decades]. rewrite bstrap_decade_run, IH. done.
Qed.

Lemma sample_start_take bs_iter data (k i : nat) g :
  (i ≤ k)%nat →
  sample_start bs_iter (take k data) i g = sample_start bs_iter data i g.
Proof.
  intros Hi. unfold sample_start. by rewrite take_take, Nat.min_l.
Qed.

Lemma sample_start_drop bs_iter data (k i : nat) g :
  (k ≤ length data)%nat →
  sample_start bs_iter (drop k data) i (sample_start bs_iter data k g)
  = sample_start bs_iter data (k + i) g.
Proof.
  intros Hk. unfold sample_start.
  rewrite <- foldl_app. f_equal.
  rewrite <- (take_drop k data) at 3.
  rewrite take_app_add'; [done|]. rewrite length_take. lia.
Qed.

(** The whole of [bstrap] for four or five samples: the arrays and the
    generator it leaves. *)
Lemma bstrap_run (bs_iter : nat) data g :
  length data = 4%nat ∨ length data = 5%nat →
  bstrap bs_iter data g
  = (Ok (imap (λ i d, resample_means bs_iter
                        (scaled (unit_of (length data)) d)
                        (sample_start bs_iter data i g)) data),
     sample_start bs_iter data (length data) g).
Proof.
  intros [Hlen|Hlen]; unfold bstrap, unit_of; rewrite Hlen; cbn [Nat.eqb].
  - rewrite <- Hlen, firstn_all. by rewrite bstrap_decades_run.
  - rewrite !bstrap_decades_run.
    assert (length (take 4 data) = 4%nat) as Htake
      by (rewrite length_take; lia).
    assert (length (drop 4 data) = 1%nat) as Hdrop
      by (rewrite length_drop; lia).
    rewrite Htake, Hdrop, sample_start_take by done.
    rewrite (sample_start_drop bs_iter data 4 1 g) by lia.
    set (f := λ (i : nat) d, resample_means bs_iter (scaled 1000 d)
                               (sample_start bs_iter data i g)).
    assert (imap f data
            = imap f (take 4 data) ++ imap (λ i, f (4 + i)%nat) (drop 4 data))
      as ->.
    { rewrite <- (take_drop 4 data) at 1. by rewrite imap_app, Htake. }
    do 3 f_equal.
    + apply imap_ext. intros i d Hi. unfold f.
      rewrite sample_start_take; [done|].
      apply lookup_lt_Some in Hi. lia.
    + apply imap_ext. intros i d _. unfold f.
      by rewrite sample_start_drop by lia.
Qed.
End BstrapRuns.

(** ** Counting the outcomes of a generator *)

Section Counting.
Local Open Scope nat_scope.
Context {A B : Type}.

Lemma count_bind (P : B → Prop) `{!∀ x, Decision (P x)} (f : A → list B)
    (l : list A) :
  length (filter P (l ≫= f))
  = sum_list ((λ x, length (filter P (f x))) <$> l).
Proof.
  induction l as [|x l IH]; [done|].
  change ((x :: l) ≫= f) with (f x ++ (l ≫= f)).
  cbn [fmap list_fmap sum_list sum_list_with].
  by rewrite filter_app, length_app, IH.
Qed.

Lemma count_fmap (P : B → Prop) `{!∀ x, Decision (P x)} (f : A → B)
    (l : list A) :
  length (filter P (f <$> l)) = length (filter (λ x, P (f x)) l).
Proof.
  induction l as [|x l IH]; [done|].
  cbn [fmap list_fmap]. rewrite !filter_cons.
  destruct (decide (P (f x))); simpl; by rewrite IH.
Qed.

Lemma count_ext (P Q : A → Prop) `{!∀ x, Decision (P x)}
    `{!∀ x, Decision (Q x)} (l : list A) :
  (∀ x, x ∈ l → P x ↔ Q x) → length (filter P l) = length (filter Q l).
Proof.
  induction l as [|x l IH]; intros HPQ; [done|].
  rewrite !filter_cons.
  assert (P x ↔ Q x) as Hx by (apply HPQ; left).
  assert (length (filter P l) = length (filter Q l)) as Hl.
  { apply IH. intros y Hy. apply HPQ. by right. }
  destruct (decide (P x)), (decide (Q x)); simpl; tauto || by rewrite Hl.
Qed.

Lemma count_all (P : A → Prop) `{!∀ x, Decision (P x)} (l : list A) :
  (∀ x, P x) → length (filter P l) = length l.
Proof.
  intros HP. induction l as [|x l IH]; [done|].
  rewrite filter_cons. destruct (decide (P x)) as [|Hx]; [|by destruct Hx].
  simpl. by rewrite IH.
Qed.

Lemma length_bind_const (f : A → list B) (m : nat) (l : list A) :
  (∀ x, length (f x) = m) → length (l ≫= f) = length l * m.
Proof.
  intros Hf. induction l as [|x l IH]; [done|].
  change ((x :: l) ≫= f) with (f x ++ (l ≫= f)).
  rewrite length_app, IH, Hf. simpl. lia.
Qed.

Lemma count_none (P : A → Prop) `{!∀ x, Decision (P x)} (l : list A) :
  (∀ x, ¬ P x) → length (filter P l) = 0.
Proof.
  intros HP. induction l as [|x l IH]; [done|].
  rewrite filter_cons. destruct (decide (P x)) as [Hx|]; [|done].
  by apply HP in Hx.
Qed.
End Counting.

Section Sums.
Local Open Scope nat_scope.

Lemma sum_list_const (m : nat) (l : list nat) :
  sum_list ((λ _, m) <$> l) = length l * m.
Proof.
  induction l as [|k l IH]; [done|].
  cbn [fmap list_fmap sum_list_with length]. rewrite IH. unfold id. lia.
Qed.

Lemma sum_list_single (m x s n : nat) :
  sum_list ((λ k, if decide (k = x) then m else 0) <$> seq s n)
  = if bool_decide (s ≤ x < s + n) then m else 0.
Proof.
  revert s. induction n as [|n IH]; intros s.
  { simpl. by rewrite bool_decide_false by lia. }
  cbn [seq fmap list_fmap sum_list_with]. rewrite IH. unfold id.
  destruct (decide (s = x)) as [->|Hne].
  - rewrite bool_decide_false by lia. rewrite bool_decide_true by lia. lia.
  - cbn [Nat.add].
    rewrite (bool_decide_ext (S s ≤ x < S (s + n)) (s ≤ x < s + S n)); [done|].
    lia.
Qed.
End Sums.

Section TapeOutcomes.
Local Open Scope nat_scope.
Implicit Types (t v : list nat) (n len a b r : nat).

#[global] Instance tape_in_range : RandintInRange Tape.state.
Proof.
  intros n [|k t] Hn; simpl; [done|]. apply Nat.mod_upper_bound. lia.
Qed.

Lemma tape_after_calls n j t : after_calls n j t = drop j t.
Proof.
  revert t. induction j as [|j IH]; intros t; [done|].
  rewrite after_calls_S, IH. destruct t as [|k t]; [|done].
  change (drop j (@nil nat) = drop (S j) []). by rewrite !drop_nil.
Qed.

Lemma tape_call n t j (k : nat) :
  t !! j = Some k → k < n → call n t j = k.
Proof.
  intros Hk Hn. unfold call. rewrite tape_after_calls.
  rewrite <- (take_drop_middle t j k Hk).
  assert (length (take j t) = j) as Hj.
  { apply length_take_le. apply lookup_lt_Some in Hk. lia. }
  rewrite drop_app_length'; [|done]. simpl. by apply Nat.mod_small.
Qed.

(** On a tape of outcomes below [n] a resample is a piece of the tape. *)
Lemma tape_resample n t r :
  Forall (λ k, k < n) t → r * n + n ≤ length t →
  resample n t r = take n (drop (r * n) t).
Proof.
  intros Ht Hlen. apply list_eq. intros i. unfold resample.
  rewrite list_lookup_fmap. destruct (decide (i < n)) as [Hi|Hi].
  - rewrite lookup_seq_lt by done. rewrite lookup_take_lt by done.
    rewrite lookup_drop.
    destruct (lookup_lt_is_Some_2 t (r * n + i)) as [k Hk]; [lia|].
    rewrite Hk. simpl. f_equal. apply tape_call; [done|].
    rewrite Forall_forall in Ht. apply Ht. by eapply list_elem_of_lookup_2.
  - rewrite lookup_seq_ge by lia. by rewrite lookup_take_ge by lia.
Qed.

Lemma outcomes_length n len : length (Tape.outcomes n len) = n ^ len.
Proof.
  induction len as [|len IH]; [done|]. cbn [Tape.outcomes].
  rewrite (length_bind_const _ (n ^ len)).
  - by rewrite length_seq, Nat.pow_succ_r'.
  - intros k. by rewrite length_fmap.
Qed.

Lemma outcomes_elem_of n len t :
  t ∈ Tape.outcomes n len → length t = len ∧ Forall (λ k, k < n) t.
Proof.
  revert t. induction len as [|len IH]; intros t; cbn [Tape.outcomes].
  - intros ->%list_elem_of_singleton. by split.
  - rewrite list_elem_of_bind. intros (k & Ht & Hk%elem_of_seq).
    apply list_elem_of_fmap in Ht as (t' & -> & Ht'%IH).
    destruct Ht' as [<- Ht']. split; [done|]. constructor; [lia|done].
Qed.

(** The sequences of outcomes that hold [v] after their first [a]
    members. *)
Lemma outcomes_piece n a b v :
  Forall (λ k, k < n) v →
  length (filter (λ t, take (length v) (drop a t) = v)
            (Tape.outcomes n (a + (length v + b))))
  = n ^ a * n ^ b.
Proof.
  intros Hv. induction a as [|a IHa].
  - cbn [Nat.add Nat.pow]. rewrite Nat.mul_1_l.
    induction Hv as [|x v Hx _ IHv].
    + cbn [length Nat.add]. rewrite count_all by done.
      apply outcomes_length.
    + cbn [length Nat.add Tape.outcomes]. rewrite count_bind.
      rewrite (list_fmap_ext _ (λ k, if decide (k = x) then n ^ b else 0)
                 (seq 0 n)).
      * rewrite sum_list_single. by rewrite bool_decide_true by lia.
      * intros _ k _. rewrite count_fmap. destruct (decide (k = x)) as [->|Hk].
        -- etrans; [|exact IHv]. apply count_ext. intros t _.
           change (drop 0 (x :: t)) with (x :: t).
           change (drop 0 t) with t. cbn [length take].
           split; [by intros [= ?]|by intros ->].
        -- apply count_none. intros t. cbn [length drop take].
           by intros [= ? _].
  - cbn [Nat.add Tape.outcomes]. rewrite count_bind.
    rewrite (list_fmap_ext _ (λ _, n ^ a * n ^ b) (seq 0 n)).
    + rewrite sum_list_const, length_seq, Nat.pow_succ_r'. lia.
    + intros _ k _. rewrite count_fmap. exact IHa.
Qed.

(** Every resample is as likely as any other: among the [n ^ (rs * n)]
    sequences of outcomes for [rs] resamples, those that give [v] as the
    resample [r] are one in [n ^ n]. *)
Lemma resample_uniform n rs r v :
  0 < n → r < rs → length v = n → Forall (λ k, k < n) v →
  length (filter (λ t, resample n t r = v) (Tape.outcomes n (rs * n)))
    * n ^ n
  = length (Tape.outcomes n (rs * n)).
Proof.
  intros Hn Hr Hlen Hv.
  assert (rs * n = r * n + (length v + (rs - r - 1) * n)) as Hsplit by nia.
  rewrite (count_ext _ (λ t, take (length v) (drop (r * n) t) = v)).
  - rewrite outcomes_length. rewrite Hsplit at 1.
    rewrite outcomes_piece by done.
    rewrite Hsplit. rewrite !Nat.pow_add_r, Hlen. lia.
  - intros t [Ht1 Ht2]%outcomes_elem_of.
    rewrite tape_resample, Hlen; [done|done|nia].
Qed.
End TapeOutcomes.

Section RawMeans.
Context {F : Type} `{PyFloat F} {G : Type} `{RandomState G}
  `{!RandintInRange G}.
Implicit Types (d : list F) (g : G).

Lemma scaled_length (u : nat) d : length (scaled u d) = length d.
Proof. apply length_fmap. Qed.

(** Without rounding, the means of the scaled resamples are the scaled
    means of the raw resamples. *)
Lemma resample_means_raw `{!ExactArithmetic F} (u bs_iter : nat) d g :
  resample_means bs_iter (scaled (S u) d) g
  = raw_resample_means (S u) bs_iter d g.
Proof.
  destruct d as [|x d]; [done|].
  unfold resample_means, raw_resample_means.
  change (scaled (S u) (x :: d))
    with (f_div x (f_of_nat (S u)) :: scaled (S u) d).
  change (f_div x (f_of_nat (S u)) :: scaled (S u) d)
    with (scaled (S u) (x :: d)).
  rewrite scaled_length. apply list_fmap_ext. intros _ r _.
  unfold scaled at 1. rewrite take_at_fmap.
  apply (mean_scaled u (take_at (x :: d) (resample (length (x :: d)) g r))).
  intros Hnil. apply (f_equal length) in Hnil.
  destruct (resample_of_resample (x :: d) g r) as [Hlen Hrow]; [done|].
  rewrite take_at_length in Hnil by done. rewrite Hlen in Hnil. done.
Qed.
End RawMeans.


(** * The claims *)

(** C1. A call [bstrap(bs_iter, d1, ..., dk)] with [k] equal to 4 or 5
    returns one array per sample. The array of an empty sample is empty.
    The array of a sample with [N] members has [bs_iter] entries, and entry
    [r] is the arithmetic mean of the [N] members of the unit-scaled sample
    at the indices of resample [r]: the outcomes of [N] calls of the
    generator for an index below [N], calls that no other index of the run
    shares. So the draws are with replacement, and they are as uniform and
    as independent as the calls of the generator: when every sequence of
    outcomes is as likely as any other, every list of [N] indices below [N]
    is resample [r] for one sequence in [N ^ N]. *)
Theorem bstrap_bootstrap_means {F : Type} `{PyFloat F} {G : Type}
    `{RandomState G} `{!RandintInRange G}
    (bs_iter : nat) (data : list (list F)) (g : G) :
  length data = 4%nat ∨ length data = 5%nat →
  ∃ bs, fst (bstrap bs_iter data g) = Ok bs
    ∧ bs = imap (λ i d, resample_means bs_iter
                          (scaled (unit_of (length data)) d)
                          (sample_start bs_iter data i g)) data
    ∧ Forall2 (λ d b, length b = match d with
                                 | [] => 0%nat
                                 | _ :: _ => bs_iter
                                 end) data bs
    ∧ (∀ (i : nat) d (r : nat),
         data !! i = Some d → d ≠ [] →
         resample_of d
           (resample (length d) (sample_start bs_iter data i g) r))
    ∧ (∀ d (r : nat) (v : list nat),
         d ∈ data → d ≠ [] → (r < bs_iter)%nat →
         (length (filter (λ t, resample (length d) t r = v)
                    (Tape.outcomes (length d) (bs_iter * length d)))
          * length d ^ length d)%nat
         = if bool_decide (resample_of d v)
           then length (Tape.outcomes (length d) (bs_iter * length d))
           else 0%nat).
Proof.
  intros Hk. eexists. split; [by rewrite bstrap_run|]. split; [done|].
  split; [|split].
  - apply Forall2_same_length_lookup_2; [by rewrite length_imap|].
    intros i d b Hd. rewrite list_lookup_imap, Hd. intros [= <-].
    destruct d as [|x d]; [done|].
    unfold resample_means, scaled. cbn [fmap list_fmap].
    by rewrite length_fmap, length_seq.
  - intros i d r _ Hd. by apply resample_of_resample.
  - intros d r v _ Hd Hr. case_bool_decide as Hv.
    + destruct Hv as [Hlen Hv]. apply resample_uniform; [|done..].
      destruct d; [done|simpl; lia].
    + rewrite count_none; [done|]. intros t Ht. apply Hv. rewrite <- Ht.
      by apply resample_of_resample.
Qed.

Lemma bstrap_bootstrap_means_witness :
  ∃ bs, fst (bstrap 3 Sample.densities Sample.seed) = Ok bs
    ∧ bs = imap (λ i d, resample_means 3
                          (scaled (unit_of (length Sample.densities)) d)
                          (sample_start 3 Sample.densities i Sample.seed))
             Sample.densities
    ∧ Forall2 (λ d b, length b = match d with
                                 | [] => 0%nat
                                 | _ :: _ => 3%nat
                                 end) Sample.densities bs
    ∧ (∀ (i : nat) d (r : nat),
         Sample.densities !! i = Some d → d ≠ [] →
         resample_of d
           (resample (length d) (sample_start 3 Sample.densities i Sample.seed)
              r))
    ∧ (∀ d (r : nat) (v : list nat),
         d ∈ Sample.densities → d ≠ [] → (r < 3)%nat →
         (length (filter (λ t, resample (length d) t r = v)
                    (Tape.outcomes (length d) (3 * length d)))
          * length d ^ length d)%nat
         = if bool_decide (resample_of d v)
           then length (Tape.outcomes (length d) (3 * length d))
           else 0%nat).
Proof.
  apply (bstrap_bootstrap_means 3 Sample.densities Sample.seed).
  right. reflexivity.
Defined.

(** The resamples of a sample of two members, one by one: of the sixteen
    sequences of outcomes for two resamples, four give a member twice as
    the second resample. *)
Example resample_of_two :
  Tape.outcomes 2 2 = [[0; 0]; [0; 1]; [1; 0]; [1; 1]]%nat
  ∧ resample 2 ([1; 0; 0; 1]%nat : Tape.state) <$> [0; 1]%nat
    = [[1; 0]; [0; 1]]%nat
  ∧ length (filter (λ t, resample 2 t 1 = [1; 1]%nat) (Tape.outcomes 2 4))
    = 4%nat.
Proof. repeat split. Qed.

(** C2. A call [loc_average(regions, m, s, e)] with [e - s] equal to 4 or 5
    on a region that has the columns [s:e] returns, for each of these decade
    columns, the list that holds, for each location name in order of first
    occurrence with a valid (non-blank) entry in the column, the arithmetic
    mean of [float(x)] over the valid entries [x] of that location; the call
    ends in a [ValueError] exactly when a valid entry is no number. The
    names are the first cells of the rows of the region, and every decade
    column holds the cells of the rows at one position. *)
Theorem loc_average_location_means {F : Type} `{PyFloat F}
    (regions : list (list (list string))) (m s e : Z)
    (region : list (list string)) (names : list string)
    (others : list (list string)) :
  py_getitem regions m = Ok region →
  zip_star region = names :: others →
  e - s = 4 ∨ e - s = 5 →
  length (py_slice (zip_star region) s e) = Z.to_nat (e - s) →
  loc_average regions m s e =
    value_error (mapM (decade_means names) (py_slice (zip_star region) s e))
  ∧ Forall2 (λ row name, row !! 0%nat = Some name) region names
  ∧ Forall (λ col, ∃ c : nat, Forall2 (λ row x, row !! c = Some x) region col)
      (py_slice (zip_star region) s e).
Proof.
  intros Hreg Hcols Hcnt Hlen. split; [|split].
  - by apply (loc_average_decades regions m s e region names others).
  - apply zip_star_column. by rewrite Hcols.
  - apply py_slice_Forall, Forall_forall. intros col Hcol.
    apply list_elem_of_lookup in Hcol as [c Hc]. exists c.
    by apply zip_star_column.
Qed.

Lemma loc_average_location_means_witness :
  loc_average (F:=Exact.num) Sample.regions 3 18 22 =
    value_error
      (mapM (decade_means ["Lagos"; "Cairo"; "Lagos"; "Kano"])
         (py_slice (zip_star Sample.africa) 18 22))
  ∧ Forall2 (λ row name, row !! 0%nat = Some name) Sample.africa
      ["Lagos"; "Cairo"; "Lagos"; "Kano"]
  ∧ Forall (λ col, ∃ c : nat,
              Forall2 (λ row x, row !! c = Some x) Sample.africa col)
      (py_slice (zip_star Sample.africa) 18 22).
Proof.
  apply (loc_average_location_means Sample.regions 3 18 22 Sample.africa
           ["Lagos"; "Cairo"; "Lagos"; "Kano"]
           (tail (zip_star Sample.africa)));
    [reflexivity | reflexivity | by left | reflexivity].
Defined.

(** C4, as amended. [bstrap] raises when the number of samples is neither 4
    nor 5, and [loc_average] raises when [data_index_end - data_index_start]
    is neither 4 nor 5. For 4 and 5 the branch of the wrong number is never
    taken: [bstrap] returns exactly that many arrays; [loc_average] returns
    exactly that many lists, or fails on the table with an [IndexError] or a
    [ValueError]; it returns for a region with rows, a name column and the
    decade columns whose cells with data are numbers. *)
Theorem decade_count_dispatch {F : Type} `{PyFloat F} {G : Type}
    `{RandomState G} `{!RandintInRange G} :
  (∀ (bs_iter : nat) (data : list (list F)) (g : G),
     length data ≠ 4%nat → length data ≠ 5%nat →
     fst (bstrap bs_iter data g) =
       Raise (PyException "Number of Decades should be 4 or 5"))
  ∧ (∀ (bs_iter : nat) (data : list (list F)) (g : G),
       length data = 4%nat ∨ length data = 5%nat →
       ∃ bs, fst (bstrap bs_iter data g) = Ok bs ∧ length bs = length data)
  ∧ (∀ (regions : list (list (list string))) (m s e : Z),
       e - s ≠ 4 → e - s ≠ 5 →
       is_ok (loc_average (F:=F) regions m s e) = false)
  ∧ (∀ (regions : list (list (list string))) (m s e : Z),
       e - s = 4 ∨ e - s = 5 →
       match loc_average (F:=F) regions m s e with
       | Ok ds => length ds = Z.to_nat (e - s)
       | Raise err => err = IndexError ∨ err = ValueError
       end)
  ∧ (∀ (regions : list (list (list string))) (m s e : Z)
       (region : list (list string)) (names : list string)
       (others : list (list string)),
       py_getitem regions m = Ok region →
       zip_star region = names :: others →
       e - s = 4 ∨ e - s = 5 →
       length (py_slice (zip_star region) s e) = Z.to_nat (e - s) →
       Forall (Forall (λ x, blank x = false → is_Some (float_of_str (F:=F) x)))
         (py_slice (zip_star region) s e) →
       ∃ ds, loc_average (F:=F) regions m s e = Ok ds
             ∧ length ds = Z.to_nat (e - s)).
Proof.
  repeat split.
  - intros bs_iter data g H4 H5. unfold bstrap.
    rewrite (proj2 (Nat.eqb_neq _ _) H4), (proj2 (Nat.eqb_neq _ _) H5). done.
  - intros bs_iter data g Hk.
    destruct (bstrap_spec bs_iter data g Hk) as (bs & g' & Hrun & Hbs).
    exists bs. rewrite Hrun. split; [done|].
    symmetry. by eapply Forall2_length.
  - apply loc_average_bad_count.
  - apply loc_average_good_count.
  - apply loc_average_returns.
Qed.

Lemma decade_count_dispatch_witness :
  (∃ bs, fst (bstrap 3 Sample.densities Sample.seed) = Ok bs
         ∧ length bs = 5%nat)
  ∧ is_ok (loc_average (F:=Exact.num) Sample.regions 3 18 24) = false.
Proof.
  destruct (decade_count_dispatch (F:=Exact.num) (G:=Lcg.state))
    as (_ & Hb & Hl & _).
  split.
  - apply (Hb 3%nat Sample.densities Sample.seed). right. reflexivity.
  - apply (Hl Sample.regions 3 18 24); lia.
Defined.

(** C4, as stated, fails: with four decades asked for, a region without
    rows makes [loc_average] raise an [IndexError] and return no tuple. *)
Lemma loc_average_empty_region_raises :
  ¬ (∀ (regions : list (list (list string))) (m s e : Z),
       e - s = 4 ∨ e - s = 5 →
       ∃ ds, loc_average (F:=Exact.num) regions m s e = Ok ds
             ∧ length ds = Z.to_nat (e - s)).
Proof.
  intros Hclaim.
  destruct (Hclaim [[]] 0 9 13) as (ds & Hds & _); [by left|].
  discriminate Hds.
Qed.

(** C10, as amended. With five samples every value of every sample, the
    fifth included, is divided by 1000 before it is resampled, so that
    every bootstrap mean is the mean of the drawn values over 1000 each;
    this is the mean of the drawn raw values over 1000 in an arithmetic
    without rounding. With four samples the values are divided by [1] only,
    which leaves them as they are. *)
Theorem bstrap_scaling {F : Type} `{PyFloat F} {G : Type} `{RandomState G}
    `{!RandintInRange G} (bs_iter : nat) (data : list (list F)) (g : G) :
  (length data = 5%nat →
   fst (bstrap bs_iter data g)
   = Ok (imap (λ i d, resample_means bs_iter
                        ((λ x, f_div x (f_of_nat 1000)) <$> d)
                        (sample_start bs_iter data i g)) data)
   ∧ (ExactArithmetic F →
      fst (bstrap bs_iter data g)
      = Ok (imap (λ i d, raw_resample_means 1000 bs_iter d
                           (sample_start bs_iter data i g)) data)))
  ∧ (length data = 4%nat →
     fst (bstrap bs_iter data g)
     = Ok (imap (λ i d, resample_means bs_iter
                          ((λ x, f_div x (f_of_nat 1)) <$> d)
                          (sample_start bs_iter data i g)) data)
     ∧ (UnitDivision F →
        fst (bstrap bs_iter data g)
        = Ok (imap (λ i d, resample_means bs_iter d
                             (sample_start bs_iter data i g)) data))).
Proof.
  split; intros Hk.
  - rewrite bstrap_run by (by right). rewrite Hk.
    change (unit_of 5) with 1000%nat. split; [done|].
    intros Hexact. cbn [fst]. f_equal.
    apply imap_ext. intros i d _. apply resample_means_raw.
  - rewrite bstrap_run by (by left). rewrite Hk.
    change (unit_of 4) with 1%nat. split; [done|].
    intros Hunit. cbn [fst]. f_equal.
    apply imap_ext. intros i d _. cbv beta. by rewrite scaled_1.
Qed.

Lemma bstrap_scaling_witness :
  fst (bstrap 3 Sample.densities Sample.seed)
  = Ok (imap (λ i d, resample_means 3
                       ((λ x, f_div x (f_of_nat 1000)) <$> d)
                       (sample_start 3 Sample.densities i Sample.seed))
          Sample.densities)
  ∧ fst (bstrap 3 Sample.densities Sample.seed)
    = Ok (imap (λ i d, raw_resample_means 1000 3 d
                         (sample_start 3 Sample.densities i Sample.seed))
            Sample.densities).
Proof.
  destruct (bstrap_scaling 3 Sample.densities Sample.seed) as [H5 _].
  destruct H5 as [Hrun Hraw]; [reflexivity|].
  split; [exact Hrun|]. apply Hraw. exact exact_arithmetic.
Defined.

(** C10, as stated, fails for the floats of the program: the mean of
    [7.0 / 1000] and [4800.0 / 1000] is [5412200852192493 * 2 ^ -51], which
    Python prints as [2.4034999999999997], and the mean of [7.0] and
    [4800.0] over 1000 is [5412200852192494 * 2 ^ -51], printed as
    [2.4035000000000002]. *)
Lemma bstrap_scaling_rounds :
  ¬ (∀ (bs_iter : nat) (data : list (list Binary64.num)) (g : Tape.state),
       length data = 5%nat →
       fst (bstrap bs_iter data g)
       = Ok (imap (λ i d, raw_resample_means 1000 bs_iter d
                            (sample_start bs_iter data i g)) data)).
Proof.
  intros Hclaim.
  specialize (Hclaim 1%nat
                [[Binary64.of_Z 7; Binary64.of_Z 4800]; []; []; []; []]
                [0; 1]%nat eq_refl).
  vm_compute in Hclaim. discriminate Hclaim.
Qed.

(** The two means, and the bootstrap of the same sample without
    rounding. *)
Example scaled_mean_rounds :
  mean (scaled 1000 [Binary64.of_Z 7; Binary64.of_Z 4800])
  = S754_finite false 5412200852192493 (-51)
  ∧ f_div (mean [Binary64.of_Z 7; Binary64.of_Z 4800]) (f_of_nat 1000)
    = S754_finite false 5412200852192494 (-51)
  ∧ Exact.view (mean (scaled 1000 [Exact.of_Z 7; Exact.of_Z 4800]))
    = Some (4807 # 2000)%Q
  ∧ Exact.view (f_div (mean [Exact.of_Z 7; Exact.of_Z 4800]) (f_of_nat 1000))
    = Some (4807 # 2000)%Q.
Proof. repeat split; vm_compute; reflexivity. Qed.

(** ** Groups and cohorts *)

Section Groups.
Context {X : Type}.

Lemma comprehension_if_filter (cond : X → result bool) (P : X → Prop)
    `{!∀ x, Decision (P x)} (xs : list X) :
  Forall (λ x, cond x = Ok (bool_decide (P x))) xs →
  comprehension_if cond xs = Ok (filter P xs).
Proof.
  induction 1 as [|x xs Hx _ IH]; [done|]. simpl. rewrite Hx, IH. simpl.
  rewrite filter_cons. by case_bool_decide; case_decide.
Qed.

Lemma for_each_append {Y} (f : X → result Y) (xs : list X) (acc : list Y) :
  for_each (λ acc x, y ← f x; Ok (acc ++ [y])) xs acc =
    ys ← comprehension f xs; Ok (acc ++ ys).
Proof.
  revert acc. induction xs as [|x xs IH]; intros acc; simpl.
  - by rewrite app_nil_r.
  - destruct (f x) as [y|err]; simpl; [|done]. rewrite IH.
    destruct (comprehension f xs) as [ys|err]; simpl; [|done].
    by rewrite <- app_assoc.
Qed.

Lemma comprehension_Ok {Y} (f : X → result Y) (h : X → Y) (xs : list X) :
  Forall (λ x, f x = Ok (h x)) xs → comprehension f xs = Ok (h <$> xs).
Proof.
  induction 1 as [|x xs Hx _ IH]; [done|]. simpl. by rewrite Hx, IH.
Qed.
End Groups.

(** The groups of the script: for every keyword the rows with that keyword
    in the third field, in the order of the input. *)
Lemma regions_of_filter (data_items : list (list string)) :
  Forall (λ row, (2 < length row)%nat) data_items →
  regions_of data_items =
    Ok ((λ keyword, filter (λ row, row !! 2%nat = Some keyword) data_items)
          <$> region_unique).
Proof.
  intros Hrows. unfold regions_of.
  rewrite (for_each_append
             (λ region, comprehension_if
                (λ data_line, field ← py_getitem data_line 2;
                              Ok (String.eqb field region)) data_items)).
  rewrite (comprehension_Ok _
             (λ keyword, filter (λ row, row !! 2%nat = Some keyword) data_items)).
  { done. }
  apply Forall_forall. intros keyword _.
  apply comprehension_if_filter.
  eapply Forall_impl; [exact Hrows|]. intros row Hlen. simpl.
  change 2 with (Z.of_nat 2). rewrite py_getitem_nat.
  destruct (lookup_lt_is_Some_2 row 2 Hlen) as [field ->]. simpl. f_equal.
  destruct (String.eqb_spec field keyword) as [->|Hne].
  - by rewrite bool_decide_eq_true_2.
  - rewrite bool_decide_eq_false_2; [done|]. congruence.
Qed.

(** C7. Every row with a third field is put in the group of the keyword
    that is equal to this field: the group of a keyword holds the rows with
    that keyword in input order, a row is in the group of a keyword exactly
    when its third field is the keyword, so a row whose field is none of the
    ten keywords is in no group, and the ten keywords differ from each
    other. *)
Theorem regions_by_keyword (data_items : list (list string)) :
  Forall (λ row, (2 < length row)%nat) data_items →
  ∃ regions, regions_of data_items = Ok regions
    ∧ Forall2 (λ keyword group,
                 group = filter (λ row, row !! 2%nat = Some keyword) data_items)
        region_unique regions
    ∧ NoDup region_unique
    ∧ (∀ (row : list string) (i : nat) (group : list (list string)),
         row ∈ data_items → regions !! i = Some group →
         (row ∈ group ↔ region_unique !! i = row !! 2%nat)).
Proof.
  intros Hrows. rewrite (regions_of_filter data_items Hrows).
  eexists. split; [done|]. split; [|split].
  - apply Forall2_fmap_r, Forall_Forall2_diag, Forall_true. done.
  - apply NoDup_ListNoDup. repeat constructor; simpl; intuition discriminate.
  - intros row i group Hrow Hgroup.
    rewrite list_lookup_fmap in Hgroup.
    destruct (region_unique !! i) as [keyword|] eqn:Hkw; [|done].
    simpl in Hgroup. injection Hgroup as <-.
    rewrite list_elem_of_filter. split.
    + by intros [-> _].
    + by intros ->.
Qed.

Lemma regions_by_keyword_witness :
  ∃ regions, regions_of Sample.data_items = Ok regions
    ∧ Forall2 (λ keyword group,
                 group = filter (λ row, row !! 2%nat = Some keyword)
                           Sample.data_items)
        region_unique regions
    ∧ NoDup region_unique
    ∧ (∀ (row : list string) (i : nat) (group : list (list string)),
         row ∈ Sample.data_items → regions !! i = Some group →
         (row ∈ group ↔ region_unique !! i = row !! 2%nat)).
Proof.
  apply (regions_by_keyword Sample.data_items).
  repeat constructor; simpl; lia.
Defined.

Section CohortsCorrect.
Context {F : Type} `{PyFloat F} `{!FloatOrder F}.
Implicit Types (x : list string) (region : list (list string)).

#[global] Instance above_threshold_dec x : Decision (above_threshold (F:=F) x).
Proof.
  unfold above_threshold, population_2010.
  destruct (x !! 8%nat) as [field|] eqn:Hx.
  2: { right. intros (v & (f & Hf & _) & _). congruence. }
  destruct (float_of_str (F:=F) field) as [v|] eqn:Hv.
  2: { right. intros (v & (f & Hf & Hp & _) & _). congruence. }
  destruct (f_isnan v) eqn:Hn.
  { right. intros (v' & (f & Hf & Hp & Hn') & _). congruence. }
  destruct (f_gt v (f_of_nat 2000)) eqn:Hgt.
  - left. exists v. split; [by exists field|done].
  - right. intros (v' & (f & Hf & Hp & Hn') & Hgt'). congruence.
Defined.

#[global] Instance below_threshold_dec x : Decision (below_threshold (F:=F) x).
Proof.
  unfold below_threshold, population_2010.
  destruct (x !! 8%nat) as [field|] eqn:Hx.
  2: { right. intros (v & (f & Hf & _) & _). congruence. }
  destruct (float_of_str (F:=F) field) as [v|] eqn:Hv.
  2: { right. intros (v & (f & Hf & Hp & _) & _). congruence. }
  destruct (f_isnan v) eqn:Hn.
  { right. intros (v' & (f & Hf & Hp & Hn') & _). congruence. }
  destruct (f_le v (f_of_nat 2000)) eqn:Hle.
  - left. exists v. split; [by exists field|done].
  - right. intros (v' & (f & Hf & Hp & Hn') & Hle'). congruence.
Defined.

(** A row with a 2010 population is above the threshold or below it, and
    not both. *)
Lemma above_xor_below x (v : F) :
  population_2010 x v → (above_threshold (F:=F) x ↔ ¬ below_threshold (F:=F) x).
Proof.
  intros (field & Hf & Hp & Hn).
  assert (f_le v (f_of_nat 2000) = negb (f_gt v (f_of_nat 2000))) as Hle.
  { apply f_le_not_gt; [done|apply f_of_nat_number]. }
  split.
  - intros (v1 & (f1 & Hf1 & Hp1 & _) & Hgt) (v2 & (f2 & Hf2 & Hp2 & _) & Hle2).
    simplify_eq. rewrite Hle, Hgt in Hle2. done.
  - intros Hnot. exists v. split; [by exists field|].
    destruct (f_gt v (f_of_nat 2000)) eqn:Hgt; [done|]. exfalso. apply Hnot.
    exists v. split; [by exists field|]. by rewrite Hle.
Qed.

Lemma above_test x (v : F) :
  population_2010 x v →
  (field ← py_getitem x 8; v ← py_float field; Ok (f_gt v (f_of_nat 2000))) =
    Ok (bool_decide (above_threshold (F:=F) x)).
Proof.
  intros (field & Hf & Hp & Hn).
  change 8 with (Z.of_nat 8). rewrite py_getitem_nat, Hf. simpl.
  unfold py_float. rewrite Hp. simpl. f_equal.
  destruct (f_gt v (f_of_nat 2000)) eqn:Hgt.
  - symmetry. apply bool_decide_eq_true_2.
    exists v. split; [by exists field|done].
  - symmetry. apply bool_decide_eq_false_2.
    intros (v' & (f & Hf' & Hp' & _) & Hgt'). congruence.
Qed.

Lemma below_test x (v : F) :
  population_2010 x v →
  (field ← py_getitem x 8; v ← py_float field; Ok (f_le v (f_of_nat 2000))) =
    Ok (bool_decide (below_threshold (F:=F) x)).
Proof.
  intros (field & Hf & Hp & Hn).
  change 8 with (Z.of_nat 8). rewrite py_getitem_nat, Hf. simpl.
  unfold py_float. rewrite Hp. simpl. f_equal.
  destruct (f_le v (f_of_nat 2000)) eqn:Hle.
  - symmetry. apply bool_decide_eq_true_2.
    exists v. split; [by exists field|done].
  - symmetry. apply bool_decide_eq_false_2.
    intros (v' & (f & Hf' & Hp' & _) & Hle'). congruence.
Qed.

(** The two cohorts of the script are the rows above and the rows below
    the threshold, region by region and in the order of the region. *)
Lemma cohorts_filter (allregions : list (list (list string))) :
  Forall (Forall (λ x, ∃ v : F, population_2010 x v)) allregions →
  aboveregions_of (F:=F) allregions =
    Ok (filter (above_threshold (F:=F)) <$> allregions)
  ∧ belowregions_of (F:=F) allregions =
      Ok (filter (below_threshold (F:=F)) <$> allregions).
Proof.
  intros Hall. split.
  - unfold aboveregions_of. apply comprehension_Ok.
    eapply Forall_impl; [exact Hall|]. intros region Hregion.
    apply comprehension_if_filter.
    eapply Forall_impl; [exact Hregion|]. intros x [v Hv]. simpl.
    by apply (above_test x v).
  - unfold belowregions_of. apply comprehension_Ok.
    eapply Forall_impl; [exact Hall|]. intros region Hregion.
    apply comprehension_if_filter.
    eapply Forall_impl; [exact Hregion|]. intros x [v Hv]. simpl.
    by apply (below_test x v).
Qed.

Lemma cohorts_partition_region region :
  Forall (λ x, ∃ v : F, population_2010 x v) region →
  (∀ x, ¬ (x ∈ filter (above_threshold (F:=F)) region
           ∧ x ∈ filter (below_threshold (F:=F)) region))
  ∧ (∀ x, x ∈ region ↔ x ∈ filter (above_threshold (F:=F)) region
                         ∨ x ∈ filter (below_threshold (F:=F)) region)
  ∧ region ≡ₚ filter (above_threshold (F:=F)) region
              ++ filter (below_threshold (F:=F)) region.
Proof.
  intros Hregion. rewrite Forall_forall in Hregion. split; [|split].
  - intros x [Ha Hb].
    apply list_elem_of_filter in Ha as [Ha Hx].
    apply list_elem_of_filter in Hb as [Hb _].
    destruct (Hregion x Hx) as [v Hv].
    by apply (above_xor_below x v Hv) in Ha.
  - intros x. rewrite !list_elem_of_filter. split; [|tauto].
    intros Hx. destruct (Hregion x Hx) as [v Hv].
    destruct (decide (below_threshold (F:=F) x)) as [Hb|Hb]; [tauto|].
    left. split; [|done]. by apply (above_xor_below x v Hv).
  - rewrite <- (filter_app_complement (above_threshold (F:=F)) region) at 1.
    assert (filter (λ x, ¬ above_threshold (F:=F) x) region
            = filter (below_threshold (F:=F)) region) as ->; [|done].
    clear -Hregion FloatOrder0.
    induction region as [|x region IH]; [done|].
    assert (∀ y, y ∈ region → ∃ v : F, population_2010 y v) as Hrest.
    { intros y Hy. apply Hregion. by right. }
    destruct (Hregion x) as [v Hv]; [by left|].
    rewrite !filter_cons, (IH Hrest).
    destruct (decide (below_threshold (F:=F) x)) as [Hb|Hb].
    + rewrite decide_True; [done|]. intros Ha.
      by apply (above_xor_below x v Hv) in Ha.
    + rewrite decide_False; [done|]. intros Hna. apply Hna.
      by apply (above_xor_below x v Hv).
Qed.
End CohortsCorrect.

#[global] Instance exact_float_order : FloatOrder Exact.num.
Proof.
  split.
  - intros [x|] [y|]; try done. intros _ _. simpl.
    by destruct (Qle_bool x y).
  - done.
Qed.

(** C6. When the field 8 of every row is a number, the cohort "above" of a
    region holds exactly its rows whose 2010 population is more than 2000.0,
    and the cohort "below" exactly its rows whose 2010 population is at most
    2000.0; no row is in both, every row of the region is in one of them,
    and both keep the order of the region. *)
Theorem cohorts_partition {F : Type} `{PyFloat F} `{!FloatOrder F}
    (allregions : list (list (list string))) :
  Forall (Forall (λ x, ∃ v : F, population_2010 x v)) allregions →
  ∃ above below,
    aboveregions_of (F:=F) allregions = Ok above
    ∧ belowregions_of (F:=F) allregions = Ok below
    ∧ Forall3 (λ region a b,
        (∀ x, x ∈ a ↔ x ∈ region ∧ above_threshold (F:=F) x)
        ∧ (∀ x, x ∈ b ↔ x ∈ region ∧ below_threshold (F:=F) x)
        ∧ (∀ x, ¬ (x ∈ a ∧ x ∈ b))
        ∧ (∀ x, x ∈ region ↔ x ∈ a ∨ x ∈ b)
        ∧ region ≡ₚ a ++ b
        ∧ a `sublist_of` region ∧ b `sublist_of` region)
      allregions above below.
Proof.
  intros Hall. destruct (cohorts_filter allregions Hall) as [Ha Hb].
  exists (filter (above_threshold (F:=F)) <$> allregions),
         (filter (below_threshold (F:=F)) <$> allregions).
  split; [done|]. split; [done|].
  clear Ha Hb. induction Hall as [|region regions Hregion _ IH];
    [constructor|].
  rewrite !fmap_cons. constructor; [|exact IH].
  destruct (cohorts_partition_region region Hregion) as (Hdisj & Hcover & Hperm).
  split; [|split; [|split; [|split; [|split; [|split]]]]].
  - intros x. rewrite list_elem_of_filter. tauto.
  - intros x. rewrite list_elem_of_filter. tauto.
  - exact Hdisj.
  - exact Hcover.
  - exact Hperm.
  - apply sublist_filter.
  - apply sublist_filter.
Qed.

Lemma cohorts_partition_witness :
  ∃ above below,
    aboveregions_of (F:=Exact.num) Sample.regions = Ok above
    ∧ belowregions_of (F:=Exact.num) Sample.regions = Ok below
    ∧ Forall3 (λ region a b,
        (∀ x, x ∈ a ↔ x ∈ region ∧ above_threshold (F:=Exact.num) x)
        ∧ (∀ x, x ∈ b ↔ x ∈ region ∧ below_threshold (F:=Exact.num) x)
        ∧ (∀ x, ¬ (x ∈ a ∧ x ∈ b))
        ∧ (∀ x, x ∈ region ↔ x ∈ a ∨ x ∈ b)
        ∧ region ≡ₚ a ++ b
        ∧ a `sublist_of` region ∧ b `sublist_of` region)
      Sample.regions above below.
Proof.
  apply (cohorts_partition (F:=Exact.num) Sample.regions).
  repeat constructor; eexists; eexists; (split; [reflexivity|]);
    (split; reflexivity).
Defined.

(** The cohorts of the sample: Kano is the one row below the threshold. *)
Example sample_cohorts :
  aboveregions_of (F:=Exact.num) Sample.regions =
    Ok [[]; []; [Sample.paris];
        [Sample.lagos_1; Sample.cairo; Sample.lagos_2];
        []; []; []; []; []; []]
  ∧ belowregions_of (F:=Exact.num) Sample.regions =
      Ok [[]; []; []; [Sample.kano]; []; []; []; []; []; []].
Proof. split; vm_compute; reflexivity. Qed.

(** The location averages of the rates of urban expansion of the African
    rows of the sample: Lagos and Cairo in every decade, Kano in none. *)
Example sample_loc_average :
  (fmap (M:=list) (fmap (M:=list) Exact.view))
    <$> loc_average (F:=Exact.num) Sample.regions 3 18 22 =
  Ok [[Some (15 # 2)%Q; Some (29 # 10)%Q];
      [Some (13 # 2)%Q; Some (16 # 5)%Q];
      [Some (4 # 1)%Q; Some (19 # 5)%Q];
      [Some (3 # 1)%Q; Some (16 # 5)%Q]].
Proof. vm_compute. reflexivity. Qed.

(** ** The files of a run *)

Section Writes.
Context {G F : Type}.
Implicit Types (w : world G F) (names : list string).

Lemma files_of_app (evs1 evs2 : list (event F)) :
  files_of (evs1 ++ evs2) = files_of evs1 ++ files_of evs2.
Proof. unfold files_of. apply omap_app. Qed.

Lemma writes_bind {A B} names1 names2 (p : prog G F A) (k : A → prog G F B) :
  writes names1 p → (∀ a, writes names2 (k a)) →
  writes (names1 ++ names2) (p ≫= k).
Proof.
  intros Hp Hk w. destruct (Hp w) as (new1 & Hlog1 & Hpre1 & Hok1).
  unfold mbind, prog_bind. destruct (p w) as [[a|err] w1]; simpl in *.
  - destruct (Hk a w1) as (new2 & Hlog2 & Hpre2 & Hok2).
    exists (new1 ++ new2). rewrite Hlog2, Hlog1, <- app_assoc.
    rewrite files_of_app, (Hok1 eq_refl). split; [done|]. split.
    + by apply prefix_app.
    + intros Hok. by rewrite (Hok2 Hok).
  - exists new1. split; [done|]. split; [|done].
    by apply prefix_app_r.
Qed.

Lemma writes_ret {A} (a : A) : writes [] (mret (M:=prog G F) a).
Proof. intros w. exists []. simpl. by rewrite app_nil_r. Qed.

Lemma writes_lift {A} (r : result A) : writes [] (lift (G:=G) (F:=F) r).
Proof. intros w. exists []. simpl. by rewrite app_nil_r. Qed.

Lemma writes_with_rng {A} (f : G → result A * G) :
  writes [] (with_rng (F:=F) f).
Proof.
  intros w. exists []. unfold with_rng. destruct (f (rng w)) as [r g'].
  simpl. by rewrite app_nil_r.
Qed.

Lemma writes_skip_rng (f : G → G) : writes [] (skip_rng (F:=F) f).
Proof. intros w. exists []. simpl. by rewrite app_nil_r. Qed.

Lemma writes_emit (ev : event F) :
  writes (files_of [ev]) (emit (G:=G) ev).
Proof. intros w. exists [ev]. simpl. done. Qed.

Lemma writes_for {S X} (body : S → X → prog G F S) (xs : list X) (s : S) :
  (∀ s x, writes [] (body s x)) → writes [] (prog_for body xs s).
Proof.
  intros Hbody. revert s. induction xs as [|x xs IH]; intros s; simpl.
  - apply writes_ret.
  - apply (writes_bind [] []); [apply Hbody|apply IH].
Qed.

Lemma writes_except {A} (body handler : prog G F A) :
  writes [] body → writes [] handler →
  writes [] (except_ZeroDivisionError body handler).
Proof.
  intros Hb Hh w. destruct (Hb w) as (new1 & Hlog1 & Hpre1 & _).
  unfold except_ZeroDivisionError.
  destruct (body w) as [[a|err] w1]; simpl in *.
  - exists new1. split; [done|]. split; [done|]. intros _.
    apply prefix_nil_inv in Hpre1. done.
  - assert (∃ new, log (snd (handler (World (rng w1)
                       (log w1 ++ [Caught ZeroDivisionError])))) = log w ++ new
              ∧ files_of new `prefix_of` []
              ∧ (is_ok (fst (handler (World (rng w1)
                   (log w1 ++ [Caught ZeroDivisionError])))) = true
                 → files_of new = [])) as Hcaught.
    { destruct (Hh (World (rng w1) (log w1 ++ [Caught ZeroDivisionError])))
        as (new2 & Hlog2 & Hpre2 & _).
      exists (new1 ++ [Caught ZeroDivisionError] ++ new2). simpl in Hlog2.
      rewrite Hlog2, Hlog1, <- !app_assoc. split; [done|].
      apply prefix_nil_inv in Hpre1, Hpre2.
      rewrite !files_of_app, Hpre1, Hpre2. simpl. done. }
    destruct err; try exact Hcaught.
    all: exists new1; split; [done|]; split; [done|]; intros Hf; done.
Qed.
End Writes.

(** Statements that make no file. *)
Ltac quiet :=
  repeat first
    [ apply writes_ret
    | apply writes_lift
    | apply writes_with_rng
    | apply writes_skip_rng
    | match goal with |- writes _ (emit ?ev) => exact (writes_emit ev) end
    | apply writes_except
    | apply writes_for; intros; cbn beta
    | apply (writes_bind [] []); [|intros; cbn beta]
    | match goal with
      | |- context [let '(_, _) := ?x in _] => is_var x; destruct x
      | |- writes _ (match ?x with _ => _ end) => destruct x
      end ].

Section ScriptFiles.
Context {F : Type} `{PyFloat F} `{NumpyWarnings F}
  {G : Type} `{RandomState G} `{OsPath}.
Implicit Types (regions : list (list (list string))).

Lemma numpy_stat_quiet (stat : list F → F) (warns : list F → list warning)
    (xs : list F) :
  writes [] (numpy_stat (G:=G) stat warns xs).
Proof. unfold numpy_stat. quiet. Qed.

Lemma jitter_quiet (data_array : list (list F)) :
  writes [] (jitter (G:=G) data_array).
Proof. unfold jitter. quiet. Qed.

Lemma region_means_of_quiet regions :
  writes [] (region_means_of (G:=G) regions).
Proof. unfold region_means_of. quiet. Qed.

Lemma bootstrap_loop_quiet regions (opic_string title : string) (s e : Z)
    (labels : list string) :
  writes [] (bootstrap_loop (G:=G) regions opic_string title s e labels).
Proof.
  unfold bootstrap_loop. quiet; try apply numpy_stat_quiet; try apply jitter_quiet.
Qed.

Lemma log_loop_quiet regions (bs_pack : list (list (list F))) (s e : Z)
    (k : nat) :
  writes [] (log_loop (G:=G) regions bs_pack s e k).
Proof. unfold log_loop. quiet; apply jitter_quiet. Qed.

(** One statement of a sequence: it makes no file, or it is the [emit] of
    the next file. *)
Ltac files_step :=
  lazymatch goal with
  | |- writes ?L (emit ?ev ≫= _) =>
      first
        [ apply (writes_bind [] L); [exact (writes_emit ev)|intros _]
        | apply (writes_bind (files_of [ev]) (tail L));
            [exact (writes_emit ev)|intros _] ]
  | |- writes ?L (_ ≫= _) =>
      apply (writes_bind [] L);
        [ first [ apply region_means_of_quiet | apply bootstrap_loop_quiet
                | apply log_loop_quiet | apply writes_lift ]
        | intros ?; cbn beta;
          repeat match goal with
                 | |- context [let '(_, _) := ?x in _] => is_var x; destruct x
                 end ]
  | |- writes _ (emit ?ev) => exact (writes_emit ev)
  | |- writes _ (mret _) => apply writes_ret
  end.

Lemma plot_linear_writes regions (ifile_path opic_string : string) :
  writes [beside ifile_path (opic_string +:+ "_rates_linear.png");
          beside ifile_path (opic_string +:+ "_PD_linear.png")]
    (plot_linear (G:=G) regions ifile_path opic_string).
Proof. unfold plot_linear. repeat files_step. Qed.

Lemma plot_log_writes regions (ifile_path opic_string : string)
    (bs_pack1 bs_pack2 : list (list (list F))) (region_means : list (list F)) :
  writes [beside ifile_path (opic_string +:+ "_rates_log.png");
          beside ifile_path (opic_string +:+ "_PD_log.png")]
    (plot_log (G:=G) regions ifile_path opic_string bs_pack1 bs_pack2
       region_means).
Proof. unfold plot_log. repeat files_step. Qed.

Lemma plot_cohort_writes regions (input_file opic_string : string) :
  writes (path_join (directory input_file) <$> figure_names opic_string)
    (plot_cohort (G:=G) (F:=F) regions input_file opic_string).
Proof.
  unfold plot_cohort.
  apply (writes_bind
           [beside input_file (opic_string +:+ "_rates_linear.png");
            beside input_file (opic_string +:+ "_PD_linear.png")]
           [beside input_file (opic_string +:+ "_rates_log.png");
            beside input_file (opic_string +:+ "_PD_log.png")]).
  - apply plot_linear_writes.
  - intros [[bs_pack1 bs_pack2] region_means]. apply plot_log_writes.
Qed.

(** The files of the script: the summary, the four figures of each of the
    three cohorts, and the workbook. *)
Lemma main_writes (input_file file_data : string) :
  writes (output_files input_file) (main (G:=G) (F:=F) input_file file_data).
Proof.
  assert (output_files input_file =
            [summary_output_file input_file]
            ++ (path_join (directory input_file)
                  <$> figure_names "regional_all_location")
            ++ (path_join (directory input_file)
                  <$> figure_names "regional_above_location")
            ++ (path_join (directory input_file)
                  <$> figure_names "regional_below_location")
            ++ [bstrap_output_file input_file]) as -> by reflexivity.
  unfold main.
  apply writes_bind; [exact (writes_emit _)|intros _].
  do 4 files_step.
  apply writes_bind; [apply plot_cohort_writes|intros _].
  apply writes_bind; [apply plot_cohort_writes|intros _].
  apply writes_bind; [apply plot_cohort_writes|intros _].
  exact (writes_emit _).
Qed.
End ScriptFiles.

(** C8. The names of the files of a run depend on the path of the input
    file alone: whatever the file holds, the files that a run makes are, in
    this order, the summary named [regional_location_summary] with the
    extension of the input file, the twelve figures named after the cohort,
    the measure and the scale, and the workbook
    [regional_location_bstrap.xlsx], all in the directory of the input file;
    a run that ends well has made the fourteen of them, a run that raises
    has made the first of them. *)
Theorem output_file_names {F : Type} `{PyFloat F} `{NumpyWarnings F} {G : Type}
    `{RandomState G} `{OsPath} (input_file file_data : string) (g : G) :
  match fst (main (F:=F) input_file file_data (World g [])) with
  | Ok _ =>
      files_of (log (snd (main (F:=F) input_file file_data (World g [])))) =
        output_files input_file
  | Raise _ =>
      files_of (log (snd (main (F:=F) input_file file_data (World g []))))
        `prefix_of` output_files input_file
  end
  ∧ output_files input_file =
      path_join (directory input_file)
        ("regional_location_summary" +:+ extension input_file)
      :: (path_join (directory input_file) <$>
            ["regional_all_location_rates_linear.png";
             "regional_all_location_PD_linear.png";
             "regional_all_location_rates_log.png";
             "regional_all_location_PD_log.png";
             "regional_above_location_rates_linear.png";
             "regional_above_location_PD_linear.png";
             "regional_above_location_rates_log.png";
             "regional_above_location_PD_log.png";
             "regional_below_location_rates_linear.png";
             "regional_below_location_PD_linear.png";
             "regional_below_location_rates_log.png";
             "regional_below_location_PD_log.png"])
      ++ [path_join (directory input_file) "regional_location_bstrap.xlsx"].
Proof.
  destruct (main_writes (F:=F) (G:=G) input_file file_data (World g []))
    as (new & Hlog & Hpre & Hok).
  simpl in Hlog. rewrite Hlog. split; [|done].
  destruct (fst (main input_file file_data (World g []))); [|done].
  by apply Hok.
Qed.

(** The files of a run on a POSIX system for [data/Input.csv]. *)
Example output_files_posix :
  output_files "data/Input.csv" =
    ["data/regional_location_summary.csv";
     "data/regional_all_location_rates_linear.png";
     "data/regional_all_location_PD_linear.png";
     "data/regional_all_location_rates_log.png";
     "data/regional_all_location_PD_log.png";
     "data/regional_above_location_rates_linear.png";
     "data/regional_above_location_PD_linear.png";
     "data/regional_above_location_rates_log.png";
     "data/regional_above_location_PD_log.png";
     "data/regional_below_location_rates_linear.png";
     "data/regional_below_location_PD_linear.png";
     "data/regional_below_location_rates_log.png";
     "data/regional_below_location_PD_log.png";
     "data/regional_location_bstrap.xlsx"].
Proof. vm_compute. reflexivity. Qed.

(** ** What a run catches *)

Section AddsOnly.
Context {G F : Type} (Q : event F → Prop).

Lemma adds_only_bind {A B} (p : prog G F A) (k : A → prog G F B) :
  adds_only Q p → (∀ a, adds_only Q (k a)) → adds_only Q (p ≫= k).
Proof.
  intros Hp Hk w. destruct (Hp w) as (new1 & Hlog1 & HQ1).
  unfold mbind, prog_bind. destruct (p w) as [[a|err] w1]; simpl in *.
  - destruct (Hk a w1) as (new2 & Hlog2 & HQ2).
    exists (new1 ++ new2). rewrite Hlog2, Hlog1, <- app_assoc.
    split; [done|]. by apply Forall_app.
  - by exists new1.
Qed.

Lemma adds_only_ret {A} (a : A) : adds_only Q (mret (M:=prog G F) a).
Proof. intros w. exists []. simpl. by rewrite app_nil_r. Qed.

Lemma adds_only_lift {A} (r : result A) : adds_only Q (lift (G:=G) r).
Proof. intros w. exists []. simpl. by rewrite app_nil_r. Qed.

Lemma adds_only_with_rng {A} (f : G → result A * G) :
  adds_only Q (with_rng f).
Proof.
  intros w. exists []. unfold with_rng. destruct (f (rng w)) as [r g'].
  simpl. by rewrite app_nil_r.
Qed.

Lemma adds_only_skip_rng (f : G → G) : adds_only Q (skip_rng f).
Proof. intros w. exists []. simpl. by rewrite app_nil_r. Qed.

Lemma adds_only_emit (ev : event F) : Q ev → adds_only Q (emit (G:=G) ev).
Proof. intros Hev w. exists [ev]. simpl. split; [done|]. by constructor. Qed.

Lemma adds_only_for {S X} (body : S → X → prog G F S) (xs : list X) (s : S) :
  (∀ s x, adds_only Q (body s x)) → adds_only Q (prog_for body xs s).
Proof.
  intros Hbody. revert s. induction xs as [|x xs IH]; intros s; simpl.
  - apply adds_only_ret.
  - apply adds_only_bind; [apply Hbody|apply IH].
Qed.

Lemma adds_only_except {A} (body handler : prog G F A) :
  Q (Caught ZeroDivisionError) →
  adds_only Q body → adds_only Q handler →
  adds_only Q (except_ZeroDivisionError body handler).
Proof.
  intros HQ Hb Hh w. destruct (Hb w) as (new1 & Hlog1 & HQ1).
  unfold except_ZeroDivisionError.
  destruct (body w) as [[a|err] w1]; simpl in *; [by exists new1|].
  destruct err; try (by exists new1).
  destruct (Hh (World (rng w1) (log w1 ++ [Caught ZeroDivisionError])))
    as (new2 & Hlog2 & HQ2).
  exists (new1 ++ [Caught ZeroDivisionError] ++ new2). simpl in Hlog2.
  rewrite Hlog2, Hlog1, <- !app_assoc. split; [done|].
  apply Forall_app. split; [done|]. apply Forall_app. split; [|done].
  by constructor.
Qed.
End AddsOnly.

(** Statements whose [except] clauses are for [ZeroDivisionError]; [tac]
    is for the statements that are not taken apart. *)
Ltac only_expected_with tac :=
  repeat first
    [ tac
    | apply adds_only_ret
    | apply adds_only_lift
    | apply adds_only_with_rng
    | apply adds_only_skip_rng
    | apply adds_only_emit; done
    | apply adds_only_except; [done| |]
    | apply adds_only_for; intros; cbn beta
    | apply adds_only_bind; [|intros; cbn beta]
    | match goal with
      | |- context [let '(_, _) := ?x in _] => is_var x; destruct x
      | |- adds_only _ (match ?x with _ => _ end) => destruct x
      end ].

Ltac only_expected := only_expected_with fail.

Section ScriptCatches.
Context {F : Type} `{PyFloat F} `{NumpyWarnings F}
  {G : Type} `{RandomState G} `{OsPath}.
Implicit Types (regions : list (list (list string))) (w : world G F).

(** Under [simplefilter("ignore")] the warnings of a statistic are dropped
    one after the other, and the statistic has its value. *)
Lemma ignore_loop_run (ws : list warning) w :
  prog_for (λ _ msg, emit (Ignored msg)) ws () w
  = (Ok (), World (rng w) (log w ++ (Ignored <$> ws))).
Proof.
  revert w. induction ws as [|msg ws IH]; intros w.
  { destruct w. simpl. by rewrite app_nil_r. }
  cbn [prog_for]. unfold mbind at 1, prog_bind at 1. cbn [emit].
  rewrite IH. simpl. by rewrite <- app_assoc.
Qed.

Lemma numpy_stat_run (stat : list F → F) (warns : list F → list warning)
    (xs : list F) w :
  numpy_stat stat warns xs w
  = (Ok (match xs with [] => f_nan | _ :: _ => stat xs end),
     World (rng w) (log w ++ (Ignored <$> warns xs))).
Proof.
  unfold numpy_stat. unfold mbind at 1, prog_bind at 1.
  by rewrite ignore_loop_run.
Qed.

(** The warnings of a statistic are ignored, and nothing else is. *)
Lemma numpy_stat_expected (stat : list F → F)
    (warns : list F → list warning) (xs : list F) :
  (∀ msg : warning, msg ∈ warns xs → expected (F:=F) (Ignored msg)) →
  adds_only expected (numpy_stat (G:=G) stat warns xs).
Proof.
  unfold numpy_stat. generalize (warns xs). intros ws Hw.
  apply adds_only_bind; [|intros; apply adds_only_ret].
  induction ws as [|msg ws IH]; [apply adds_only_ret|].
  cbn [prog_for]. apply adds_only_bind.
  - apply adds_only_emit, Hw. left.
  - intros []. apply IH. intros msg' Hin. apply Hw. by right.
Qed.

Lemma numpy_mean_expected (xs : list F) :
  adds_only expected (numpy_stat (G:=G) numpy_mean mean_warnings xs).
Proof. apply numpy_stat_expected. intros msg Hw. exists xs. by left. Qed.

Lemma numpy_median_expected (xs : list F) :
  adds_only expected (numpy_stat (G:=G) f_median median_warnings xs).
Proof. apply numpy_stat_expected. intros msg Hw. exists xs. by right. Qed.

(** Whatever the input, the [except] clauses of the script run for a
    [ZeroDivisionError] only, and the warnings that are ignored are those
    of the statistics of the bootstrap arrays. *)
Lemma main_expected (input_file file_data : string) :
  adds_only expected (main (G:=G) (F:=F) input_file file_data).
Proof.
  unfold main, plot_cohort, plot_linear, plot_log, region_means_of,
    bootstrap_loop, log_loop, jitter.
  only_expected_with
    ltac:(first [apply numpy_mean_expected | apply numpy_median_expected]).
Qed.

(** The mean of a list of location averages, [nan] for an empty list: the
    [ZeroDivisionError] of [0/0] is caught. *)
Lemma py_mean_caught (pop : list F) w :
  fst (except_ZeroDivisionError (lift (py_mean pop)) (mret f_nan) w) =
    Ok (numpy_mean pop).
Proof.
  unfold except_ZeroDivisionError, lift, py_mean. by destruct pop.
Qed.

Lemma means_loop (pops : list (list F)) (means : list F) w :
  fst (prog_for
         (λ means pop,
            v ← except_ZeroDivisionError (lift (py_mean pop)) (mret f_nan);
            mret (means ++ [v])) pops means w) =
    Ok (means ++ (numpy_mean <$> pops)).
Proof.
  revert means w. induction pops as [|pop pops IH]; intros means w; simpl.
  - by rewrite app_nil_r.
  - unfold mbind at 1, prog_bind at 1. unfold mbind at 1, prog_bind at 1.
    pose proof (py_mean_caught pop w) as Hpop.
    destruct (except_ZeroDivisionError _ _ w) as [[v|err] w1];
      simpl in Hpop; [|done].
    injection Hpop as ->. simpl. rewrite IH. by rewrite <- app_assoc.
Qed.

(** The first loop of [plot_linear]: an exception of [loc_average] ends
    it, and nothing else does. *)
Lemma region_means_loop regions (ms : list nat) (acc : list (list F)) w :
  fst (prog_for
         (λ region_means m,
            pop_perc ← lift (loc_average regions (Z.of_nat m) 9 13);
            pop_perc ← lift (unpack 4 pop_perc);
            means ← prog_for
                      (λ means pop,
                         v ← except_ZeroDivisionError (lift (py_mean pop))
                               (mret f_nan);
                         mret (means ++ [v]))
                      pop_perc [];
            mret (region_means ++ [means])) ms acc w) =
    (pops ← comprehension
              (λ m, loc_average (F:=F) regions (Z.of_nat m) 9 13 ≫= unpack 4)
              ms;
     Ok (acc ++ (fmap (M:=list) numpy_mean <$> pops))).
Proof.
  revert acc w. induction ms as [|m ms IH]; intros acc w; simpl.
  - by rewrite app_nil_r.
  - unfold mbind at 1, prog_bind at 1. unfold mbind at 1, prog_bind at 1.
    unfold lift at 1.
    destruct (loc_average regions (Z.of_nat m) 9 13) as [pop_perc|err];
      simpl; [|done].
    unfold mbind at 1, prog_bind at 1. unfold lift at 1.
    destruct (unpack 4 pop_perc) as [pop_perc'|err]; simpl; [|done].
    unfold mbind at 1, prog_bind at 1.
    pose proof (means_loop pop_perc' [] w) as Hmeans.
    destruct (prog_for _ pop_perc' [] w) as [[means|err] w1];
      simpl in Hmeans; [|done].
    injection Hmeans as ->. simpl. rewrite IH.
    destruct (comprehension _ ms) as [pops|err]; simpl; [|done].
    by rewrite <- app_assoc.
Qed.
End ScriptCatches.

(** C5, as amended. The script recovers in two places and nowhere else.
    In [plot_linear] the [ZeroDivisionError] of the mean of an empty list of
    location-averaged rates of population change is caught and replaced by
    [nan]. Around the statistics of the bootstrap arrays every warning is
    ignored, whatever it is: [numpy.mean] and [numpy.median] have their
    value, [nan] for an empty array, and what they warned of is dropped. In
    every run the [except] clauses run for [ZeroDivisionError] only, the
    warnings that are ignored are those of these statistics, and the loop
    with the [except] clauses ends with the exception of [loc_average] when
    there is one. *)
Theorem failure_recovery {F : Type} `{PyFloat F} `{NumpyWarnings F}
    {G : Type} `{RandomState G} `{OsPath} (input_file file_data : string)
    (g : G) (regions : list (list (list string))) (w : world G F)
    (b : list F) :
  Forall expected (log (snd (main (F:=F) input_file file_data (World g []))))
  ∧ fst (region_means_of (F:=F) regions w) =
      (comprehension
         (λ m : nat, loc_average (F:=F) regions (Z.of_nat m) 9 13 ≫= unpack 4)
         (seq 0 (length region_unique))
       ≫= λ pops : list (list (list F)),
            Ok (fmap (M:=list) (fmap (M:=list) (numpy_mean (F:=F))) pops))
  ∧ numpy_stat numpy_mean mean_warnings b w
    = (Ok (numpy_mean b),
       World (rng w) (log w ++ (Ignored <$> mean_warnings b)))
  ∧ numpy_stat f_median median_warnings b w
    = (Ok (match b with [] => f_nan | _ :: _ => f_median b end),
       World (rng w) (log w ++ (Ignored <$> median_warnings b))).
Proof.
  split; [|split; [|split]].
  - destruct (main_expected (F:=F) (G:=G) input_file file_data (World g []))
      as (new & Hlog & Hnew).
    simpl in Hlog. by rewrite Hlog.
  - unfold region_means_of. by rewrite region_means_loop.
  - rewrite numpy_stat_run. by destruct b.
  - apply numpy_stat_run.
Qed.

(** C5, as stated, fails: for a table with a town without rates of
    population change an [except] clause runs, and the run goes on. *)
Lemma zero_division_caught :
  ¬ (∀ (input_file file_data : string) (g : Lcg.state),
       Forall (λ ev, ∀ e, ev ≠ Caught e)
         (log (snd (main (F:=Exact.num) input_file file_data (World g []))))).
Proof.
  intros Hclaim.
  specialize (Hclaim "data/Input.csv"
                (Sample.file_of [Sample.new_town "N Am"]) Sample.seed).
  assert (log (snd (main (F:=Exact.num) "data/Input.csv"
                      (Sample.file_of [Sample.new_town "N Am"])
                      (World Sample.seed []))) =
            [FileOpened "data/regional_location_summary.csv";
             Caught ZeroDivisionError; Caught ZeroDivisionError;
             Caught ZeroDivisionError; Caught ZeroDivisionError]) as Hlog.
  { vm_compute. reflexivity. }
  rewrite Hlog in Hclaim.
  apply Forall_cons in Hclaim as [_ Hclaim].
  apply Forall_cons in Hclaim as [Hcaught _].
  by apply (Hcaught ZeroDivisionError).
Qed.

(** The means of the rates of population change for ten regions of towns
    without rates: [nan] for every decade, each after a caught
    [ZeroDivisionError]. *)
Example region_means_recovered :
  let run := region_means_of (F:=Exact.num)
               ((λ region, [Sample.new_town region]) <$> region_unique)
               (World Sample.seed []) in
  fst run = Ok (replicate 10 [None; None; None; None])
  ∧ log (snd run) = replicate 40 (Caught ZeroDivisionError).
Proof. split; vm_compute; reflexivity. Qed.

(** ** Missing entries *)

Section MissingEntries.
Context {F : Type} `{PyFloat F}.
Implicit Types (names col : list string) (name : string).

Lemma blank_missing (x : string) : blank x = true ↔ missing x.
Proof.
  unfold blank, missing. rewrite orb_true_iff, !String.eqb_eq. done.
Qed.

Lemma valid_entries_present names col name :
  valid_entries names col name = present_entries names col name.
Proof.
  unfold valid_entries, present_entries. apply list_filter_iff. intros x.
  rewrite <- blank_missing. by destruct (blank x).
Qed.

Lemma location_mean_contributes names col name (c : list F) :
  location_mean names col name = Some c → contributes names col name c.
Proof.
  unfold location_mean. rewrite valid_entries_present.
  destruct (mapM float_of_str _) as [vs|] eqn:Evs; [|done].
  simpl. intros [= <-]. exists vs.
  apply mapM_Some_1 in Evs. split; [done|].
  pose proof (Forall2_length _ _ _ Evs) as Hlen.
  destruct (present_entries names col name), vs; simplify_eq/=; [done|].
  unfold mean. simpl. by rewrite Hlen.
Qed.

Lemma contributes_length names col name (c : list F) :
  contributes names col name c →
  length c = if decide (present_entries names col name = []) then 0%nat
             else 1%nat.
Proof.
  intros (vs & _ & ->). by destruct (present_entries names col name).
Qed.

Lemma contributions_length names col (unames : list string)
    (contribs : list (list F)) :
  Forall2 (contributes names col) unames contribs →
  length (mjoin contribs) =
    length (filter (λ name, present_entries names col name ≠ []) unames).
Proof.
  induction 1 as [|name c unames contribs Hc _ IH]; [done|].
  simpl. rewrite length_app, IH, (contributes_length _ _ _ _ Hc), filter_cons.
  destruct (decide (present_entries names col name = [])) as [Hp|Hp].
  - by rewrite decide_False by (intros Hn; by apply Hn).
  - by rewrite decide_True.
Qed.

Lemma decade_means_contributes names col (d : list F) :
  decade_means names col = Some d →
  ∃ contribs, d = mjoin contribs
    ∧ Forall2 (contributes names col) (first_occurrences names) contribs.
Proof.
  unfold decade_means.
  destruct (mapM _ (first_occurrences names)) as [contribs|] eqn:E; [|done].
  simpl. intros [= <-]. exists contribs. split; [done|].
  apply mapM_Some_1 in E. eapply Forall2_impl; [exact E|].
  intros name c. apply location_mean_contributes.
Qed.
End MissingEntries.

(** C3. In [loc_average] an entry that is [''] or [' '] is missing. On a
    region whose entries that are not missing are numbers the call returns,
    and the mean that a location gives to a decade is the sum of the values
    of its entries that are not missing over the number of these entries; a
    location whose entries for a decade are all missing gives nothing to
    the list of the decade, and so the list of a decade has one member for
    each location with an entry that is not missing. *)
Theorem loc_average_missing_entries {F : Type} `{PyFloat F}
    (regions : list (list (list string))) (m s e : Z)
    (region : list (list string)) (names : list string)
    (others : list (list string)) :
  py_getitem regions m = Ok region →
  zip_star region = names :: others →
  e - s = 4 ∨ e - s = 5 →
  length (py_slice (zip_star region) s e) = Z.to_nat (e - s) →
  Forall (Forall (λ x, ¬ missing x → is_Some (float_of_str (F:=F) x)))
    (py_slice (zip_star region) s e) →
  ∃ ds, loc_average (F:=F) regions m s e = Ok ds
    ∧ Forall2 (λ col d,
        ∃ contribs, d = mjoin contribs
          ∧ Forall2 (contributes names col) (first_occurrences names) contribs
          ∧ length d =
              length (filter (λ name, present_entries names col name ≠ [])
                        (first_occurrences names)))
        (py_slice (zip_star region) s e) ds.
Proof.
  intros Hreg Hcols Hcnt Hlen Hnum.
  rewrite (loc_average_decades regions m s e region names others) by done.
  assert (is_Some (mapM (decade_means (F:=F) names)
                     (py_slice (zip_star region) s e))) as [ds Hds].
  { apply mapM_is_Some. eapply Forall_impl; [exact Hnum|].
    intros col Hcol. apply decade_means_is_Some.
    eapply Forall_impl; [exact Hcol|]. intros x Hx Hb. apply Hx.
    rewrite <- blank_missing. by rewrite Hb. }
  rewrite Hds. exists ds. split; [done|].
  apply mapM_Some_1 in Hds. eapply Forall2_impl; [exact Hds|].
  intros col d Hd. apply decade_means_contributes in Hd as (contribs & -> & Hc).
  exists contribs. split; [done|]. split; [done|].
  by apply contributions_length.
Qed.

Lemma loc_average_missing_entries_witness :
  ∃ ds, loc_average (F:=Exact.num) Sample.regions 3 22 27 = Ok ds
    ∧ Forall2 (λ col d,
        ∃ contribs, d = mjoin contribs
          ∧ Forall2 (contributes ["Lagos"; "Cairo"; "Lagos"; "Kano"] col)
              (first_occurrences ["Lagos"; "Cairo"; "Lagos"; "Kano"]) contribs
          ∧ length d =
              length (filter (λ name,
                        present_entries ["Lagos"; "Cairo"; "Lagos"; "Kano"]
                          col name ≠ [])
                        (first_occurrences ["Lagos"; "Cairo"; "Lagos"; "Kano"])))
        (py_slice (zip_star Sample.africa) 22 27) ds.
Proof.
  apply (loc_average_missing_entries Sample.regions 3 22 27 Sample.africa
           ["Lagos"; "Cairo"; "Lagos"; "Kano"]
           (tail (zip_star Sample.africa)));
    [reflexivity | reflexivity | by right | reflexivity |].
  apply (bool_decide_unpack _). vm_compute. reflexivity.
Defined.

(** The lists of the decades differ in length: Kano has a density for 2010
    only. *)
Example sample_decade_lengths :
  fmap (M:=list) length
    <$> loc_average (F:=Exact.num) Sample.regions 3 22 27 =
  Ok [2; 2; 2; 2; 3]%nat.
Proof. vm_compute. reflexivity. Qed.

(** ** List objects that a statement leaves as they are *)

Section Frames.
Context {F G : Type}.
Implicit Types (D : gset positive) (σ : store F G).

Lemma unchanged_refl D σ : D ⊆ dom (objects σ) → unchanged D σ σ.
Proof. by split. Qed.

Lemma unchanged_trans D σ1 σ2 σ3 :
  unchanged D σ1 σ2 → unchanged D σ2 σ3 → unchanged D σ1 σ3.
Proof.
  intros [Hd1 He1] [Hd2 He2]. split; [done|].
  intros l Hl. by rewrite He2, He1.
Qed.

Lemma frames_ret {A} D (a : A) : frames D (mret (M:=cmd F G) a).
Proof. intros σ Hσ. by apply unchanged_refl. Qed.

Lemma frames_pure {A} D (r : result A) : frames D (pure_result (G:=G) (F:=F) r).
Proof. intros σ Hσ. by apply unchanged_refl. Qed.

Lemma frames_contents D (l : positive) : frames D (contents (G:=G) (F:=F) l).
Proof.
  intros σ Hσ. unfold contents. destruct (objects σ !! l);
    by apply unchanged_refl.
Qed.

Lemma frames_deref D (v : value F) : frames D (deref (G:=G) v).
Proof. destruct v; simpl; try apply frames_pure. apply frames_contents. Qed.

Lemma frames_with_generator {A} D (f : G → result A * G) :
  frames D (with_generator (F:=F) f).
Proof.
  intros σ Hσ. unfold with_generator. destruct (f (generator σ)) as [r g'].
  by split.
Qed.

Lemma frames_new_list D (xs : list (value F)) :
  frames D (new_list (G:=G) xs).
Proof.
  intros σ Hσ. unfold new_list. simpl. split; simpl.
  - rewrite dom_insert_L. set_solver.
  - intros l Hl. apply lookup_insert_ne. intros <-.
    apply (is_fresh (dom (objects σ))). by apply Hσ.
Qed.

(** A new list object is none of the objects that were there. *)
Lemma returns_new_list D (xs : list (value F)) :
  returns D (λ l, l ∉ D) (new_list (G:=G) xs).
Proof.
  intros σ Hσ. simpl. intros Hl. apply (is_fresh (dom (objects σ))).
  by apply Hσ.
Qed.

(** [append] changes the list it is called on, and no other. *)
Lemma frames_append D (l : positive) (v : value F) :
  l ∉ D → frames D (list_append (G:=G) l v).
Proof.
  intros Hl σ Hσ. unfold list_append.
  destruct (objects σ !! l) as [xs|] eqn:E; [|by apply unchanged_refl].
  split; simpl.
  - rewrite dom_insert_L. set_solver.
  - intros l' Hl'. apply lookup_insert_ne. by intros <-.
Qed.

Lemma frames_bind_returns {A B} D (P : A → Prop) (p : cmd F G A)
    (k : A → cmd F G B) :
  frames D p → returns D P p → (∀ a, P a → frames D (k a)) →
  frames D (p ≫= k).
Proof.
  intros Hp HP Hk σ Hσ. specialize (Hp σ Hσ). specialize (HP σ Hσ).
  unfold mbind, cmd_bind. destruct (p σ) as [[a|err] σ1]; simpl in *; [|done].
  eapply unchanged_trans; [exact Hp|]. apply (Hk a HP). by destruct Hp.
Qed.

Lemma frames_bind {A B} D (p : cmd F G A) (k : A → cmd F G B) :
  frames D p → (∀ a, frames D (k a)) → frames D (p ≫= k).
Proof.
  intros Hp Hk. apply (frames_bind_returns D (λ _, True)); [done| |by auto].
  intros σ _. by destruct (fst (p σ)).
Qed.

Lemma frames_for_Forall {S X} D (body : S → X → cmd F G S) (xs : list X)
    (s : S) :
  Forall (λ x, ∀ s, frames D (body s x)) xs → frames D (cmd_for body xs s).
Proof.
  intros Hxs. revert s. induction Hxs as [|x xs Hx _ IH]; intros s; simpl.
  - apply frames_ret.
  - apply frames_bind; [apply Hx|apply IH].
Qed.

Lemma frames_for {S X} D (body : S → X → cmd F G S) (xs : list X) (s : S) :
  (∀ s x, frames D (body s x)) → frames D (cmd_for body xs s).
Proof. intros Hb. apply frames_for_Forall, Forall_forall. auto. Qed.

Lemma frames_map_Forall {X Y} D (f : X → cmd F G Y) (xs : list X) :
  Forall (λ x, frames D (f x)) xs → frames D (cmd_map f xs).
Proof.
  induction 1 as [|x xs Hx _ IH]; simpl.
  - apply frames_ret.
  - apply frames_bind; [done|]. intros y.
    apply frames_bind; [done|]. intros ys. apply frames_ret.
Qed.

Lemma frames_map {X Y} D (f : X → cmd F G Y) (xs : list X) :
  (∀ x, frames D (f x)) → frames D (cmd_map f xs).
Proof. intros Hf. apply frames_map_Forall, Forall_forall. auto. Qed.

(** What a sequence of statements returns, when each of them leaves [D] as
    it is. *)
Lemma returns_map {X Y} D (P : Y → Prop) (f : X → cmd F G Y) (xs : list X) :
  (∀ x, frames D (f x)) → (∀ x, returns D P (f x)) →
  returns D (Forall P) (cmd_map f xs).
Proof.
  intros Hf HP. induction xs as [|x xs IH]; intros σ Hσ; simpl.
  - constructor.
  - unfold mbind at 1, cmd_bind at 1.
    specialize (Hf x σ Hσ). specialize (HP x σ Hσ).
    destruct (f x σ) as [[y|err] σ1]; simpl in *; [|done].
    destruct Hf as [Hσ1 _]. specialize (IH σ1 Hσ1).
    unfold mbind at 1, cmd_bind at 1.
    destruct (cmd_map f xs σ1) as [[ys|err] σ2]; simpl in *; [|done].
    by constructor.
Qed.
End Frames.

(** Statements that leave the list objects [D] as they are: they read,
    they make new lists, and they append to lists that are not in [D]. *)
Ltac framed :=
  repeat first
    [ apply frames_ret
    | apply frames_pure
    | apply frames_contents
    | apply frames_deref
    | apply frames_with_generator
    | apply frames_new_list
    | apply frames_append; assumption
    | match goal with
      | |- frames ?D (new_list _ ≫= _) =>
          apply (frames_bind_returns D (λ l, l ∉ D));
            [apply frames_new_list | apply returns_new_list
            | intros ? ?; cbn beta]
      | |- frames ?D (cmd_map (λ _, new_list _) _ ≫= _) =>
          apply (frames_bind_returns D (Forall (λ l, l ∉ D)));
            [ apply frames_map; intros; apply frames_new_list
            | apply returns_map; intros;
                [apply frames_new_list|apply returns_new_list]
            | intros ? ?; cbn beta ]
      | Hlocs : Forall (λ l, l ∉ ?D) ?locs
        |- frames ?D (cmd_for _ (zip ?locs _) _) =>
          apply frames_for_Forall, Forall_forall;
          let x := fresh "x" in
          let Hin := fresh "Hin" in
          intros x Hin; destruct x;
          apply elem_of_zip_l in Hin;
          pose proof (proj1 (Forall_forall _ _) Hlocs _ Hin);
          intros ?; cbn beta
      | |- frames ?D (_ ≫= _) => apply frames_bind; [|intros ?; cbn beta]
      | |- context [let '(_, _) := ?x in _] => is_var x; destruct x
      | |- frames _ (if ?b then _ else _) => destruct b
      | |- frames _ (match ?x with _ => _ end) => destruct x
      end
    | apply frames_for; intros; cbn beta
    | apply frames_map; intros; cbn beta ].

Section ObjectFrames.
Context {F : Type} `{PyFloat F} {G : Type} `{RandomState G}.
Implicit Types (D : gset positive).

Lemma read_table_frames D (region : value F) :
  frames D (read_table (G:=G) region).
Proof. unfold read_table. framed. Qed.

(** [loc_average] appends to lists that it has made itself only. *)
Lemma loc_average_obj_frames D (regions : positive) (m s e : Z) :
  frames D (loc_average_obj (F:=F) (G:=G) regions m s e).
Proof.
  unfold loc_average_obj. framed; try apply read_table_frames.
Qed.

Lemma bstrap_decade_obj_frames D (bs_iter numr8tr : nat) (data : value F) :
  frames D (bstrap_decade_obj (G:=G) bs_iter numr8tr data).
Proof. unfold bstrap_decade_obj. framed. Qed.

(** [bstrap] makes new lists and arrays, and changes none. *)
Lemma bstrap_obj_frames D (bs_iter : nat) (data : list (value F)) :
  frames D (bstrap_obj (G:=G) bs_iter data).
Proof.
  unfold bstrap_obj. framed; try apply bstrap_decade_obj_frames.
Qed.
End ObjectFrames.

(** C9. Neither [bstrap] nor [loc_average] changes a list that was there
    before the call: every list object of the store, the samples and the
    regions, their rows and their cells among them, has the same members
    after the call as before it. *)
Theorem arguments_not_mutated {F : Type} `{PyFloat F} {G : Type}
    `{RandomState G} (σ : store F G) (l : positive) (xs : list (value F))
    (bs_iter : nat) (data : list (value F)) (regions : positive)
    (m s e : Z) :
  objects σ !! l = Some xs →
  objects (snd (bstrap_obj bs_iter data σ)) !! l = Some xs
  ∧ objects (snd (loc_average_obj regions m s e σ)) !! l = Some xs.
Proof.
  intros Hl.
  assert (l ∈ dom (objects σ)) as Hdom by (apply elem_of_dom; by eexists).
  split.
  - destruct (bstrap_obj_frames (dom (objects σ)) bs_iter data σ) as [_ Heq];
      [done|].
    by rewrite (Heq l Hdom).
  - destruct (loc_average_obj_frames (dom (objects σ)) regions m s e σ)
      as [_ Heq]; [done|].
    by rewrite (Heq l Hdom).
Qed.

Lemma arguments_not_mutated_witness :
  objects (snd (bstrap_obj 3 Sample.density_refs Sample.africa_store))
    !! 7%positive
    = Some [VFloat (Exact.of_Z 11000); VFloat (Exact.of_Z 18000)]
  ∧ objects (snd (loc_average_obj 1 0 22 27 Sample.africa_store))
      !! 7%positive
      = Some [VFloat (Exact.of_Z 11000); VFloat (Exact.of_Z 18000)].
Proof.
  apply (arguments_not_mutated Sample.africa_store 7%positive
           [VFloat (Exact.of_Z 11000); VFloat (Exact.of_Z 18000)]
           3 Sample.density_refs 1%positive 0 22 27).
  reflexivity.
Defined.

(** ** The functions on list objects compute what the functions on values
       compute *)

Section ObjectRuns.
Context {F G : Type}.
Implicit Types (σ : store F G).

Lemma cmd_bind_Ok {A B} (p : cmd F G A) (k : A → cmd F G B) σ a σ1 :
  p σ = (Ok a, σ1) → (p ≫= k) σ = k a σ1.
Proof. intros Hp. unfold mbind, cmd_bind. by rewrite Hp. Qed.

Lemma cmd_bind_Raise {A B} (p : cmd F G A) (k : A → cmd F G B) σ err σ1 :
  p σ = (Raise err, σ1) → (p ≫= k) σ = (Raise err, σ1).
Proof. intros Hp. unfold mbind, cmd_bind. by rewrite Hp. Qed.

Lemma cmd_bind_run {A B} (p : cmd F G A) (k : A → cmd F G B) σ r σ1 :
  p σ = (r, σ1) →
  (p ≫= k) σ = match r with Ok a => k a σ1 | Raise err => (Raise err, σ1) end.
Proof. intros Hp. unfold mbind, cmd_bind. by rewrite Hp. Qed.

Lemma cmd_bind_assoc {A B C} (p : cmd F G A) (k : A → cmd F G B)
    (k' : B → cmd F G C) σ :
  ((p ≫= k) ≫= k') σ = (p ≫= λ a, k a ≫= k') σ.
Proof. unfold mbind, cmd_bind. by destruct (p σ) as [[a|err] σ1]. Qed.

Lemma py_getitem_lookup {A} (l : list A) (i : nat) (x : A) :
  l !! i = Some x → py_getitem l (Z.of_nat i) = Ok x.
Proof. intros Hi. by rewrite py_getitem_nat, Hi. Qed.

Lemma contents_Some σ (l : positive) (xs : list (value F)) :
  objects σ !! l = Some xs → contents l σ = (Ok xs, σ).
Proof. intros Hl. unfold contents. by rewrite Hl. Qed.

Lemma comprehension_as_float (d : list F) :
  comprehension as_float (VFloat <$> d) = Ok d.
Proof.
  induction d as [|x d IH]; [done|]. rewrite fmap_cons.
  cbn [comprehension as_float]. by rewrite IH.
Qed.

Lemma comprehension_as_str (row : list string) :
  comprehension (as_str (F:=F)) (VStr <$> row) = Ok row.
Proof.
  induction row as [|x row IH]; [done|]. rewrite fmap_cons.
  cbn [comprehension as_str]. by rewrite IH.
Qed.

(** Lists of the same length that are related member by member give
    related members, or the same [IndexError]. *)
Lemma py_getitem_Forall2 {A B} (R : A → B → Prop) (l : list A) (k : list B)
    (i : Z) :
  Forall2 R l k →
  match py_getitem l i, py_getitem k i with
  | Ok a, Ok b => R a b
  | Raise e, Raise e' => e = e'
  | _, _ => False
  end.
Proof.
  intros HR. unfold py_getitem. rewrite (Forall2_length _ _ _ HR).
  destruct (_ || _); [done|].
  destruct (l !! _) as [a|] eqn:Ea.
  - destruct (Forall2_lookup_l _ _ _ _ _ HR Ea) as (b & -> & Hab). done.
  - destruct (k !! _) as [b|] eqn:Eb; [|done].
    destruct (Forall2_lookup_r _ _ _ _ _ HR Eb) as (a & Ha & _). congruence.
Qed.
End ObjectRuns.

Section ObjectSteps.
Context {F G : Type}.
Implicit Types (σ : store F G).

Lemma bind_pure_Ok {A B} (a : A) (k : A → cmd F G B) σ :
  (pure_result (Ok a) ≫= k) σ = k a σ.
Proof. reflexivity. Qed.

Lemma bind_pure_Raise {A B} (err : exn) (k : A → cmd F G B) σ :
  (pure_result (Raise err) ≫= k) σ = (Raise err, σ).
Proof. reflexivity. Qed.

Lemma bind_ret {A B} (a : A) (k : A → cmd F G B) σ :
  (mret a ≫= k) σ = k a σ.
Proof. reflexivity. Qed.

Lemma bind_new_list {B} (xs : list (value F)) (k : positive → cmd F G B) σ :
  (new_list xs ≫= k) σ =
    k (fresh (dom (objects σ)))
      (Store (<[fresh (dom (objects σ)) := xs]> (objects σ)) (generator σ)).
Proof. reflexivity. Qed.

Lemma bind_contents {B} (l : positive) (xs : list (value F))
    (k : list (value F) → cmd F G B) σ :
  objects σ !! l = Some xs → (contents l ≫= k) σ = k xs σ.
Proof. intros Hl. by apply cmd_bind_Ok, contents_Some. Qed.

Lemma bind_append {B} (l : positive) (xs : list (value F)) (v : value F)
    (k : unit → cmd F G B) σ :
  objects σ !! l = Some xs →
  (list_append l v ≫= k) σ =
    k () (Store (<[l := xs ++ [v]]> (objects σ)) (generator σ)).
Proof.
  intros Hl. apply cmd_bind_Ok. unfold list_append. by rewrite Hl.
Qed.

Lemma bind_with_generator {A B} (f : G → result A * G) (k : A → cmd F G B) σ :
  (with_generator f ≫= k) σ =
    match fst (f (generator σ)) with
    | Ok a => k a (Store (objects σ) (snd (f (generator σ))))
    | Raise err => (Raise err, Store (objects σ) (snd (f (generator σ))))
    end.
Proof.
  unfold mbind, cmd_bind, with_generator.
  by destruct (f (generator σ)) as [[a|err] g'].
Qed.
End ObjectSteps.

Section BstrapObjRuns.
Context {F : Type} `{PyFloat F} {G : Type} `{RandomState G}.
Implicit Types (σ : store F G) (d b : list F).

Lemma bstrap_decade_obj_run (bs_iter unit : nat) (v : value F) d σ :
  holds_floats σ v d →
  ∃ σ', generator σ' = snd (bstrap_decade bs_iter unit d (generator σ))
    ∧ match fst (bstrap_decade bs_iter unit d (generator σ)) with
      | Ok b => ∃ l', bstrap_decade_obj bs_iter unit v σ = (Ok l', σ')
                      ∧ objects σ' !! l' = Some (VFloat <$> b)
      | Raise err => bstrap_decade_obj bs_iter unit v σ = (Raise err, σ')
      end.
Proof.
  intros (l & -> & Hl). unfold bstrap_decade_obj, bstrap_decade.
  cbn [deref]. rewrite (bind_contents _ _ _ _ Hl).
  destruct d as [|x d].
  { eexists. split; [|eexists; split; [reflexivity|]]; simpl; [done|].
    by rewrite lookup_insert_eq. }
  rewrite !bool_decide_eq_true_2 by (simpl; lia).
  set (d0 := x :: d).
  rewrite comprehension_as_float, bind_pure_Ok.
  set (a := (λ x, f_div x (f_of_nat unit)) <$> d0).
  assert ((λ x, VFloat (f_div x (f_of_nat unit))) <$> d0 = VFloat <$> a) as ->.
  { unfold a. by rewrite <- list_fmap_compose. }
  rewrite bind_new_list.
  rewrite (bind_contents _ (VFloat <$> a)) by apply lookup_insert_eq.
  rewrite comprehension_as_float, bind_pure_Ok, bind_new_list.
  rewrite (bind_contents _ (VFloat <$> a)) by apply lookup_insert_eq.
  rewrite comprehension_as_float, bind_pure_Ok, bind_with_generator.
  cbn [generator objects].
  destruct (random_choice a bs_iter (length a) (generator σ))
    as [[drawn|err] g'].
  - eexists. split; [|eexists; split; [reflexivity|]]; simpl; [done|].
    by rewrite lookup_insert_eq.
  - eexists. split; [|reflexivity]. done.
Qed.

Lemma holds_floats_unchanged σ σ' (v : value F) d :
  holds_floats σ v d → unchanged (dom (objects σ)) σ σ' → holds_floats σ' v d.
Proof.
  intros (l & -> & Hl) [_ Heq]. exists l. split; [done|].
  rewrite Heq; [done|]. apply elem_of_dom. by eexists.
Qed.

Lemma unchanged_mono (D D' : gset positive) σ σ' :
  D ⊆ D' → unchanged D' σ σ' → unchanged D σ σ'.
Proof. intros HD [Hdom Heq]. split; [set_solver|]. intros l Hl. auto. Qed.

(** The decades one after the other: the arrays of the earlier decades
    are still there when the later ones are made. *)
Lemma bstrap_decades_obj_run (bs_iter unit : nat) (vs : list (value F))
    (ds : list (list F)) σ :
  Forall2 (holds_floats σ) vs ds →
  ∃ σ', generator σ' = snd (bstrap_decades bs_iter unit ds (generator σ))
    ∧ unchanged (dom (objects σ)) σ σ'
    ∧ match fst (bstrap_decades bs_iter unit ds (generator σ)) with
      | Ok bs =>
          ∃ ls, cmd_map (bstrap_decade_obj bs_iter unit) vs σ = (Ok ls, σ')
                ∧ Forall2 (λ l b, objects σ' !! l = Some (VFloat <$> b)) ls bs
      | Raise err =>
          cmd_map (bstrap_decade_obj bs_iter unit) vs σ = (Raise err, σ')
      end.
Proof.
  revert ds σ. induction vs as [|v vs IH]; intros ds σ Hvs.
  { apply Forall2_nil_inv_l in Hvs as ->. exists σ. simpl.
    split; [done|]. split; [by apply unchanged_refl|].
    exists []. split; [done|constructor]. }
  apply Forall2_cons_inv_l in Hvs as (d & ds' & Hv & Hvs & ->).
  destruct (bstrap_decade_obj_run bs_iter unit v d σ Hv) as (σ1 & Hg1 & Hrun1).
  pose proof (bstrap_decade_obj_frames (dom (objects σ)) bs_iter unit v σ)
    as Hframe1.
  cbn [bstrap_decades cmd_map].
  destruct (bstrap_decade bs_iter unit d (generator σ)) as [[b|err] g1];
    simpl in Hg1, Hrun1.
  2: { exists σ1. rewrite (cmd_bind_Raise _ _ _ _ _ Hrun1). simpl.
       split; [done|]. split; [|done].
       specialize (Hframe1 (reflexivity _)). by rewrite Hrun1 in Hframe1. }
  destruct Hrun1 as (l1 & Hrun1 & Hl1).
  specialize (Hframe1 (reflexivity _)). rewrite Hrun1 in Hframe1.
  simpl in Hframe1.
  assert (Forall2 (holds_floats σ1) vs ds') as Hvs1.
  { eapply Forall2_impl; [exact Hvs|]. intros v' d' Hv'.
    by apply (holds_floats_unchanged σ). }
  destruct (IH ds' σ1 Hvs1) as (σ2 & Hg2 & Hframe2 & Hrun2).
  rewrite (cmd_bind_Ok _ _ _ _ _ Hrun1). rewrite Hg1 in *.
  exists σ2.
  assert (unchanged (dom (objects σ)) σ σ2) as Hframe.
  { eapply unchanged_trans; [exact Hframe1|].
    eapply unchanged_mono; [|exact Hframe2]. by destruct Hframe1. }
  destruct (bstrap_decades bs_iter unit ds' g1) as [[bs|err] g2];
    simpl in Hg2, Hrun2; simpl.
  - destruct Hrun2 as (ls & Hrun2 & Hls).
    split; [done|]. split; [done|].
    exists (l1 :: ls). rewrite (cmd_bind_Ok _ _ _ _ _ Hrun2). split; [done|].
    constructor; [|done].
    destruct Hframe2 as [_ Heq]. rewrite Heq; [done|].
    apply elem_of_dom. by eexists.
  - split; [done|]. split; [done|].
    by rewrite (cmd_bind_Raise _ _ _ _ _ Hrun2).
Qed.


(** [bstrap] on list objects returns new arrays with the bootstrap means
    that [bstrap] on values returns, draws the same numbers and raises the
    same exception; and it leaves every list object as it was. *)
Lemma bstrap_obj_run (bs_iter : nat) (vs : list (value F))
    (ds : list (list F)) σ :
  Forall2 (holds_floats σ) vs ds →
  ∃ σ', generator σ' = snd (bstrap bs_iter ds (generator σ))
    ∧ unchanged (dom (objects σ)) σ σ'
    ∧ match fst (bstrap bs_iter ds (generator σ)) with
      | Ok bs =>
          ∃ ls, bstrap_obj bs_iter vs σ = (Ok ls, σ')
                ∧ Forall2 (λ l b, objects σ' !! l = Some (VFloat <$> b)) ls bs
      | Raise err => bstrap_obj bs_iter vs σ = (Raise err, σ')
      end.
Proof.
  intros Hvs. pose proof (Forall2_length _ _ _ Hvs) as Hlen.
  unfold bstrap_obj, bstrap. rewrite Hlen.
  destruct (length ds =? 4)%nat eqn:E4.
  - rewrite bind_pure_Ok.
    destruct (bstrap_decades_obj_run bs_iter 1 (take 4 vs) (take 4 ds) σ)
      as (σ1 & Hg1 & Hframe1 & Hrun1); [by apply Forall2_take|].
    exists σ1.
    destruct (bstrap_decades bs_iter 1 (take 4 ds) (generator σ))
      as [[bs|err] g1]; simpl in *.
    + destruct Hrun1 as (ls & Hrun1 & Hls). split; [done|]. split; [done|].
      exists ls. by rewrite (cmd_bind_Ok _ _ _ _ _ Hrun1).
    + split; [done|]. split; [done|].
      by rewrite (cmd_bind_Raise _ _ _ _ _ Hrun1).
  - destruct (length ds =? 5)%nat eqn:E5.
    2: { exists σ. simpl. split; [done|]. split; [|done].
         by apply unchanged_refl. }
    rewrite bind_pure_Ok.
    destruct (bstrap_decades_obj_run bs_iter 1000 (take 4 vs) (take 4 ds) σ)
      as (σ1 & Hg1 & Hframe1 & Hrun1); [by apply Forall2_take|].
    destruct (bstrap_decades bs_iter 1000 (take 4 ds) (generator σ))
      as [[bs|err] g1]; simpl in Hg1, Hrun1.
    2: { exists σ1. split; [done|]. split; [done|].
         by rewrite (cmd_bind_Raise _ _ _ _ _ Hrun1). }
    destruct Hrun1 as (ls & Hrun1 & Hls).
    rewrite (cmd_bind_Ok _ _ _ _ _ Hrun1).
    destruct (bstrap_decades_obj_run bs_iter 1000 (drop 4 vs) (drop 4 ds) σ1)
      as (σ2 & Hg2 & Hframe2 & Hrun2).
    { apply Forall2_drop. eapply Forall2_impl; [exact Hvs|].
      intros v d Hv. by apply (holds_floats_unchanged σ). }
    rewrite Hg1 in *. exists σ2.
    assert (unchanged (dom (objects σ)) σ σ2) as Hframe.
    { eapply unchanged_trans; [exact Hframe1|].
      eapply unchanged_mono; [|exact Hframe2]. by destruct Hframe1. }
    destruct (bstrap_decades bs_iter 1000 (drop 4 ds) g1)
      as [[bs10|err] g2]; simpl in Hg2, Hrun2; simpl.
    + destruct Hrun2 as (ls10 & Hrun2 & Hls10).
      split; [done|]. split; [done|].
      exists (ls ++ ls10). rewrite (cmd_bind_Ok _ _ _ _ _ Hrun2).
      split; [done|]. apply Forall2_app; [|done].
      eapply Forall2_impl; [exact Hls|]. intros l b Hl. cbv beta in Hl |- *.
      destruct Hframe2 as [_ Heq]. rewrite Heq; [done|].
      apply elem_of_dom. by eexists.
    + split; [done|]. split; [done|].
      by rewrite (cmd_bind_Raise _ _ _ _ _ Hrun2).
Qed.
End BstrapObjRuns.

Section LocAverageObjRuns.
Context {F : Type} `{PyFloat F} {G : Type} `{RandomState G}.
Implicit Types (σ : store F G) (names : list string)
  (data : list (list string)).

(** Binds are nested to the right before a step is taken. *)
Ltac flat := cbv beta; rewrite ?cmd_bind_assoc; cbv beta.

Lemma read_rows_run (rows : list (value F)) (region : list (list string)) σ :
  Forall2 (λ row_ref row,
             ∃ l', row_ref = VRef l' ∧ objects σ !! l' = Some (VStr <$> row))
    rows region →
  cmd_map (λ row, cells ← deref row;
                  pure_result (comprehension as_str cells)) rows σ =
    (Ok region, σ).
Proof.
  induction 1 as [|row_ref row rows region (l' & -> & Hl') _ IH]; [done|].
  cbn [cmd_map].
  assert ((cells ← deref (VRef l');
           pure_result (comprehension as_str cells)) σ = (Ok row, σ)) as Hrow.
  { cbn [deref]. rewrite (bind_contents _ _ _ _ Hl').
    by rewrite comprehension_as_str. }
  rewrite (cmd_bind_Ok _ _ _ _ _ Hrow).
  by rewrite (cmd_bind_Ok _ _ _ _ _ IH).
Qed.

Lemma read_table_run (v : value F) (region : list (list string)) σ :
  holds_table σ v region → read_table v σ = (Ok region, σ).
Proof.
  intros (l & rows & -> & Hl & Hrows). unfold read_table. cbn [deref].
  rewrite (bind_contents _ _ _ _ Hl). by apply read_rows_run.
Qed.

(** Reading [regions[m]]: the rows of the region, or the [IndexError] of
    the index. *)
Lemma read_region_run (regions : positive) (rs : list (list (list string)))
    (m : Z) {B} (k : list (list string) → cmd F G B) σ :
  holds_regions σ regions rs →
  (regs ← contents regions;
   region ← pure_result (py_getitem regs m);
   table ← read_table region;
   k table) σ =
  match py_getitem rs m with
  | Ok region => k region σ
  | Raise err => (Raise err, σ)
  end.
Proof.
  intros (refs & Hregs & Hrefs). rewrite (bind_contents _ _ _ _ Hregs).
  pose proof (py_getitem_Forall2 _ refs rs m Hrefs) as Hget.
  destruct (py_getitem refs m) as [v|err], (py_getitem rs m) as [region|err'];
    try done.
  - rewrite bind_pure_Ok. by rewrite (cmd_bind_Ok _ _ _ _ _ (read_table_run _ _ _ Hget)).
  - by subst.
Qed.

(** The loop that fills [loc_name_unique]. *)
Lemma unique_loop_run (loc_name : list string) (lu : positive)
    (positions : list nat) (xs u : list string) σ :
  Forall2 (λ i x, loc_name !! i = Some x) positions xs →
  objects σ !! lu = Some (VStr <$> u) →
  cmd_for
    (λ (_ : unit) (i : nat),
       name ← pure_result (py_getitem loc_name (Z.of_nat i));
       unique ← contents lu;
       unique ← pure_result (comprehension as_str unique);
       if bool_decide (name ∈ unique) then mret ()
       else list_append lu (VStr name))
    positions () σ =
  (Ok (),
   Store (<[lu := VStr <$>
                    foldl (λ u x, if bool_decide (x ∈ u) then u else u ++ [x])
                      u xs]> (objects σ)) (generator σ)).
Proof.
  intros Hxs. revert u σ.
  induction Hxs as [|i x positions xs Hi _ IH]; intros u σ Hlu.
  { destruct σ as [objs g]. simpl in *. by rewrite insert_id. }
  cbn [cmd_for foldl]. rewrite (py_getitem_lookup _ _ _ Hi).
  flat. rewrite bind_pure_Ok. flat. rewrite (bind_contents _ _ _ _ Hlu).
  flat. rewrite comprehension_as_str, bind_pure_Ok. flat.
  destruct (bool_decide (x ∈ u)).
  - rewrite bind_ret. by apply IH.
  - rewrite (bind_append _ _ _ _ _ Hlu).
    rewrite (IH (u ++ [x])); simpl.
    + by rewrite insert_insert_eq.
    + by rewrite lookup_insert_eq, fmap_app.
Qed.

(** The new lists [loc70] to [loc10]: distinct new objects without
    members. *)
Lemma new_lists_run {X} (xs : list X) σ :
  ∃ ls σ',
    cmd_map (λ _ : X, new_list (F:=F) (G:=G) []) xs σ = (Ok ls, σ')
    ∧ length ls = length xs
    ∧ NoDup ls
    ∧ (∀ l, l ∈ ls → l ∉ dom (objects σ))
    ∧ generator σ' = generator σ
    ∧ Forall (λ l, objects σ' !! l = Some []) ls
    ∧ (∀ l, l ∉ ls → objects σ' !! l = objects σ !! l).
Proof.
  revert σ. induction xs as [|x xs IH]; intros σ.
  { exists [], σ. repeat split; try done; [constructor|set_solver]. }
  cbn [cmd_map]. rewrite bind_new_list.
  set (l := fresh (dom (objects σ))).
  set (σ1 := Store (<[l := []]> (objects σ)) (generator σ)).
  destruct (IH σ1) as (ls & σ' & Hrun & Hlen & Hnd & Hfresh & Hg & Hls & Hrest).
  assert (l ∉ ls) as Hl.
  { intros Hin. apply (Hfresh _ Hin). simpl. set_solver. }
  exists (l :: ls), σ'. rewrite (cmd_bind_Ok _ _ _ _ _ Hrun).
  split; [done|]. split; [simpl; lia|]. split; [by constructor|].
  split.
  { intros l' [->|Hin]%elem_of_cons; [apply is_fresh|].
    intros Hd. apply (Hfresh _ Hin). simpl. set_solver. }
  split; [done|]. split.
  { constructor; [|done]. rewrite (Hrest _ Hl). simpl.
    by rewrite lookup_insert_eq. }
  intros l' Hl'. apply not_elem_of_cons in Hl' as [Hne Hl'].
  rewrite (Hrest _ Hl'). simpl. by rewrite lookup_insert_ne.
Qed.

(** The loop that fills [loc_index] for the location [j]. *)
Lemma index_loop_run (loc_name : list string) (lu li : positive)
    (unique : list string) (j : nat) (name : string)
    (positions idx : list nat) σ :
  unique !! j = Some name →
  li ≠ lu →
  objects σ !! lu = Some (VStr <$> unique) →
  objects σ !! li = Some ((λ i, VInt (Z.of_nat i)) <$> idx) →
  Forall (λ i, (i < length loc_name)%nat) positions →
  cmd_for
    (λ (_ : unit) (i : nat),
       name ← pure_result (py_getitem loc_name (Z.of_nat i));
       unique ← contents lu;
       name_j ← pure_result (py_getitem unique (Z.of_nat j));
       name_j ← pure_result (as_str name_j);
       if String.eqb name name_j
       then list_append li (VInt (Z.of_nat i))
       else mret ())
    positions () σ =
  (Ok (),
   Store (<[li := (λ i, VInt (Z.of_nat i)) <$>
                    (idx ++ filter (λ i, loc_name !! i = Some name)
                              positions)]> (objects σ)) (generator σ)).
Proof.
  intros Hj Hne Hlu Hli Hpos. revert idx σ Hlu Hli.
  induction Hpos as [|i positions Hi _ IH]; intros idx σ Hlu Hli.
  { destruct σ as [objs g]. simpl in *.
    by rewrite filter_nil, app_nil_r, insert_id. }
  cbn [cmd_for].
  destruct (lookup_lt_is_Some_2 _ _ Hi) as [x Hx].
  rewrite (py_getitem_lookup _ _ _ Hx).
  flat. rewrite bind_pure_Ok. flat. rewrite (bind_contents _ _ _ _ Hlu).
  rewrite (py_getitem_lookup _ j (VStr name))
    by (by rewrite list_lookup_fmap, Hj).
  flat. rewrite bind_pure_Ok. cbn [as_str].
  flat. rewrite bind_pure_Ok, filter_cons. flat.
  destruct (String.eqb_spec x name) as [->|Hxn].
  - rewrite decide_True by done. rewrite (bind_append _ _ _ _ _ Hli).
    rewrite (IH (idx ++ [i])); simpl.
    + by rewrite insert_insert_eq, <- app_assoc.
    + by rewrite lookup_insert_ne.
    + by rewrite lookup_insert_eq, fmap_app.
  - rewrite decide_False by congruence. rewrite bind_ret. by apply IH.
Qed.

(** The loop over [k] reads [loc_index] and changes no object. *)
Lemma sums_loop_run (li : positive) (indices : list nat)
    (data : list (list string)) (ks positions : list nat)
    (accs : list (F * nat)) σ :
  objects σ !! li = Some ((λ i, VInt (Z.of_nat i)) <$> indices) →
  Forall2 (λ k i, indices !! k = Some i) ks positions →
  cmd_for
    (λ (accs : list (F * nat)) (k : nat),
       indices ← contents li;
       i ← pure_result (py_getitem indices (Z.of_nat k));
       i ← pure_result (as_int i);
       pure_result (accumulate_row (Z.to_nat i) data accs))
    ks accs σ =
  (for_each (λ accs i, accumulate_row i data accs) positions accs, σ).
Proof.
  intros Hli Hks. revert accs.
  induction Hks as [|k i ks positions Hk _ IH]; intros accs; [done|].
  cbn [cmd_for for_each].
  flat. rewrite (bind_contents _ _ _ _ Hli).
  rewrite (py_getitem_lookup _ k (VInt (Z.of_nat i)))
    by (by rewrite list_lookup_fmap, Hk).
  flat. rewrite bind_pure_Ok. cbn [as_int].
  flat. rewrite bind_pure_Ok, Nat2Z.id. flat.
  destruct (accumulate_row i data accs) as [accs'|err].
  - rewrite bind_pure_Ok. apply IH.
  - by rewrite bind_pure_Raise.
Qed.

(** Lists that are the same in two stores hold the same floats. *)
Lemma holds_lists_agree σ σ' (ls : list positive) (locs : list (list F)) :
  (∀ l, l ∈ ls → objects σ' !! l = objects σ !! l) →
  Forall2 (λ l b, objects σ !! l = Some (VFloat <$> b)) ls locs →
  Forall2 (λ l b, objects σ' !! l = Some (VFloat <$> b)) ls locs.
Proof.
  intros Heq Hls. induction Hls as [|l b ls locs Hl _ IH]; constructor.
  - rewrite Heq; [done|]. by left.
  - apply IH. intros l' Hl'. apply Heq. by right.
Qed.

(** The appends of one location: every decade list gets its mean, or is
    left as it is, and no other object changes. *)
Lemma append_loop_run (li : positive) (indices : list (value F))
    (ls : list positive) (locs : list (list F)) (accs : list (F * nat)) σ :
  objects σ !! li = Some indices →
  li ∉ ls →
  NoDup ls →
  length accs = length ls →
  Forall2 (λ l b, objects σ !! l = Some (VFloat <$> b)) ls locs →
  ∃ σ',
    cmd_for
      (λ (_ : unit) '(loc, acc),
         indices ← contents li;
         if bool_decide (0 < Z.of_nat (length indices) - Z.of_nat (snd acc))
         then list_append loc
                (VFloat (f_div (fst acc)
                   (f_of_nat (length indices - snd acc))))
         else mret ())
      (zip ls accs) () σ = (Ok (), σ')
    ∧ generator σ' = generator σ
    ∧ (∀ l, l ∉ ls → objects σ' !! l = objects σ !! l)
    ∧ Forall2 (λ l b, objects σ' !! l = Some (VFloat <$> b)) ls
        (zip_with (append_mean (length indices)) locs accs).
Proof.
  revert locs accs σ.
  induction ls as [|l ls IH]; intros locs accs σ Hli Hnin Hnd Hlen Hls.
  { apply Forall2_nil_inv_l in Hls as ->. destruct accs; [|done].
    exists σ. by repeat split. }
  apply Forall2_cons_inv_l in Hls as (b & locs' & Hl & Hls & ->).
  destruct accs as [|acc accs]; [done|].
  apply not_elem_of_cons in Hnin as [Hne Hnin].
  apply NoDup_cons in Hnd as [Hl' Hnd].
  cbn [zip zip_with cmd_for]. flat. rewrite (bind_contents _ _ _ _ Hli). flat.
  set (σ1 := if bool_decide (0 < Z.of_nat (length indices) - Z.of_nat (snd acc))
             then Store (<[l := (VFloat <$> b) ++
                              [VFloat (f_div (fst acc)
                                 (f_of_nat (length indices - snd acc)))]]>
                           (objects σ)) (generator σ)
             else σ).
  assert (generator σ1 = generator σ) as Hg1.
  { unfold σ1. by destruct (bool_decide _). }
  assert (∀ l', l' ≠ l → objects σ1 !! l' = objects σ !! l') as Hrest1.
  { intros l' Hl'l. unfold σ1. destruct (bool_decide _); [|done].
    simpl. by rewrite lookup_insert_ne. }
  assert (objects σ1 !! l
          = Some (VFloat <$> append_mean (length indices) b acc)) as Hl1.
  { unfold σ1, append_mean. destruct (bool_decide _); [|done].
    simpl. by rewrite lookup_insert_eq, fmap_app. }
  destruct (IH locs' accs σ1) as (σ' & Hrun & Hg & Hrest & Hls');
    [by rewrite Hrest1|done|done|simpl in Hlen; lia| |].
  { apply (holds_lists_agree σ); [|done]. intros l' Hin. apply Hrest1.
    intros ->. done. }
  exists σ'. split.
  { unfold σ1 in Hrun. destruct (bool_decide _).
    - by rewrite (bind_append _ _ _ _ _ Hl).
    - by rewrite bind_ret. }
  split; [congruence|]. split.
  { intros l' [Hl'l Hl'ls]%not_elem_of_cons.
    by rewrite (Hrest _ Hl'ls), Hrest1. }
  constructor; [|done]. by rewrite (Hrest _ Hl').
Qed.

Lemma accumulate_row_length (i : nat) (data : list (list string))
    (accs accs' : list (F * nat)) :
  accumulate_row i data accs = Ok accs' →
  length accs = length data → length accs' = length data.
Proof.
  revert accs accs'.
  induction data as [|col data IH]; intros [|acc accs] accs' Hrun Hlen;
    simplify_eq/=; [done|].
  destruct (accumulate i col acc) as [acc'|]; [|done]. simpl in Hrun.
  destruct (accumulate_row i data accs) as [rest|] eqn:Erest; [|done].
  simplify_eq/=. f_equal. by apply (IH accs).
Qed.

Lemma sums_length (positions : list nat) (data : list (list string))
    (accs accs' : list (F * nat)) :
  for_each (λ accs i, accumulate_row i data accs) positions accs = Ok accs' →
  length accs = length data → length accs' = length data.
Proof.
  revert accs. induction positions as [|i positions IH]; intros accs Hrun Hlen;
    simplify_eq/=; [done|].
  destruct (accumulate_row i data accs) as [accs1|] eqn:E1; [|done].
  apply (IH accs1); [done|]. by apply (accumulate_row_length i data accs).
Qed.

Lemma location_step_length (loc_name : list string)
    (data : list (list string)) (locs locs' : list (list F)) (name : string) :
  location_step loc_name data locs name = Ok locs' →
  length locs = length data → length locs' = length data.
Proof.
  unfold location_step. intros Hrun Hlen.
  destruct (for_each _ _ _) as [accs|] eqn:Eaccs; [|done].
  simplify_eq/=. apply sums_length in Eaccs; [|by rewrite length_fmap].
  rewrite length_zip_with. lia.
Qed.

Lemma Forall2_seq_lookup {A} (l : list A) :
  Forall2 (λ i x, l !! i = Some x) (seq 0 (length l)) l.
Proof.
  apply Forall2_same_length_lookup_2; [by rewrite length_seq|].
  intros i k x Hk Hx. apply lookup_seq in Hk as [-> _]. done.
Qed.

(** The body of the loop over [j], on objects. *)
Local Abbreviation location_body :=
  (λ (loc_name : list string) (data : list (list string)) (lu : positive)
     (ls : list positive) (_ : unit) (j : nat),
     loc_index ← new_list [];
     _ ← cmd_for
           (λ (_ : unit) (i : nat),
              name ← pure_result (py_getitem loc_name (Z.of_nat i));
              unique ← contents lu;
              name_j ← pure_result (py_getitem unique (Z.of_nat j));
              name_j ← pure_result (as_str name_j);
              if String.eqb name name_j
              then list_append loc_index (VInt (Z.of_nat i))
              else mret ())
           (seq 0 (length loc_name)) ();
     indices ← contents loc_index;
     accs ← cmd_for
              (λ (accs : list (F * nat)) (k : nat),
                 indices ← contents loc_index;
                 i ← pure_result (py_getitem indices (Z.of_nat k));
                 i ← pure_result (as_int i);
                 pure_result (accumulate_row (Z.to_nat i) data accs))
              (seq 0 (length indices))
              ((λ _ : list string, (f_of_nat 0, 0%nat)) <$> data);
     cmd_for
       (λ (_ : unit) '(loc, acc),
          indices ← contents loc_index;
          if bool_decide (0 < Z.of_nat (length indices)
                              - Z.of_nat (snd acc))
          then list_append loc
                 (VFloat (f_div (fst acc)
                    (f_of_nat (length indices - snd acc))))
          else mret ())
       (zip ls accs) ()).

(** One location, on objects: the decade lists get what [location_step]
    gives them, and the objects that were there before, the decade lists
    apart, are as they were. *)
Lemma location_step_run (loc_name : list string) (data : list (list string))
    (lu : positive) (ls : list positive) (unique : list string)
    (locs : list (list F)) (j : nat) (name : string) σ :
  unique !! j = Some name →
  objects σ !! lu = Some (VStr <$> unique) →
  lu ∉ ls →
  NoDup ls →
  length locs = length data →
  Forall2 (λ l b, objects σ !! l = Some (VFloat <$> b)) ls locs →
  ∃ σ',
    generator σ' = generator σ
    ∧ (∀ l, l ∈ dom (objects σ) → l ∉ ls →
            objects σ' !! l = objects σ !! l)
    ∧ match location_step loc_name data locs name with
      | Ok locs' =>
          location_body loc_name data lu ls () j σ = (Ok (), σ')
          ∧ Forall2 (λ l b, objects σ' !! l = Some (VFloat <$> b)) ls locs'
      | Raise err =>
          location_body loc_name data lu ls () j σ = (Raise err, σ')
      end.
Proof.
  intros Hj Hlu Hluls Hnd Hlen Hls. cbv beta. rewrite bind_new_list.
  set (li := fresh (dom (objects σ))).
  set (σ1 := Store (<[li := []]> (objects σ)) (generator σ)).
  assert (li ∉ dom (objects σ)) as Hfresh by apply is_fresh.
  assert (li ≠ lu) as Hne.
  { intros ->. apply Hfresh, elem_of_dom. by eexists. }
  assert (li ∉ ls) as Hlils.
  { intros Hin. apply Hfresh, elem_of_dom.
    apply list_elem_of_lookup in Hin as [n Hn].
    destruct (Forall2_lookup_l _ _ _ _ _ Hls Hn) as (b & _ & Hb).
    by eexists. }
  assert (cmd_for
            (λ (_ : unit) (i : nat),
               name ← pure_result (py_getitem loc_name (Z.of_nat i));
               unique ← contents lu;
               name_j ← pure_result (py_getitem unique (Z.of_nat j));
               name_j ← pure_result (as_str name_j);
               if String.eqb name name_j
               then list_append li (VInt (Z.of_nat i))
               else mret ())
            (seq 0 (length loc_name)) () σ1 =
          (Ok (),
           Store (<[li := (λ i, VInt (Z.of_nat i)) <$>
                            loc_index_of loc_name name]> (objects σ))
             (generator σ))) as Hindex.
  { rewrite (index_loop_run loc_name lu li unique j name _ [] σ1 Hj Hne).
    - simpl. by rewrite insert_insert_eq.
    - simpl. by rewrite lookup_insert_ne.
    - simpl. by rewrite lookup_insert_eq.
    - apply Forall_forall. intros i Hi. apply elem_of_seq in Hi. lia. }
  rewrite (cmd_bind_Ok _ _ _ _ _ Hindex); clear Hindex.
  set (loc_index := loc_index_of loc_name name).
  set (indices := (λ i, VInt (Z.of_nat i)) <$> loc_index).
  set (σ2 := Store (<[li := indices]> (objects σ)) (generator σ)).
  assert (objects σ2 !! li = Some indices) as Hli by apply lookup_insert_eq.
  assert (length indices = length loc_index) as Hn
    by apply length_fmap.
  rewrite (bind_contents _ _ _ _ Hli).
  rewrite (cmd_bind_run _ _ _ _ _
             (sums_loop_run li loc_index data (seq 0 (length indices))
                loc_index _ σ2 Hli
                (eq_rect_r (λ n, Forall2 _ (seq 0 n) loc_index)
                   (Forall2_seq_lookup loc_index) Hn))).
  unfold location_step. fold loc_index.
  destruct (for_each _ loc_index _) as [accs|err] eqn:Eaccs; simpl.
  2: { exists σ2. split; [done|]. split; [|done].
       intros l Hl _. simpl. rewrite lookup_insert_ne; [done|].
       intros <-. done. }
  apply sums_length in Eaccs; [|by rewrite length_fmap].
  destruct (append_loop_run li indices ls locs accs σ2 Hli Hlils Hnd)
    as (σ' & Hrun & Hg & Hrest & Hls').
  { rewrite Eaccs, <- Hlen. symmetry. by eapply Forall2_length. }
  { apply (holds_lists_agree σ); [|done]. intros l Hl. simpl.
    rewrite lookup_insert_ne; [done|]. by intros <-. }
  exists σ'. split; [by rewrite Hg|]. split.
  { intros l Hl Hlls. rewrite (Hrest _ Hlls). simpl.
    rewrite lookup_insert_ne; [done|]. by intros <-. }
  split; [done|]. by rewrite <- Hn.
Qed.

(** The loop over [j], on objects. *)
Lemma locations_loop_run (loc_name : list string) (data : list (list string))
    (lu : positive) (ls : list positive) (unique : list string)
    (js : list nat) (names : list string) (locs : list (list F)) σ :
  Forall2 (λ j name, unique !! j = Some name) js names →
  objects σ !! lu = Some (VStr <$> unique) →
  lu ∉ ls →
  NoDup ls →
  length locs = length data →
  Forall2 (λ l b, objects σ !! l = Some (VFloat <$> b)) ls locs →
  ∃ σ',
    generator σ' = generator σ
    ∧ (∀ l, l ∈ dom (objects σ) → l ∉ ls →
            objects σ' !! l = objects σ !! l)
    ∧ match for_each (location_step loc_name data) names locs with
      | Ok locs' =>
          cmd_for (location_body loc_name data lu ls) js () σ = (Ok (), σ')
          ∧ Forall2 (λ l b, objects σ' !! l = Some (VFloat <$> b)) ls locs'
      | Raise err =>
          cmd_for (location_body loc_name data lu ls) js () σ
            = (Raise err, σ')
      end.
Proof.
  intros Hjs. revert locs σ.
  induction Hjs as [|j name js names Hj _ IH];
    intros locs σ Hlu Hluls Hnd Hlen Hls.
  { exists σ. by repeat split. }
  cbn [for_each cmd_for].
  destruct (location_step_run loc_name data lu ls unique locs j name σ
              Hj Hlu Hluls Hnd Hlen Hls) as (σ1 & Hg1 & Hrest1 & Hrun1).
  destruct (location_step loc_name data locs name) as [locs1|err] eqn:Estep.
  2: { exists σ1. rewrite (cmd_bind_Raise _ _ _ _ _ Hrun1). by repeat split. }
  destruct Hrun1 as [Hrun1 Hls1].
  rewrite (cmd_bind_Ok _ _ _ _ _ Hrun1). simpl.
  assert (objects σ1 !! lu = Some (VStr <$> unique)) as Hlu1.
  { rewrite Hrest1; [done| |done]. apply elem_of_dom. by eexists. }
  apply location_step_length in Estep; [|done].
  destruct (IH locs1 σ1 Hlu1 Hluls Hnd Estep Hls1)
    as (σ' & Hg & Hrest & Hrun).
  exists σ'. split; [congruence|]. split; [|done].
  intros l Hl Hlls. rewrite Hrest, Hrest1; try done.
  apply elem_of_dom. rewrite Hrest1 by done. by apply elem_of_dom.
Qed.

(** The lists that are returned are new copies of the decade lists. *)
Lemma copy_lists_run (ls : list positive) (locs : list (list F)) σ :
  Forall2 (λ l b, objects σ !! l = Some (VFloat <$> b)) ls locs →
  ∃ ls' σ',
    cmd_map (λ loc, xs ← contents loc; new_list xs) ls σ = (Ok ls', σ')
    ∧ generator σ' = generator σ
    ∧ (∀ l, l ∈ dom (objects σ) → objects σ' !! l = objects σ !! l)
    ∧ Forall2 (λ l b, objects σ' !! l = Some (VFloat <$> b)) ls' locs.
Proof.
  revert locs σ. induction ls as [|l ls IH]; intros locs σ Hls.
  { apply Forall2_nil_inv_l in Hls as ->. exists [], σ.
    by repeat split. }
  apply Forall2_cons_inv_l in Hls as (b & locs' & Hl & Hls & ->).
  cbn [cmd_map]. flat. rewrite (bind_contents _ _ _ _ Hl). flat.
  rewrite bind_new_list.
  set (l' := fresh (dom (objects σ))).
  set (σ1 := Store (<[l' := VFloat <$> b]> (objects σ)) (generator σ)).
  assert (l' ∉ dom (objects σ)) as Hfresh by apply is_fresh.
  assert (∀ l0, l0 ∈ dom (objects σ) → objects σ1 !! l0 = objects σ !! l0)
    as Hrest1.
  { intros l0 Hl0. simpl. rewrite lookup_insert_ne; [done|]. by intros <-. }
  destruct (IH locs' σ1) as (ls' & σ' & Hrun & Hg & Hrest & Hls').
  { apply (holds_lists_agree σ); [|done]. intros l0 Hl0. apply Hrest1.
    apply list_elem_of_lookup in Hl0 as [n Hn].
    destruct (Forall2_lookup_l _ _ _ _ _ Hls Hn) as (b0 & _ & Hb0).
    apply elem_of_dom. by eexists. }
  exists (l' :: ls'), σ'. rewrite (cmd_bind_Ok _ _ _ _ _ Hrun).
  split; [done|]. split; [done|]. split.
  { intros l0 Hl0. rewrite Hrest, Hrest1; [done..|].
    simpl. set_solver. }
  constructor; [|done]. rewrite Hrest; simpl; [|set_solver].
  by rewrite lookup_insert_eq.
Qed.

Lemma new_lists_hold σ (ls : list positive) (n : nat) :
  length ls = n →
  Forall (λ l, objects σ !! l = Some []) ls →
  Forall2 (λ l (b : list F), objects σ !! l = Some (VFloat <$> b)) ls
    (replicate n []).
Proof.
  intros <- Hls. induction Hls as [|l ls Hl _ IH]; simpl; by constructor.
Qed.

(** [loc_average] from the first loop on, on objects. *)
Lemma locations_run (loc_name : list string) (data : list (list string)) σ :
  ∃ σ',
    generator σ' = generator σ
    ∧ match for_each (location_step loc_name data)
              (loc_name_unique_of loc_name) (replicate (length data) []) with
      | Ok locs =>
          ∃ ls,
            (loc_name_unique ← new_list [];
             _ ← cmd_for
                   (λ (_ : unit) (i : nat),
                      name ← pure_result (py_getitem loc_name (Z.of_nat i));
                      unique ← contents loc_name_unique;
                      unique ← pure_result (comprehension as_str unique);
                      if bool_decide (name ∈ unique) then mret ()
                      else list_append loc_name_unique (VStr name))
                   (seq 0 (length loc_name)) ();
             locs ← cmd_map (λ _ : list string, new_list []) data;
             unique ← contents loc_name_unique;
             _ ← cmd_for (location_body loc_name data loc_name_unique locs)
                   (seq 0 (length unique)) ();
             cmd_map (λ loc, xs ← contents loc; new_list xs) locs) σ
            = (Ok ls, σ')
            ∧ Forall2 (λ l b, objects σ' !! l = Some (VFloat <$> b)) ls locs
      | Raise err =>
          (loc_name_unique ← new_list [];
           _ ← cmd_for
                 (λ (_ : unit) (i : nat),
                    name ← pure_result (py_getitem loc_name (Z.of_nat i));
                    unique ← contents loc_name_unique;
                    unique ← pure_result (comprehension as_str unique);
                    if bool_decide (name ∈ unique) then mret ()
                    else list_append loc_name_unique (VStr name))
                 (seq 0 (length loc_name)) ();
           locs ← cmd_map (λ _ : list string, new_list []) data;
           unique ← contents loc_name_unique;
           _ ← cmd_for (location_body loc_name data loc_name_unique locs)
                 (seq 0 (length unique)) ();
           cmd_map (λ loc, xs ← contents loc; new_list xs) locs) σ
          = (Raise err, σ')
      end.
Proof.
  rewrite bind_new_list.
  set (lu := fresh (dom (objects σ))).
  set (σ1 := Store (<[lu := []]> (objects σ)) (generator σ)).
  set (unique := loc_name_unique_of loc_name).
  set (σ2 := Store (<[lu := VStr <$> unique]> (objects σ)) (generator σ)).
  assert (cmd_for
            (λ (_ : unit) (i : nat),
               name ← pure_result (py_getitem loc_name (Z.of_nat i));
               unique ← contents lu;
               unique ← pure_result (comprehension as_str unique);
               if bool_decide (name ∈ unique) then mret ()
               else list_append lu (VStr name))
            (seq 0 (length loc_name)) () σ1 = (Ok (), σ2)) as Hunique.
  { rewrite (unique_loop_run loc_name lu _ loc_name [] σ1
               (Forall2_seq_lookup loc_name)).
    - unfold σ2. simpl. by rewrite insert_insert_eq.
    - simpl. by rewrite lookup_insert_eq. }
  rewrite (cmd_bind_Ok _ _ _ _ _ Hunique); clear Hunique.
  destruct (new_lists_run data σ2)
    as (ls & σ3 & Hnew & Hlen & Hnd & Hfresh & Hg3 & Hempty & Hrest3).
  rewrite (cmd_bind_Ok _ _ _ _ _ Hnew); clear Hnew.
  assert (lu ∉ ls) as Hluls.
  { intros Hin. apply (Hfresh _ Hin). simpl. set_solver. }
  assert (objects σ3 !! lu = Some (VStr <$> unique)) as Hlu3.
  { rewrite (Hrest3 _ Hluls). simpl. by rewrite lookup_insert_eq. }
  rewrite (bind_contents _ _ _ _ Hlu3), length_fmap.
  destruct (locations_loop_run loc_name data lu ls unique
              (seq 0 (length unique)) unique (replicate (length data) []) σ3
              (Forall2_seq_lookup unique) Hlu3 Hluls Hnd
              (length_replicate _ _) (new_lists_hold σ3 ls _ Hlen Hempty))
    as (σ4 & Hg4 & _ & Hloop).
  destruct (for_each _ unique _) as [locs|err].
  2: { exists σ4. rewrite (cmd_bind_Raise _ _ _ _ _ Hloop).
       split; [|done]. by rewrite Hg4, Hg3. }
  destruct Hloop as [Hloop Hls4].
  rewrite (cmd_bind_Ok _ _ _ _ _ Hloop); clear Hloop.
  destruct (copy_lists_run ls locs σ4 Hls4) as (ls' & σ' & Hcopy & Hg & _ & Hls').
  exists σ'. split; [by rewrite Hg, Hg4, Hg3|].
  exists ls'. by split.
Qed.

(** [loc_average] on list objects returns new lists with the location
    means that [loc_average] on values returns, raises the same exception,
    and leaves every list object that was there as it was. *)
Lemma loc_average_obj_run (regions : positive)
    (rs : list (list (list string))) (m s e : Z) σ :
  holds_regions σ regions rs →
  ∃ σ',
    generator σ' = generator σ
    ∧ unchanged (dom (objects σ)) σ σ'
    ∧ match loc_average (F:=F) rs m s e with
      | Ok locs =>
          ∃ ls, loc_average_obj regions m s e σ = (Ok ls, σ')
                ∧ Forall2 (λ l b, objects σ' !! l = Some (VFloat <$> b))
                    ls locs
      | Raise err => loc_average_obj regions m s e σ = (Raise err, σ')
      end.
Proof.
  intros Hrs.
  pose proof (loc_average_obj_frames (dom (objects σ)) regions m s e σ
                (reflexivity _)) as Hframe.
  cut (∃ σ',
         generator σ' = generator σ
         ∧ match loc_average (F:=F) rs m s e with
           | Ok locs =>
               ∃ ls, loc_average_obj regions m s e σ = (Ok ls, σ')
                     ∧ Forall2 (λ l b, objects σ' !! l = Some (VFloat <$> b))
                         ls locs
           | Raise err => loc_average_obj regions m s e σ = (Raise err, σ')
           end).
  { intros (σ' & Hg & Hrun). exists σ'. split; [done|]. split; [|done].
    destruct (loc_average rs m s e) as [locs|err].
    - destruct Hrun as (ls & Hrun & _). by rewrite Hrun in Hframe.
    - by rewrite Hrun in Hframe. }
  clear Hframe. unfold loc_average_obj, loc_average.
  rewrite (read_region_run regions rs m _ σ Hrs).
  destruct (py_getitem rs m) as [region|err] eqn:Eregion; simpl;
    [|by exists σ].
  destruct (py_getitem (zip_star region) 0) as [loc_name|err]; simpl;
    [|by exists σ].
  rewrite bind_pure_Ok.
  destruct (e - s =? 4) eqn:E4; [|destruct (e - s =? 5) eqn:E5].
  - assert ((regs' ← contents regions;
             region' ← pure_result (py_getitem regs' m);
             table' ← read_table region';
             d ← pure_result (unpack 4 (py_slice (zip_star table') s e));
             mret (rate, d)) σ
            = (d ← unpack 4 (py_slice (zip_star region) s e); Ok (rate, d),
               σ)) as Hblock.
    { rewrite (read_region_run regions rs m _ σ Hrs), Eregion.
      by destruct (unpack 4 _). }
    rewrite (cmd_bind_run _ _ _ _ _ Hblock); clear Hblock.
    destruct (unpack 4 _) as [data|err] eqn:Edata; simpl; [|by exists σ].
    unfold unpack in Edata.
    destruct (length _ =? 4)%nat eqn:Elen; simplify_eq.
    apply Nat.eqb_eq in Elen.
    change [[]; []; []; []] with (replicate 4 (@nil F)). rewrite <- Elen.
    apply locations_run.
  - assert ((regs' ← contents regions;
             region' ← pure_result (py_getitem regs' m);
             table' ← read_table region';
             d ← pure_result (unpack 5 (py_slice (zip_star table') s e));
             mret (PD, d)) σ
            = (d ← unpack 5 (py_slice (zip_star region) s e); Ok (PD, d),
               σ)) as Hblock.
    { rewrite (read_region_run regions rs m _ σ Hrs), Eregion.
      by destruct (unpack 5 _). }
    rewrite (cmd_bind_run _ _ _ _ _ Hblock); clear Hblock.
    destruct (unpack 5 _) as [data|err] eqn:Edata; simpl; [|by exists σ].
    unfold unpack in Edata.
    destruct (length _ =? 5)%nat eqn:Elen; simplify_eq.
    apply Nat.eqb_eq in Elen.
    change [[]; []; []; []; []] with (replicate 5 (@nil F)). rewrite <- Elen.
    apply locations_run.
  - by exists σ.
Qed.
End LocAverageObjRuns.

(** The sample store holds the sample table and the sample densities. *)
Example africa_store_holds :
  holds_regions Sample.africa_store 1%positive [Sample.africa]
  ∧ Forall2 (holds_floats Sample.africa_store) Sample.density_refs
      Sample.densities.
Proof.
  split.
  - eexists. split; [reflexivity|]. constructor; [|constructor].
    eexists _, _. split; [reflexivity|]. split; [reflexivity|].
    repeat constructor; eexists; (split; [reflexivity|]); reflexivity.
  - repeat constructor; eexists; (split; [reflexivity|]); reflexivity.
Qed.

(** * Further properties of the script *)

(** ** The lines and the rows of the input file *)

Lemma Forall_filter_keep {A} (P Q : A → Prop) `{!∀ x, Decision (Q x)}
    (l : list A) :
  Forall P l → Forall P (filter Q l).
Proof.
  rewrite !Forall_forall. intros Hl x [_ Hx]%list_elem_of_filter. auto.
Qed.

Section Lines.
Implicit Types (x y : string) (l : list string).

Lemma py_remove_first x l :
  (0 < py_count x l)%nat →
  ∃ l', py_remove x l = Ok l'
        ∧ filter (λ y, y ≠ x) l' = filter (λ y, y ≠ x) l
        ∧ S (py_count x l') = py_count x l.
Proof.
  unfold py_count. induction l as [|y l IH]; simpl; [lia|].
  rewrite !filter_cons. destruct (decide (y = x)) as [->|Hne].
  - intros _. exists l. rewrite decide_False by (by intros []). done.
  - rewrite decide_True by done. intros Hc.
    destruct (IH Hc) as (l' & -> & Hf & Hn). exists (y :: l'). simpl.
    rewrite !filter_cons, decide_True, decide_False, Hf by done. done.
Qed.

Lemma filter_count_0 x l :
  py_count x l = 0%nat → filter (λ y, y ≠ x) l = l.
Proof.
  unfold py_count. induction l as [|y l IH]; [done|].
  rewrite !filter_cons. destruct (decide (y = x)) as [->|Hne]; simpl; [lia|].
  rewrite decide_True by done. intros Hc. by rewrite IH.
Qed.

(** The loop ends when it may test its condition once more than the list
    has members [x]; it never raises, and it leaves the other members in
    their order. *)
Lemma remove_all_filter (fuel : nat) x l :
  (py_count x l < fuel)%nat →
  remove_all fuel x l = Some (Ok (filter (λ y, y ≠ x) l)).
Proof.
  revert l. induction fuel as [|fuel IH]; intros l Hfuel; [lia|].
  simpl. case_bool_decide as Hc.
  - destruct (py_remove_first x l Hc) as (l' & -> & Hf & Hn).
    rewrite IH by lia. by rewrite Hf.
  - rewrite filter_count_0 by lia. done.
Qed.

Lemma py_count_le x l : (py_count x l ≤ length l)%nat.
Proof. unfold py_count. apply length_filter. Qed.

Lemma filter_not_missing l :
  filter (λ y, y ≠ " ") (filter (λ y, y ≠ EmptyString) l)
  = filter (λ y, ¬ missing y) l.
Proof.
  induction l as [|y l IH]; [done|]. rewrite !filter_cons.
  unfold missing in *.
  destruct (decide (y ≠ EmptyString)) as [Hne|He].
  - rewrite filter_cons.
    destruct (decide (y ≠ " ")) as [Hns|Hs].
    + rewrite decide_True by tauto. by rewrite IH.
    + rewrite decide_False by tauto. done.
  - rewrite decide_False by tauto. done.
Qed.
End Lines.

Section Texts.
Implicit Types (c : ascii) (s : string).

Lemma str_split_not_nil c s : str_split c s ≠ [].
Proof.
  destruct s as [|a s]; simpl; [done|].
  destruct (Ascii.eqb a c); [done|]. by destruct (str_split c s).
Qed.

(** Joining what [split] gives with the separator gives the text back. *)
Lemma str_join_split c s :
  str_join (String c EmptyString) (str_split c s) = s.
Proof.
  induction s as [|a s IH]; [done|]. simpl.
  destruct (Ascii.eqb_spec a c) as [->|Hne].
  - pose proof (str_split_not_nil c s) as Hnil.
    destruct (str_split c s) as [|w ws]; [done|].
    change (str_join (String c EmptyString) (EmptyString :: w :: ws))
      with (String c (str_join (String c EmptyString) (w :: ws))).
    by rewrite IH.
  - pose proof (str_split_not_nil c s) as Hnil.
    destruct (str_split c s) as [|w ws]; [done|].
    destruct ws as [|w' ws]; simpl in *; by rewrite <- IH.
Qed.

(** No part that [split] gives holds the separator, and a character that
    the text does not hold is in none of them. *)
Lemma str_split_characters c s :
  Forall (λ w, (c ∉ characters w)
               ∧ ∀ a, a ∈ characters w → a ∈ characters s)
    (str_split c s).
Proof.
  unfold characters. induction s as [|a s IH]; simpl.
  { repeat constructor; [by intros ?%elem_of_nil|done]. }
  destruct (Ascii.eqb_spec a c) as [->|Hne].
  - constructor.
    + split; [by intros ?%elem_of_nil|]. by intros a ?%elem_of_nil.
    + eapply Forall_impl; [exact IH|]. intros w [Hw Hin]. split; [done|].
      intros a Ha. right. by apply Hin.
  - pose proof (str_split_not_nil c s) as Hnil.
    destruct (str_split c s) as [|w ws]; [done|].
    apply Forall_cons in IH as [[Hw Hin] IH]. constructor.
    + simpl. split.
      * intros [?|?]%elem_of_cons; [congruence|done].
      * intros b [->|Hb]%elem_of_cons; [by left|]. right. by apply Hin.
    + eapply Forall_impl; [exact IH|]. intros w' [Hw' Hin']. split; [done|].
      intros b Hb. right. by apply Hin'.
Qed.
End Texts.

(** X1. The two loops [while file_lines.count(x) > 0: file_lines.remove(x)]
    end, never raise, and remove exactly the lines [''] and [' ']: what is
    left are the other lines of the file in their order, and these are the
    lines that [data_items_of] works on. *)
Theorem blank_lines_removed (file_data : string) (fuel : nat) :
  (length (str_split newline file_data) < fuel)%nat →
  ∃ lines1 lines2,
    remove_all fuel EmptyString (str_split newline file_data)
      = Some (Ok lines1)
    ∧ remove_all fuel " " lines1 = Some (Ok lines2)
    ∧ lines2 = filter (λ l, ¬ missing l) (str_split newline file_data)
    ∧ data_items_of file_data =
        match lines2 with
        | [] => Raise IndexError
        | title_line :: file_lines => Ok (str_split comma <$> file_lines)
        end.
Proof.
  intros Hfuel.
  set (file_lines := str_split newline file_data) in *.
  exists (filter (λ y, y ≠ EmptyString) file_lines),
         (filter (λ y, y ≠ " ") (filter (λ y, y ≠ EmptyString) file_lines)).
  split; [|split; [|split]].
  - apply remove_all_filter. pose proof (py_count_le EmptyString file_lines).
    lia.
  - apply remove_all_filter.
    pose proof (py_count_le " " (filter (λ y, y ≠ EmptyString) file_lines)).
    pose proof (length_filter (λ y, y ≠ EmptyString) file_lines). lia.
  - apply filter_not_missing.
  - reflexivity.
Qed.

Lemma blank_lines_removed_witness :
  ∃ lines1 lines2,
    remove_all 40 EmptyString
        (str_split newline (Sample.file_of Sample.data_items))
      = Some (Ok lines1)
    ∧ remove_all 40 " " lines1 = Some (Ok lines2)
    ∧ lines2 = filter (λ l, ¬ missing l)
                 (str_split newline (Sample.file_of Sample.data_items))
    ∧ data_items_of (Sample.file_of Sample.data_items) =
        match lines2 with
        | [] => Raise IndexError
        | title_line :: file_lines => Ok (str_split comma <$> file_lines)
        end.
Proof.
  apply (blank_lines_removed (Sample.file_of Sample.data_items) 40).
  vm_compute. lia.
Defined.

(** X2. The header line is taken with [pop(0)]: a file whose lines are all
    [''] or [' '], the empty file among them, ends the script with an
    [IndexError]; every other file gives its rows, one for each line after
    the header that is not [''] or [' ']. *)
Theorem data_items_of_blank_file (file_data : string) :
  (data_items_of file_data = Raise IndexError
   ↔ Forall missing (str_split newline file_data))
  ∧ match data_items_of file_data with
    | Ok rows =>
        S (length rows)
        = length (filter (λ l, ¬ missing l) (str_split newline file_data))
    | Raise err => err = IndexError
    end
  ∧ data_items_of EmptyString = Raise IndexError.
Proof.
  unfold data_items_of. fold newline. rewrite filter_not_missing.
  set (file_lines := str_split newline file_data).
  split; [|split; [|done]].
  - split.
    + intros Hrun. apply Forall_forall. intros l Hl.
      destruct (decide (missing l)) as [|Hl']; [done|].
      assert (l ∈ filter (λ l, ¬ missing l) file_lines) as Hin
        by (by apply list_elem_of_filter).
      destruct (filter _ file_lines); [by apply elem_of_nil in Hin|done].
    + intros Hall.
      destruct (filter _ file_lines) as [|l ls] eqn:E; [done|].
      assert (l ∈ filter (λ l, ¬ missing l) file_lines) as Hin
        by (rewrite E; by left).
      apply list_elem_of_filter in Hin as [Hl Hin].
      rewrite Forall_forall in Hall. destruct (Hl (Hall _ Hin)).
  - destruct (filter _ file_lines) as [|l ls]; [done|].
    simpl. by rewrite length_fmap.
Qed.

(** X3. Nothing of a data line is lost: the rows are the lines of the file
    after the header that are not [''] or [' '], each one split at its
    commas, so that a row joined with commas is its line again; a row has a
    field at least, and no field holds a comma or a line break. *)
Theorem data_lines_round_trip (file_data : string)
    (rows : list (list string)) :
  data_items_of file_data = Ok rows →
  ∃ title_line,
    filter (λ l, ¬ missing l) (str_split newline file_data)
      = title_line :: (str_join "," <$> rows)
    ∧ Forall (λ row, row ≠ []
                     ∧ Forall (λ field, (comma ∉ characters field)
                                        ∧ (newline ∉ characters field)) row)
        rows.
Proof.
  unfold data_items_of. fold newline comma. rewrite filter_not_missing.
  pose proof (str_split_characters newline file_data) as Hlines.
  apply (Forall_filter_keep _ (λ l, ¬ missing l)) in Hlines.
  destruct (filter _ (str_split newline file_data)) as [|title_line file_lines];
    [done|].
  intros [= <-]. exists title_line. split.
  - f_equal. rewrite <- list_fmap_compose.
    rewrite <- (list_fmap_id file_lines) at 1. apply list_fmap_ext.
    intros _ l _. simpl. symmetry. apply (str_join_split comma).
  - apply Forall_cons in Hlines as [_ Hlines].
    apply Forall_fmap. eapply Forall_impl; [exact Hlines|].
    intros l [Hnl _]. simpl. split; [apply str_split_not_nil|].
    eapply Forall_impl; [apply str_split_characters|].
    intros field [Hc Hin]. split; [done|]. intros Hf. by apply Hnl, Hin.
Qed.

Lemma data_lines_round_trip_witness :
  ∃ title_line,
    filter (λ l, ¬ missing l)
        (str_split newline (Sample.file_of Sample.data_items))
      = title_line :: (str_join "," <$> Sample.data_items)
    ∧ Forall (λ row, row ≠ []
                     ∧ Forall (λ field, (comma ∉ characters field)
                                        ∧ (newline ∉ characters field)) row)
        Sample.data_items.
Proof.
  apply (data_lines_round_trip (Sample.file_of Sample.data_items)
           Sample.data_items).
  vm_compute. reflexivity.
Defined.

(** ** The groups and the cohorts: rows that cannot be read *)

Section Comprehensions.
Context {X Y : Type}.

Lemma comprehension_Ok_Forall2 (f : X → result Y) (xs : list X)
    (ys : list Y) :
  comprehension f xs = Ok ys → Forall2 (λ x y, f x = Ok y) xs ys.
Proof.
  revert ys. induction xs as [|x xs IH]; intros ys; simpl.
  { intros [= <-]. constructor. }
  destruct (f x) as [y|] eqn:Ex; simpl; [|done].
  destruct (comprehension f xs) as [ys'|]; simpl; [|done].
  intros [= <-]. constructor; [done|]. by apply IH.
Qed.

Lemma comprehension_Raise_Exists (f : X → result Y) (xs : list X)
    (err : exn) :
  comprehension f xs = Raise err → Exists (λ x, f x = Raise err) xs.
Proof.
  induction xs as [|x xs IH]; simpl; [done|].
  destruct (f x) as [y|e] eqn:Ex; simpl.
  - destruct (comprehension f xs) as [ys'|e]; simpl; [done|].
    intros [= <-]. right. by apply IH.
  - intros [= <-]. by left.
Qed.

(** A comprehension whose body computes and then builds is the
    comprehension of what is computed, and then the building. *)
Lemma comprehension_then {Z} (g : X → result Z) (h : X → Z → Y)
    (xs : list X) :
  comprehension (λ x, z ← g x; Ok (h x z)) xs =
    zs ← comprehension g xs; Ok (zip_with h xs zs).
Proof.
  induction xs as [|x xs IH]; [done|]. simpl.
  destruct (g x) as [z|]; simpl; [|done]. rewrite IH.
  by destruct (comprehension g xs).
Qed.
End Comprehensions.

Section ShortRows.
Implicit Types (row : list string) (data_items : list (list string)).

Lemma py_getitem_short row (i : nat) :
  (length row ≤ i)%nat → py_getitem row (Z.of_nat i) = Raise IndexError.
Proof. intros Hi. by rewrite py_getitem_nat, lookup_ge_None_2. Qed.

Lemma py_getitem_long row (i : nat) (field : string) :
  py_getitem row (Z.of_nat i) = Ok field → (i < length row)%nat.
Proof.
  rewrite py_getitem_nat. destruct (row !! i) eqn:E; [|done].
  intros _. by apply lookup_lt_Some in E.
Qed.

(** The test of the third field stops at the first row that has none. *)
Lemma group_short_row (region : string) data_items :
  Exists (λ row, (length row < 3)%nat) data_items →
  comprehension_if
    (λ data_line, field ← py_getitem data_line 2;
                  Ok (String.eqb field region))
    data_items = Raise IndexError.
Proof.
  induction data_items as [|row data_items IH]; [by intros ?%Exists_nil|].
  intros Hex. simpl.
  destruct (py_getitem row 2) as [field|err] eqn:Efield; simpl.
  2: { by apply py_getitem_error in Efield as ->. }
  apply (py_getitem_long row 2) in Efield.
  apply Exists_cons in Hex as [Hrow|Hex]; [lia|]. by rewrite IH.
Qed.
End ShortRows.

Lemma group_short_regions (data_items : list (list string)) :
  Exists (λ row, (length row < 3)%nat) data_items →
  regions_of data_items = Raise IndexError.
Proof.
  intros Hex. unfold regions_of, region_unique. cbn [for_each].
  by rewrite (group_short_row "N Am" data_items Hex).
Qed.

(** X4. A data line with fewer than three fields ends the grouping of the
    rows with an [IndexError], since the region is read as
    [data_line[2]]; the grouping fails in no other way. *)
Theorem regions_of_short_row (data_items : list (list string)) :
  (regions_of data_items = Raise IndexError
   ↔ Exists (λ row, (length row < 3)%nat) data_items)
  ∧ (∀ err, regions_of data_items = Raise err → err = IndexError).
Proof.
  assert (Exists (λ row, (length row < 3)%nat) data_items →
          regions_of data_items = Raise IndexError) as Hshort.
  { apply group_short_regions. }
  assert (¬ Exists (λ row, (length row < 3)%nat) data_items →
          is_ok (regions_of data_items) = true) as Hlong.
  { intros Hex. rewrite regions_of_filter; [done|].
    apply Forall_forall. intros row Hrow.
    destruct (decide (2 < length row)%nat) as [|Hlen]; [done|].
    destruct Hex. apply Exists_exists. exists row. split; [done|lia]. }
  split; [split; [|done]|].
  - intros Hrun.
    destruct (decide (Exists (λ row, (length row < 3)%nat) data_items))
      as [|Hex]; [done|].
    apply Hlong in Hex. by rewrite Hrun in Hex.
  - intros err Hrun.
    destruct (decide (Exists (λ row, (length row < 3)%nat) data_items))
      as [Hex|Hex].
    + rewrite (Hshort Hex) in Hrun. congruence.
    + apply Hlong in Hex. by rewrite Hrun in Hex.
Qed.

Section CohortRows.
Context {F : Type} `{PyFloat F}.

(** [float(x[8])]. *)
Local Abbreviation population x := (py_getitem x 8 ≫= py_float (F:=F)).

Lemma cohort_test (t : F → bool) (region : list (list string)) :
  comprehension_if
    (λ x, field ← py_getitem x 8; v ← py_float field; Ok (t v)) region =
  vs ← comprehension (λ x, population x) region;
  Ok (fst <$> filter (λ p, t (snd p) = true) (zip region vs)).
Proof.
  induction region as [|x region IH]; [done|]. simpl.
  destruct (py_getitem x 8) as [field|]; simpl; [|done].
  destruct (py_float field) as [v|]; simpl; [|done].
  rewrite IH. destruct (comprehension _ region) as [vs|]; simpl; [|done].
  rewrite filter_cons. simpl. by destruct (t v).
Qed.

Lemma cohorts_test (t : F → bool) (allregions : list (list (list string))) :
  comprehension
    (λ region_line,
       comprehension_if
         (λ x, field ← py_getitem x 8; v ← py_float field; Ok (t v))
         region_line)
    allregions =
  vss ← comprehension (comprehension (λ x, population x)) allregions;
  Ok (zip_with
        (λ region vs,
           fst <$> filter (λ p, t (snd p) = true) (zip region vs))
        allregions vss).
Proof.
  induction allregions as [|region allregions IH]; [done|].
  cbn [comprehension]. rewrite cohort_test, IH.
  destruct (comprehension _ region) as [vs|]; simpl; [|done].
  by destruct (comprehension (comprehension _) allregions).
Qed.

Lemma population_Ok (x : list string) (v : F) :
  population x = Ok v →
  ∃ field, x !! 8%nat = Some field ∧ float_of_str field = Some v.
Proof.
  change 8 with (Z.of_nat 8). rewrite py_getitem_nat.
  destruct (x !! 8%nat) as [field|]; simpl; [|done].
  unfold py_float. destruct (float_of_str field) as [v'|] eqn:E; [|done].
  intros [= <-]. by exists field.
Qed.

Lemma population_Raise (x : list string) (err : exn) :
  population x = Raise err →
  (err = IndexError ∧ (length x ≤ 8)%nat)
  ∨ (err = ValueError
     ∧ ∃ field, x !! 8%nat = Some field ∧ float_of_str (F:=F) field = None).
Proof.
  change 8 with (Z.of_nat 8). rewrite py_getitem_nat.
  destruct (x !! 8%nat) as [field|] eqn:Ex; simpl.
  - unfold py_float. destruct (float_of_str field) as [v'|] eqn:E; [done|].
    intros [= <-]. right. split; [done|]. by exists field.
  - intros [= <-]. left. split; [done|]. by apply lookup_ge_None in Ex.
Qed.
End CohortRows.

(** X5. The two cohorts are made from the same [float(x[8])] of the same
    rows in the same order: when the cohort above is made, every row has a
    field 8 that [float] accepts, and the cohort below is made too; when not,
    one row has no field 8 ([IndexError]) or a field 8 that is no number
    ([ValueError]), and the cohort below would fail with the same
    exception. *)
Theorem cohorts_fail_together {F : Type} `{PyFloat F}
    (allregions : list (list (list string))) :
  match aboveregions_of (F:=F) allregions,
        belowregions_of (F:=F) allregions with
  | Ok above, Ok below =>
      Forall (Forall (λ x, ∃ field (v : F),
                        x !! 8%nat = Some field
                        ∧ float_of_str field = Some v)) allregions
  | Raise err, Raise err' =>
      err = err'
      ∧ Exists (Exists (λ x,
          (err = IndexError ∧ (length x ≤ 8)%nat)
          ∨ (err = ValueError
             ∧ ∃ field, x !! 8%nat = Some field
                        ∧ float_of_str (F:=F) field = None))) allregions
  | _, _ => False
  end.
Proof.
  unfold aboveregions_of, belowregions_of.
  rewrite (cohorts_test (λ v, f_gt v (f_of_nat 2000))).
  rewrite (cohorts_test (λ v, f_le v (f_of_nat 2000))).
  destruct (comprehension _ allregions) as [vss|err] eqn:E; simpl.
  - apply comprehension_Ok_Forall2 in E. apply Forall_forall.
    intros region Hregion.
    apply list_elem_of_lookup in Hregion as [i Hi].
    destruct (Forall2_lookup_l _ _ _ _ _ E Hi) as (vs & _ & Hvs).
    apply comprehension_Ok_Forall2 in Hvs. apply Forall_forall.
    intros x Hx. apply list_elem_of_lookup in Hx as [j Hj].
    destruct (Forall2_lookup_l _ _ _ _ _ Hvs Hj) as (v & _ & Hv).
    apply population_Ok in Hv as (field & Hfield & Hv). by exists field, v.
  - split; [done|]. apply comprehension_Raise_Exists in E.
    eapply Exists_impl; [exact E|]. intros region Hregion.
    apply comprehension_Raise_Exists in Hregion.
    eapply Exists_impl; [exact Hregion|]. intros x Hx. cbv beta in Hx.
    by apply population_Raise.
Qed.

(** ** [loc_average]: tables with short rows, locations with one study *)

Section Columns.
Context {A : Type}.
Implicit Types (rows : list (list A)).

(** A table has no more columns than its shortest row has cells. *)
Lemma zip_star_length_le rows (row : list A) :
  row ∈ rows → (length (zip_star rows) ≤ length row)%nat.
Proof.
  induction rows as [|r rs IH]; [by intros ?%elem_of_nil|].
  destruct rs as [|r' rs'].
  - intros ->%list_elem_of_singleton.
    by rewrite zip_star_singleton, length_fmap.
  - rewrite zip_star_cons, length_zip_with.
    intros [->|Hin]%elem_of_cons; [lia|]. specialize (IH Hin). lia.
Qed.

Lemma zip_star_not_nil rows :
  rows ≠ [] → Forall (λ row, row ≠ []) rows → zip_star rows ≠ [].
Proof.
  intros Hrows Hall.
  destruct (zip_star_column_exists rows 0 Hrows) as [col Hcol].
  { eapply Forall_impl; [exact Hall|]. intros [|x row]; simpl; [done|lia]. }
  intros Hnil. by rewrite Hnil in Hcol.
Qed.

(** A slice that starts at [s >= 0] and goes beyond the end is shorter
    than [e - s]. *)
Lemma py_slice_short (l : list A) (s e : Z) :
  0 ≤ s → Z.of_nat (length l) < e → 0 < e - s →
  (length (py_slice l s e) < Z.to_nat (e - s))%nat.
Proof.
  intros Hs He Hes. unfold py_slice.
  rewrite length_take, length_drop. z_cases; lia.
Qed.
End Columns.

(** X6. The columns of a region are made with [zip], which stops at the
    shortest row: when a row of the region has fewer than [e] fields, the
    decades [s:e] cannot be unpacked and the call ends with a [ValueError],
    or, when a row has no field at all and so there is no name column, with
    an [IndexError]. *)
Theorem loc_average_short_row {F : Type} `{PyFloat F}
    (regions : list (list (list string))) (m s e : Z)
    (region : list (list string)) :
  py_getitem regions m = Ok region →
  e - s = 4 ∨ e - s = 5 →
  0 ≤ s →
  Exists (λ row, Z.of_nat (length row) < e) region →
  loc_average (F:=F) regions m s e =
    Raise (if bool_decide (Exists (λ row, row = []) region)
           then IndexError else ValueError).
Proof.
  intros Hreg Hcnt Hs (row & Hrow & Hshort)%Exists_exists.
  unfold loc_average. rewrite Hreg. simpl. rewrite py_getitem_0.
  case_bool_decide as Hempty.
  - apply Exists_exists in Hempty as (row' & Hrow' & ->).
    pose proof (zip_star_length_le region [] Hrow') as Hlen.
    destruct (zip_star region); simpl in *; [done|lia].
  - assert (Forall (λ row, row ≠ []) region) as Hall.
    { apply Forall_forall. intros row' Hrow' ->. apply Hempty.
      apply Exists_exists. by exists []. }
    assert (region ≠ []) as Hne by (intros ->; by apply elem_of_nil in Hrow).
    pose proof (zip_star_not_nil region Hne Hall) as Hcols.
    pose proof (zip_star_length_le region row Hrow) as Hlen.
    assert (length (py_slice (zip_star region) s e) < Z.to_nat (e - s))%nat
      as Hslice by (apply py_slice_short; lia).
    destruct (zip_star region) as [|names others] eqn:E; [done|]. simpl.
    unfold unpack.
    destruct Hcnt as [Hcnt|Hcnt]; rewrite Hcnt in *; simpl.
    + rewrite (proj2 (Nat.eqb_neq _ 4)) by lia. done.
    + rewrite (proj2 (Nat.eqb_neq _ 5)) by lia. done.
Qed.

Lemma loc_average_short_row_witness :
  loc_average (F:=Exact.num) [[["Lagos"; "Nigeria"; "Africa"]]] 0 9 13 =
    Raise (if bool_decide
                (Exists (λ row, row = []) [["Lagos"; "Nigeria"; "Africa"]])
           then IndexError else ValueError).
Proof.
  apply (loc_average_short_row (F:=Exact.num)
           [[["Lagos"; "Nigeria"; "Africa"]]] 0 9 13
           [["Lagos"; "Nigeria"; "Africa"]]).
  - reflexivity.
  - by left.
  - lia.
  - left. simpl. lia.
Defined.

#[global] Instance exact_zero_sum : ZeroSum Exact.num.
Proof.
  intros [x|]; [|done]. cbn [f_add f_of_nat Exact.float Exact.add].
  change (Exact.of_nat 0) with (Some 0%Qc). cbn [Exact.add]. f_equal.
  apply Qcplus_0_l.
Qed.

Section SingleStudies.
Context {F : Type} `{PyFloat F} `{!ZeroSum F} `{!UnitDivision F}.
Implicit Types (names col : list string).

Lemma filter_other_names (x : string) names :
  x ∉ names → filter (λ y, y ≠ x) names = names.
Proof.
  induction names as [|y names IH]; [done|].
  intros [Hne Hin]%not_elem_of_cons. rewrite filter_cons.
  rewrite decide_True by done. by rewrite IH.
Qed.

Lemma first_occurrences_NoDup names :
  NoDup names → first_occurrences names = names.
Proof.
  induction 1 as [|x names Hx _ IH]; [done|]. simpl.
  by rewrite IH, filter_other_names.
Qed.

Lemma entries_other names col (name : string) :
  name ∉ names → entries names col name = [].
Proof.
  unfold entries. revert col.
  induction names as [|y names IH]; intros [|c col]; try done.
  intros [Hne Hin]%not_elem_of_cons. simpl. rewrite filter_cons. simpl.
  rewrite decide_False by done. by apply IH.
Qed.

Lemma entries_cons_eq (x c : string) names col :
  entries (x :: names) (c :: col) x = c :: entries names col x.
Proof. unfold entries. simpl. rewrite filter_cons. simpl. by rewrite decide_True. Qed.

Lemma entries_cons_ne (x y c : string) names col :
  x ≠ y → entries (x :: names) (c :: col) y = entries names col y.
Proof.
  intros Hne. unfold entries. simpl. rewrite filter_cons. simpl.
  by rewrite decide_False.
Qed.

Lemma mapM_step {X Y} (f : X → option Y) (x : X) (xs : list X) :
  mapM f (x :: xs) = y ← f x; k ← mapM f xs; Some (y :: k).
Proof. reflexivity. Qed.

(** The mean of one value is the value. *)
Lemma mean_single (v : F) : mean [v] = v.
Proof.
  unfold mean, f_sum. simpl. by rewrite f_add_0, f_div_1.
Qed.

(** What the one study of a location gives to a decade. *)
Lemma location_mean_first (x c : string) names col :
  x ∉ names →
  location_mean (F:=F) (x :: names) (c :: col) x =
    if decide (blank c = false)
    then v ← float_of_str c; Some [v]
    else Some [].
Proof.
  intros Hx. unfold location_mean, valid_entries.
  rewrite entries_cons_eq, entries_other by done.
  rewrite filter_cons, filter_nil.
  destruct (decide (blank c = false)); simpl; [|done].
  destruct (float_of_str c) as [v|]; simpl; [|done].
  by rewrite mean_single.
Qed.

(** With one study for every location, the list of a decade holds the
    values of the column. *)
Lemma decade_means_single names col :
  NoDup names → length col = length names →
  decade_means (F:=F) names col =
    mapM float_of_str (filter (λ x, blank x = false) col).
Proof.
  intros Hnd. unfold decade_means. rewrite first_occurrences_NoDup by done.
  revert col. induction Hnd as [|x names Hx Hnd IH]; intros [|c col] Hlen;
    try done.
  injection Hlen as Hlen. specialize (IH col Hlen).
  rewrite mapM_step.
  assert (mapM (location_mean (F:=F) (x :: names) (c :: col)) names
          = mapM (location_mean names col) names) as ->.
  { apply Forall_mapM_ext, Forall_forall. intros y Hy.
    unfold location_mean, valid_entries.
    rewrite entries_cons_ne; [done|]. by intros ->. }
  rewrite location_mean_first by done. rewrite filter_cons.
  destruct (decide (blank c = false)) as [Hc|Hc]; simpl.
  - destruct (float_of_str c) as [v|]; simpl; [|done].
    destruct (mapM (location_mean names col) names) as [k|]; simpl in *;
      by rewrite <- IH.
  - destruct (mapM (location_mean names col) names) as [k|]; simpl in *;
      by rewrite <- IH.
Qed.
End SingleStudies.

(** X7. Measurements with only one study at their location are not
    affected: in a region whose location names all differ, the list that
    [loc_average] returns for a decade holds the values [float(x)] of the
    cells of the column that are not blank, in row order. This needs that
    [0 + v] and [v / 1] are [v]. *)
Theorem single_studies_unaffected {F : Type} `{PyFloat F} `{!ZeroSum F}
    `{!UnitDivision F}
    (regions : list (list (list string))) (m s e : Z)
    (region : list (list string)) (names : list string)
    (others : list (list string)) :
  py_getitem regions m = Ok region →
  zip_star region = names :: others →
  e - s = 4 ∨ e - s = 5 →
  length (py_slice (zip_star region) s e) = Z.to_nat (e - s) →
  NoDup names →
  loc_average (F:=F) regions m s e =
    value_error
      (mapM (λ col, mapM float_of_str (filter (λ x, blank x = false) col))
         (py_slice (zip_star region) s e)).
Proof.
  intros Hreg Hcols Hcnt Hlen Hnd.
  rewrite (loc_average_decades regions m s e region names others) by done.
  f_equal. apply Forall_mapM_ext, py_slice_Forall.
  pose proof (zip_star_column_length region) as Hall.
  rewrite Hcols in Hall. apply Forall_cons in Hall as [Hnames Hall].
  rewrite Hcols. constructor.
  - by apply decade_means_single.
  - eapply Forall_impl; [exact Hall|]. intros col Hcol.
    apply decade_means_single; [done|congruence].
Qed.

Lemma single_studies_unaffected_witness :
  loc_average (F:=Exact.num) [[Sample.lagos_1; Sample.cairo; Sample.kano]]
      0 18 22 =
    value_error
      (mapM (λ col, mapM float_of_str (filter (λ x, blank x = false) col))
         (py_slice (zip_star [Sample.lagos_1; Sample.cairo; Sample.kano])
            18 22)).
Proof.
  apply (single_studies_unaffected (F:=Exact.num)
           [[Sample.lagos_1; Sample.cairo; Sample.kano]] 0 18 22
           [Sample.lagos_1; Sample.cairo; Sample.kano]
           ["Lagos"; "Cairo"; "Kano"]
           (tail (zip_star [Sample.lagos_1; Sample.cairo; Sample.kano]))).
  - reflexivity.
  - reflexivity.
  - by left.
  - reflexivity.
  - apply NoDup_ListNoDup. repeat constructor; simpl; intuition discriminate.
Defined.

(** ** [bstrap]: samples of one value, and the draws that are made *)

Section BstrapEdges.
Context {F : Type} `{PyFloat F} {G : Type} `{RandomState G}.

(** A resample of a sample of one value is that value. *)
Lemma bootstrapped_single `{!RandintInRange G} (bs_iter : nat) (x : F)
    (b : list F) :
  bootstrapped G bs_iter [x] b → b = replicate bs_iter (mean [x]).
Proof.
  intros (draws & _ & Hlen & Hrows & ->). subst bs_iter.
  induction Hrows as [|row draws [Hrow Hidx] _ IH]; [done|].
  simpl. f_equal; [|exact IH]. f_equal.
  destruct row as [|k [|k' row]]; simplify_eq/=.
  apply Forall_cons in Hidx as [Hk _]. by replace k with 0%nat by lia.
Qed.

(** The state of the generator after one decade. *)
Lemma bstrap_decade_generator `{!RandintInRange G} (bs_iter unit : nat)
    (d : list F) (g : G) :
  ∃ b, bstrap_decade bs_iter unit d g =
         (Ok b, generator_after bs_iter [length d] g).
Proof.
  unfold bstrap_decade, generator_after. destruct d as [|x d].
  { exists []. by rewrite bool_decide_eq_false_2 by (simpl; lia). }
  rewrite bool_decide_eq_true_2 by (simpl; lia).
  set (a := (λ x, f_div x (f_of_nat unit)) <$> (x :: d)).
  assert (a ≠ []) as Ha by done.
  rewrite (random_choice_spec a bs_iter (length a) g Ha).
  assert (length a = S (length d)) as -> by (unfold a; by rewrite length_fmap).
  eexists. simpl. done.
Qed.

Lemma generator_after_app (bs_iter : nat) (sizes sizes' : list nat) (g : G) :
  generator_after bs_iter (sizes ++ sizes') g =
    generator_after bs_iter sizes' (generator_after bs_iter sizes g).
Proof. unfold generator_after. apply foldl_app. Qed.

Lemma bstrap_decades_generator `{!RandintInRange G} (bs_iter unit : nat)
    (data : list (list F)) (g : G) :
  ∃ bs, bstrap_decades bs_iter unit data g =
          (Ok bs, generator_after bs_iter (length <$> data) g).
Proof.
  revert g. induction data as [|d data IH]; intros g; [by exists []|].
  cbn [bstrap_decades].
  destruct (bstrap_decade_generator bs_iter unit d g) as [b ->].
  destruct (IH (generator_after bs_iter [length d] g)) as [bs ->].
  exists (b :: bs). rewrite fmap_cons.
  change (length d :: (length <$> data))
    with ([length d] ++ (length <$> data)).
  by rewrite generator_after_app.
Qed.

Lemma bstrap_generator `{!RandintInRange G} (bs_iter : nat)
    (data : list (list F)) (g : G) :
  length data = 4%nat ∨ length data = 5%nat →
  snd (bstrap bs_iter data g) = generator_after bs_iter (length <$> data) g.
Proof.
  intros Hlen.
  replace (length <$> data)
    with ((length <$> take 4 data) ++ (length <$> drop 4 data))
    by (by rewrite <- fmap_app, take_drop).
  rewrite generator_after_app.
  unfold bstrap. destruct Hlen as [Hlen|Hlen]; rewrite Hlen; simpl.
  - destruct (bstrap_decades_generator bs_iter 1 (take 4 data) g) as [bs ->].
    rewrite drop_ge by lia. done.
  - destruct (bstrap_decades_generator bs_iter 1000 (take 4 data) g)
      as [bs ->].
    by destruct (bstrap_decades_generator bs_iter 1000 (drop 4 data)
                   (generator_after bs_iter (length <$> take 4 data) g))
      as [bs10 ->].
Qed.
End BstrapEdges.

(** X8. A sample of one value has a bootstrap without spread: every one of
    its [bs_iter] resamples is that value, so the array of the sample holds
    [bs_iter] times the mean of the one scaled value. *)
Theorem bstrap_single_value {F : Type} `{PyFloat F} {G : Type}
    `{RandomState G} `{!RandintInRange G}
    (bs_iter : nat) (data : list (list F)) (g : G) :
  length data = 4%nat ∨ length data = 5%nat →
  ∃ bs, fst (bstrap bs_iter data g) = Ok bs
    ∧ Forall2 (λ d b, ∀ x : F, d = [x] →
                 b = replicate bs_iter
                       (mean [f_div x (f_of_nat (unit_of (length data)))]))
        data bs.
Proof.
  intros Hk. destruct (bstrap_spec bs_iter data g Hk) as (bs & g' & Hrun & Hbs).
  exists bs. rewrite Hrun. split; [done|].
  eapply Forall2_impl; [exact Hbs|]. intros d b Hb x ->.
  by apply bootstrapped_single.
Qed.

Lemma bstrap_single_value_witness :
  ∃ bs, fst (bstrap 3 [[Exact.of_Z 7]; []; [Exact.of_Z 5]; []] Sample.seed)
          = Ok bs
    ∧ Forall2 (λ d b, ∀ x : Exact.num, d = [x] →
                 b = replicate 3 (mean [f_div x (f_of_nat (unit_of 4))]))
        [[Exact.of_Z 7]; []; [Exact.of_Z 5]; []] bs.
Proof.
  apply (bstrap_single_value 3 [[Exact.of_Z 7]; []; [Exact.of_Z 5]; []]
           Sample.seed).
  left. reflexivity.
Defined.

(** X9. The draws of [bstrap] depend on the sizes of the samples only: the
    generator is left in the state after [bs_iter] rows of [n] draws for
    every sample of [n > 0] members, in the order of the samples, so samples
    of the same sizes leave it in the same state; samples without members
    draw nothing, so that four or five empty samples leave the generator as
    it was. *)
Theorem bstrap_draws_by_size {F : Type} `{PyFloat F} {G : Type}
    `{RandomState G} `{!RandintInRange G}
    (bs_iter : nat) (data data' : list (list F)) (g : G) :
  length data = 4%nat ∨ length data = 5%nat →
  length <$> data' = length <$> data →
  snd (bstrap bs_iter data g) = generator_after bs_iter (length <$> data) g
  ∧ snd (bstrap bs_iter data' g) = snd (bstrap bs_iter data g)
  ∧ snd (bstrap bs_iter (replicate (length data) ([] : list F)) g) = g.
Proof.
  intros Hlen Hsizes. split; [by apply bstrap_generator|split].
  - assert (length data' = length data) as Hlen'.
    { by rewrite <- (length_fmap length data'), Hsizes, length_fmap. }
    rewrite !bstrap_generator by (done || by rewrite Hlen'). by rewrite Hsizes.
  - rewrite bstrap_generator by (by rewrite length_replicate).
    rewrite fmap_replicate. simpl. generalize (length data). intros k.
    induction k as [|k IH]; [done|]. exact IH.
Qed.

Lemma bstrap_draws_by_size_witness :
  snd (bstrap 3 Sample.densities Sample.seed)
    = generator_after 3 (length <$> Sample.densities) Sample.seed
  ∧ snd (bstrap 3 [[Exact.of_Z 1; Exact.of_Z 2]; [Exact.of_Z 3; Exact.of_Z 4];
                   [Exact.of_Z 5; Exact.of_Z 6]; [];
                   [Exact.of_Z 7; Exact.of_Z 8; Exact.of_Z 9]] Sample.seed)
      = snd (bstrap 3 Sample.densities Sample.seed)
  ∧ snd (bstrap 3 (replicate (length Sample.densities)
                     ([] : list Exact.num)) Sample.seed)
      = Sample.seed.
Proof.
  apply (bstrap_draws_by_size 3 Sample.densities
           [[Exact.of_Z 1; Exact.of_Z 2]; [Exact.of_Z 3; Exact.of_Z 4];
            [Exact.of_Z 5; Exact.of_Z 6]; [];
            [Exact.of_Z 7; Exact.of_Z 8; Exact.of_Z 9]] Sample.seed).
  - right. reflexivity.
  - reflexivity.
Defined.

(** ** The run as a whole: when the workbook is saved, and what a file
       without rows does *)

Section EndsWith.
Context {G F : Type} (Q : event F → Prop) (ev : event F).

Lemma ends_with_emit : ends_with (G:=G) Q ev (emit ev).
Proof. intros w. exists [ev]. simpl. split; [done|]. by exists []. Qed.

Lemma ends_with_bind {A B} (p : prog G F A) (k : A → prog G F B) :
  adds_only Q p → (∀ a, ends_with Q ev (k a)) → ends_with Q ev (p ≫= k).
Proof.
  intros Hp Hk w. destruct (Hp w) as (new1 & Hlog1 & HQ1).
  unfold mbind, prog_bind. destruct (p w) as [[a|err] w1]; simpl in *.
  - destruct (Hk a w1) as (new2 & Hlog2 & Hlast).
    exists (new1 ++ new2). rewrite Hlog2, Hlog1, <- app_assoc.
    split; [done|]. destruct (fst (k a w1)).
    + destruct Hlast as (before & -> & Hbefore).
      exists (new1 ++ before). rewrite <- app_assoc. split; [done|].
      by apply Forall_app.
    + by apply Forall_app.
  - by exists new1.
Qed.
End EndsWith.

Section WholeRun.
Context {F : Type} `{PyFloat F} `{NumpyWarnings F}
  {G : Type} `{RandomState G} `{OsPath}.

Lemma plot_cohort_not_saved (regions : list (list (list string)))
    (input_file opic_string : string) :
  adds_only not_saved (plot_cohort (G:=G) (F:=F) regions input_file opic_string).
Proof.
  unfold plot_cohort, plot_linear, plot_log, region_means_of,
    bootstrap_loop, log_loop, jitter, numpy_stat.
  only_expected.
Qed.

Lemma main_ends_with_save (input_file file_data : string) :
  ends_with not_saved (WorkbookSaved (bstrap_output_file input_file))
    (main (G:=G) (F:=F) input_file file_data).
Proof.
  unfold main.
  repeat (apply ends_with_bind;
          [first [ apply plot_cohort_not_saved
                 | apply adds_only_lift
                 | apply adds_only_emit; done ]
          |intros ?]).
  apply ends_with_emit.
Qed.

(** A file without a line to take as header, or with a data line that has
    no third field, ends the run at once. *)
Lemma main_no_rows (input_file file_data : string) (w : world G F) :
  data_items_of file_data = Raise IndexError
  ∨ (∃ data_items, data_items_of file_data = Ok data_items
                   ∧ regions_of data_items = Raise IndexError) →
  main (F:=F) input_file file_data w =
    (Raise IndexError,
     World (rng w) (log w ++ [FileOpened (summary_output_file input_file)])).
Proof.
  unfold main. unfold mbind at 1, prog_bind at 1. simpl.
  unfold mbind at 1, prog_bind at 1. unfold lift at 1.
  intros [->|(data_items & -> & Hregions)]; [done|].
  unfold mbind at 1, prog_bind at 1. unfold lift at 1. by rewrite Hregions.
Qed.
End WholeRun.

(** X10. The workbook is saved once, as the last step of the run, and only
    when nothing has raised before: a run that ends well has the saving of
    [regional_location_bstrap.xlsx] as its last event, and a run that ends
    with an exception never saves the workbook, whatever sheets were
    written to it before. *)
Theorem workbook_saved_last {F : Type} `{PyFloat F} `{NumpyWarnings F}
    {G : Type}
    `{RandomState G} `{OsPath} (input_file file_data : string) (g : G) :
  match fst (main (F:=F) input_file file_data (World g [])) with
  | Ok _ =>
      ∃ before,
        log (snd (main (F:=F) input_file file_data (World g [])))
          = before ++ [WorkbookSaved (bstrap_output_file input_file)]
        ∧ Forall not_saved before
  | Raise _ =>
      Forall not_saved
        (log (snd (main (F:=F) input_file file_data (World g []))))
  end.
Proof.
  destruct (main_ends_with_save (F:=F) (G:=G) input_file file_data
              (World g [])) as (new & Hlog & Hlast).
  simpl in Hlog. by rewrite Hlog.
Qed.

(** X11. A file that cannot give rows ends the run before anything is
    plotted: when all its lines are [''] or [' '] (no header to take), or
    when one of its data lines has fewer than three fields, the run raises
    an [IndexError] and has only opened the summary file. *)
Theorem main_without_rows {F : Type} `{PyFloat F} `{NumpyWarnings F} {G : Type}
    `{RandomState G} `{OsPath} (input_file file_data : string) (g : G) :
  Forall missing (str_split newline file_data)
  ∨ Exists (λ line, (length (str_split comma line) < 3)%nat)
      (tail (filter (λ l, ¬ missing l) (str_split newline file_data))) →
  main (F:=F) input_file file_data (World g []) =
    (Raise IndexError,
     World g [FileOpened (summary_output_file input_file)]).
Proof.
  intros Hfile.
  rewrite main_no_rows; [done|].
  unfold data_items_of. fold newline comma. rewrite filter_not_missing.
  destruct Hfile as [Hblank|Hshort].
  - left.
    destruct (filter _ (str_split newline file_data)) as [|l ls] eqn:E;
      [done|].
    assert (l ∈ filter (λ l, ¬ missing l) (str_split newline file_data))
      as Hin by (rewrite E; by left).
    apply list_elem_of_filter in Hin as [Hl Hin].
    rewrite Forall_forall in Hblank. destruct (Hl (Hblank _ Hin)).
  - right.
    destruct (filter _ (str_split newline file_data)) as [|l ls];
      [by apply Exists_nil in Hshort|].
    eexists. split; [done|]. simpl in Hshort.
    apply group_short_regions. by apply Exists_fmap.
Qed.

Lemma main_without_rows_witness :
  main (F:=Exact.num) (H2:=Posix.os_path) "data/Input.csv" EmptyString
      (World Sample.seed []) =
    (Raise IndexError,
     World Sample.seed [FileOpened (summary_output_file "data/Input.csv")]).
Proof.
  apply (main_without_rows (F:=Exact.num) "data/Input.csv" EmptyString
           Sample.seed).
  left. repeat constructor.
Defined.

(** ** The loops of [plot_linear] and [plot_log] *)

Section ProgRuns.
Context {G F : Type}.
Implicit Types (w : world G F).

Lemma prog_bind_run {A B} (p : prog G F A) (k : A → prog G F B) w r w1 :
  p w = (r, w1) →
  (p ≫= k) w = match r with Ok a => k a w1 | Raise err => (Raise err, w1) end.
Proof. intros Hp. unfold mbind, prog_bind. by rewrite Hp. Qed.

Lemma prog_bind_eq {A B} (p : prog G F A) (k : A → prog G F B) w x :
  p w = x →
  (p ≫= k) w = match x with
               | (Ok a, w1) => k a w1
               | (Raise err, w1) => (Raise err, w1)
               end.
Proof. intros <-. reflexivity. Qed.

Lemma prog_bind_lift {A B} (r : result A) (k : A → prog G F B) w :
  (lift r ≫= k) w = match r with Ok a => k a w | Raise err => (Raise err, w) end.
Proof. by apply prog_bind_run. Qed.

Lemma prog_bind_emit {B} (ev : event F) (k : unit → prog G F B) w :
  (emit ev ≫= k) w = k () (World (rng w) (log w ++ [ev])).
Proof. reflexivity. Qed.

Lemma prog_bind_ret {A B} (a : A) (k : A → prog G F B) w :
  (mret a ≫= k) w = k a w.
Proof. reflexivity. Qed.

Lemma prog_bind_assoc {A B C} (p : prog G F A) (k : A → prog G F B)
    (k' : B → prog G F C) w :
  ((p ≫= k) ≫= k') w = (p ≫= λ a, k a ≫= k') w.
Proof. unfold mbind, prog_bind. by destruct (p w) as [[a|err] w1]. Qed.
End ProgRuns.

Section Statistics.
Context {F : Type} `{PyFloat F} {G : Type} `{RandomState G}.
Implicit Types (w : world G F) (bs : list (list F)).

(** The statistics of the arrays: their warnings are dropped, and an array
    without members has [nan]. *)
Lemma stats_loop_run (stat : list F → F) (warns : list F → list warning) bs
    (acc : list F) w :
  prog_for (λ acc b, v ← numpy_stat stat warns b; mret (acc ++ [v])) bs acc w
  = (Ok (acc ++ ((λ b, match b with [] => f_nan | _ :: _ => stat b end)
                   <$> bs)),
     World (rng w) (log w ++ stat_warnings warns bs)).
Proof.
  revert acc w. induction bs as [|b bs IH]; intros acc w.
  { destruct w. simpl. by rewrite !app_nil_r. }
  cbn [prog_for]. rewrite prog_bind_assoc. unfold numpy_stat.
  rewrite prog_bind_assoc.
  rewrite (prog_bind_run _ _ _ _ _ (ignore_loop_run (warns b) w)).
  rewrite prog_bind_ret, prog_bind_ret, IH. simpl.
  unfold stat_warnings. cbn [mbind list_bind].
  by rewrite <- !app_assoc.
Qed.

Lemma jitter_run bs w :
  jitter bs w = (Ok (), World (jitter_rng bs (rng w)) (log w)).
Proof.
  unfold jitter, jitter_rng. revert w.
  induction bs as [|b bs IH]; intros w; [by destruct w|].
  cbn [prog_for foldl]. unfold mbind, prog_bind. simpl. by rewrite IH.
Qed.

Lemma numpy_mean_stat (b : list F) :
  match b with [] => f_nan | _ :: _ => numpy_mean b end = numpy_mean b.
Proof. by destruct b. Qed.

Lemma summary_stats_zip bs :
  mjoin (zip_with (λ a b, [a; b]) (numpy_mean <$> bs) (summary_median <$> bs))
  = summary_stats bs.
Proof.
  unfold summary_stats. induction bs as [|b bs IH]; [done|].
  simpl. do 2 f_equal. exact IH.
Qed.
End Statistics.

Section BootstrapLoop.
Context {F : Type} `{PyFloat F} `{NumpyWarnings F} {G : Type}
  `{RandomState G}.
Implicit Types (w : world G F) (bs : list (list F))
  (regions : list (list (list string))) (labels : list string).

(** The body of the loop over the regions. *)
Local Abbreviation bootstrap_body :=
  (λ regions (opic_string title : string) (s e : Z) labels
     '(bs_pack, bs_dict) '(m, cur_region),
     data ← lift (loc_average regions (Z.of_nat m) s e);
     data ← lift (unpack (length labels) data);
     bs ← with_rng (bstrap 1000 data);
     bs ← lift (unpack (length labels) bs);
     means ← prog_for (λ acc b, v ← numpy_stat numpy_mean mean_warnings b;
                                mret (acc ++ [v])) bs [];
     medians ← prog_for (λ acc b, v ← numpy_stat f_median median_warnings b;
                                  mret (acc ++ [v])) bs [];
     _ ← emit (SummaryWritten cur_region title opic_string
                 (mjoin (zip_with (λ a b, [a; b]) means medians)));
     let bs_dict' :=
       foldl (bs_dict_update cur_region opic_string) bs_dict
         (zip labels bs) in
     _ ← jitter bs;
     mret (M:=prog G F) (bs_pack ++ [bs], bs_dict')).

Lemma unpack_Ok {A} (n : nat) (xs ys : list A) :
  unpack n xs = Ok ys → ys = xs ∧ length xs = n.
Proof.
  unfold unpack. destruct (length xs =? n)%nat eqn:E; [|done].
  intros [= <-]. by apply Nat.eqb_eq in E.
Qed.

(** One turn of the loop: what it returns and what it adds to the log. *)
Lemma bootstrap_body_run regions (opic_string title : string) (s e : Z)
    labels (bs_pack : list (list (list F)))
    (bs_dict : list (string * list F)) (m : nat) (cur_region : string) w :
  bootstrap_body regions opic_string title s e labels (bs_pack, bs_dict)
    (m, cur_region) w =
  match loc_average regions (Z.of_nat m) s e ≫= unpack (length labels) with
  | Raise err => (Raise err, w)
  | Ok data =>
      match bstrap 1000 data (rng w) with
      | (Raise err, g') => (Raise err, World g' (log w))
      | (Ok bs0, g') =>
          match unpack (length labels) bs0 with
          | Raise err => (Raise err, World g' (log w))
          | Ok bs =>
              (Ok (bs_pack ++ [bs],
                   foldl (bs_dict_update cur_region opic_string) bs_dict
                     (zip labels bs)),
               World (jitter_rng bs g')
                 (log w ++ stat_warnings mean_warnings bs
                    ++ stat_warnings median_warnings bs
                    ++ [SummaryWritten cur_region title opic_string
                          (summary_stats bs)]))
          end
      end
  end.
Proof.
  cbv beta iota. rewrite prog_bind_lift.
  destruct (loc_average regions (Z.of_nat m) s e) as [data0|err]; [|done].
  rewrite prog_bind_lift. simpl.
  destruct (unpack (length labels) data0) as [data|err]; [|done].
  unfold mbind at 1, prog_bind at 1. unfold with_rng at 1.
  destruct (bstrap 1000 data (rng w)) as [[bs0|err] g']; [|done].
  rewrite prog_bind_lift.
  destruct (unpack (length labels) bs0) as [bs|err]; [|done].
  rewrite (prog_bind_run _ _ _ _ _
             (stats_loop_run numpy_mean mean_warnings bs [] _)).
  rewrite (prog_bind_run _ _ _ _ _
             (stats_loop_run f_median median_warnings bs [] _)).
  rewrite prog_bind_emit. cbv zeta.
  rewrite (prog_bind_run _ _ _ _ _ (jitter_run bs _)).
  simpl. rewrite <- !app_assoc. do 4 f_equal.
  rewrite <- summary_stats_zip.
  assert ((λ b : list F, match b with [] => f_nan | _ :: _ => numpy_mean b end)
            <$> bs = numpy_mean <$> bs) as ->
    by (apply list_fmap_ext; intros _ b _; by destruct b).
  done.
Qed.

Lemma omap_stat_warnings {B} (f : event F → option B)
    (warns : list F → list warning) bs :
  (∀ msg : warning, f (Ignored msg) = None) → omap f (stat_warnings warns bs) = [].
Proof.
  intros Hf. unfold stat_warnings. induction bs as [|b bs IH]; [done|].
  cbn [mbind list_bind]. rewrite omap_app, IH, app_nil_r.
  induction (warns b) as [|msg ws IHw]; [done|].
  cbn [fmap list_fmap omap list_omap]. by rewrite Hf.
Qed.

(** The loop over the regions: when it ends well, every region has given
    its bootstrap, its columns and its block of the summary, in the order
    of the regions; no sheet is written in the loop. *)
Lemma bootstrap_loop_run regions (opic_string title : string) (s e : Z)
    labels (pairs : list (nat * string)) (bs_pack : list (list (list F)))
    (bs_dict : list (string * list F)) w :
  ∃ new,
    log (snd (prog_for
                (bootstrap_body regions opic_string title s e labels)
                pairs (bs_pack, bs_dict) w)) = log w ++ new
    ∧ omap sheet_of new = []
    ∧ match fst (prog_for
                   (bootstrap_body regions opic_string title s e labels)
                   pairs (bs_pack, bs_dict) w) with
      | Ok (bs_pack', bs_dict') =>
          ∃ bss,
            bs_pack' = bs_pack ++ bss
            ∧ Forall2 (λ p bs, region_bootstrap G regions s e (length labels)
                                 (fst p) bs) pairs bss
            ∧ bs_dict' =
                foldl (λ d pb, foldl (bs_dict_update (snd (fst pb)) opic_string)
                                 d (zip labels (snd pb)))
                  bs_dict (zip pairs bss)
            ∧ omap summary_of new =
                zip_with (λ p bs, (snd p, title, opic_string, summary_stats bs))
                  pairs bss
      | Raise _ => True
      end.
Proof.
  revert bs_pack bs_dict w.
  induction pairs as [|[m cur_region] pairs IH]; intros bs_pack bs_dict w.
  { exists []. simpl. rewrite app_nil_r. repeat split; try done.
    exists []. by rewrite app_nil_r. }
  cbn [prog_for].
  rewrite (prog_bind_eq _ _ _ _
             (bootstrap_body_run regions opic_string title s e labels
                bs_pack bs_dict m cur_region w)).
  destruct (loc_average regions (Z.of_nat m) s e) as [data0|err] eqn:Eavg;
    simpl.
  2: { exists []. by rewrite app_nil_r. }
  destruct (unpack (length labels) data0) as [data|err] eqn:Edata; simpl.
  2: { exists []. by rewrite app_nil_r. }
  apply unpack_Ok in Edata as [-> Hdata].
  destruct (bstrap 1000 data0 (rng w)) as [[bs0|err] g'] eqn:Ebs; simpl.
  2: { exists []. by rewrite app_nil_r. }
  destruct (unpack (length labels) bs0) as [bs|err] eqn:Ebs0; simpl.
  2: { exists []. by rewrite app_nil_r. }
  apply unpack_Ok in Ebs0 as [-> Hbs].
  match goal with
  | |- context [prog_for _ pairs ?st ?w1] =>
      destruct (IH (fst st) (snd st) w1) as (new & Hlog & Hsheets & Hrun)
  end.
  simpl in Hlog, Hrun.
  eexists. rewrite Hlog. rewrite <- !app_assoc. split; [done|]. split.
  { rewrite !omap_app, !omap_stat_warnings by done. simpl. exact Hsheets. }
  match type of Hrun with
  | match ?r with _ => _ end => destruct r as [[bs_pack' bs_dict']|err]
  end; [|done].
  destruct Hrun as (bss & -> & Hturns & -> & Hsum).
  exists (bs0 :: bss). rewrite <- app_assoc. split; [done|]. split.
  { constructor; [|done]. exists data0, (rng w). simpl. by rewrite Ebs. }
  split; [done|].
  rewrite !omap_app, !omap_stat_warnings by done. simpl. by rewrite Hsum.
Qed.
End BootstrapLoop.

(** ** The names of the columns *)

Section Keys.
Implicit Types (a b r o l : string).

Lemma append_length a b :
  String.length (a +:+ b) = (String.length a + String.length b)%nat.
Proof. induction a as [|c a IH]; simpl; [done|]. by rewrite IH. Qed.

Lemma append_inj_length a a' b b' :
  String.length a = String.length a' →
  a +:+ b = a' +:+ b' → a = a' ∧ b = b'.
Proof.
  revert a'. induction a as [|c a IH]; intros [|c' a'] Hlen; try done.
  simpl. intros [= -> Heq]. injection Hlen as Hlen.
  destruct (IH a' Hlen Heq) as [-> ->]. done.
Qed.

(** Columns of the same length of label have the same name for the same
    region and label only. *)
Lemma column_key_inj r r' o l l' :
  String.length l = String.length l' →
  column_key r o l = column_key r' o l' →
  str_replace " "%char "_"%char r = str_replace " "%char "_"%char r'
  ∧ l = l'.
Proof.
  intros Hlen. unfold column_key.
  set (a := str_replace " "%char "_"%char r).
  set (a' := str_replace " "%char "_"%char r').
  change (str_join "_" [a; o; l]) with (a +:+ "_" +:+ o +:+ "_" +:+ l).
  change (str_join "_" [a'; o; l']) with (a' +:+ "_" +:+ o +:+ "_" +:+ l').
  intros Heq.
  assert (String.length a = String.length a') as Ha.
  { apply (f_equal String.length) in Heq.
    rewrite !append_length in Heq. simpl in Heq. lia. }
  destruct (append_inj_length _ _ _ _ Ha Heq) as [-> Hrest].
  split; [done|].
  by do 3 apply String.app_inj in Hrest.
Qed.
End Keys.

Section Sheets.
Context {F : Type} `{PyFloat F}.
Implicit Types (bs : list (list F)) (labels : list string)
  (bs_dict : list (string * list F)).

Lemma region_columns_cons (r o l : string) labels (b : list F) bs :
  region_columns r o (l :: labels) (b :: bs) =
    (if decide (b ≠ []) then [(column_key r o l, b)] else [])
    ++ region_columns r o labels bs.
Proof.
  unfold region_columns. rewrite fmap_cons. cbn [zip zip_with].
  rewrite filter_cons. simpl. by destruct (decide (b ≠ [])).
Qed.

Lemma region_columns_keys (r o : string) labels bs (c : string * list F) :
  c ∈ region_columns r o labels bs →
  ∃ l, l ∈ labels ∧ fst c = column_key r o l ∧ snd c ≠ [] ∧ snd c ∈ bs.
Proof.
  unfold region_columns. intros [Hc Hin]%list_elem_of_filter.
  destruct c as [key b]. pose proof (elem_of_zip_l _ _ _ _ Hin) as Hkey.
  apply elem_of_zip_r in Hin.
  apply list_elem_of_fmap in Hkey as (l & -> & Hl). by exists l.
Qed.

(** The inner loop over the decades adds the columns of the region. *)
Lemma update_fold (r o : string) (n : nat) labels bs bs_dict :
  NoDup labels →
  Forall (λ l, String.length l = n) labels →
  (∀ l, l ∈ labels → column_key r o l ∉ fst <$> bs_dict) →
  foldl (bs_dict_update r o) bs_dict (zip labels bs) =
    bs_dict ++ region_columns r o labels bs.
Proof.
  intros Hnd Hlen. revert bs bs_dict.
  induction Hnd as [|l labels Hl Hnd IH]; intros bs bs_dict Hfresh.
  { unfold region_columns. simpl. by rewrite app_nil_r. }
  apply Forall_cons in Hlen as [Hn Hlen].
  destruct bs as [|b bs].
  { unfold region_columns. simpl. by rewrite app_nil_r. }
  cbn [zip zip_with foldl]. rewrite region_columns_cons.
  unfold bs_dict_update at 2. cbn [fst snd]. fold (column_key r o l).
  destruct b as [|x b]; cbn [length Nat.eqb].
  - rewrite decide_False by (by intros []). apply (IH Hlen).
    intros l' Hl'. apply Hfresh. by right.
  - rewrite bool_decide_eq_false_2 by (apply Hfresh; by left).
    rewrite decide_True by done. rewrite (IH Hlen).
    + by rewrite <- app_assoc.
    + intros l' Hl'. rewrite fmap_app. simpl.
      rewrite elem_of_app, list_elem_of_singleton. intros [Hin|Heq].
      * by apply (Hfresh l'); [right|].
      * apply column_key_inj in Heq as [_ ->].
        -- done.
        -- rewrite Forall_forall in Hlen. by rewrite Hn, (Hlen _ Hl').
Qed.

(** The loop over the regions adds the columns of every region. *)
Lemma sheet_fold (o : string) (n : nat) labels
    (pairs : list (nat * string)) (bss : list (list (list F))) bs_dict :
  NoDup labels →
  Forall (λ l, String.length l = n) labels →
  NoDup (str_replace " "%char "_"%char <$> (snd <$> pairs)) →
  (∀ p l, p ∈ pairs → l ∈ labels →
          column_key (snd p) o l ∉ fst <$> bs_dict) →
  foldl (λ d pb, foldl (bs_dict_update (snd (fst pb)) o) d
                   (zip labels (snd pb)))
    bs_dict (zip pairs bss) =
  bs_dict ++ mjoin (zip_with (λ r bs, region_columns r o labels bs)
                      (snd <$> pairs) bss).
Proof.
  intros Hnd Hlen. revert bss bs_dict.
  induction pairs as [|[m r] pairs IH]; intros bss bs_dict Hregions Hfresh.
  { simpl. by rewrite app_nil_r. }
  destruct bss as [|bs bss].
  { simpl. by rewrite app_nil_r. }
  rewrite !fmap_cons in Hregions. apply NoDup_cons in Hregions as [Hr Hregions].
  cbn [zip zip_with foldl fst snd fmap list_fmap mjoin list_join].
  rewrite (update_fold r o n) by (done || (intros l Hl; apply (Hfresh (m, r)); [by left|done])).
  rewrite (IH bss _ Hregions).
  { by rewrite <- app_assoc. }
  intros p l Hp Hl. rewrite fmap_app, elem_of_app. intros [Hin|Hin].
  - apply (Hfresh p l); [by right|done|done].
  - apply list_elem_of_fmap in Hin as (c & Hkey & Hc).
    apply region_columns_keys in Hc as (l' & Hl' & Hc & _).
    rewrite Hc in Hkey. apply column_key_inj in Hkey as [Heq _].
    + cbn [snd] in Hr. apply Hr. rewrite <- Heq. apply list_elem_of_fmap.
      exists (snd p). split; [done|]. apply list_elem_of_fmap. by exists p.
    + rewrite Forall_forall in Hlen. by rewrite (Hlen _ Hl), (Hlen _ Hl').
Qed.
End Sheets.

(** ** [plot_linear] as a whole *)

Section PlotLinearRun.
Context {F : Type} `{PyFloat F} `{NumpyWarnings F}
  {G : Type} `{RandomState G} `{OsPath}.
Implicit Types (w : world G F) (regions : list (list (list string))).

Lemma omap_none {A B} (f : A → option B) (l : list A) :
  Forall (λ x, f x = None) l → omap f l = [].
Proof. induction 1 as [|x l Hx _ IH]; [done|]. simpl. by rewrite Hx. Qed.

(** The first loop writes no block of the summary and no sheet. *)
Lemma region_means_of_silent regions :
  adds_only (λ ev, summary_of ev = None ∧ sheet_of ev = None)
    (region_means_of (G:=G) (F:=F) regions).
Proof. unfold region_means_of. only_expected. Qed.

Lemma labels_distinct :
  NoDup rate_labels ∧ Forall (λ l, String.length l = 5%nat) rate_labels
  ∧ NoDup decade_labels
  ∧ Forall (λ l, String.length l = 4%nat) decade_labels
  ∧ NoDup (str_replace " "%char "_"%char <$> region_unique).
Proof.
  repeat split; try (by repeat constructor);
    apply NoDup_ListNoDup; repeat constructor; simpl; intuition discriminate.
Qed.

Lemma bootstrap_loop_sheet regions (opic_string title : string) (s e : Z)
    (labels : list string) (n : nat) w :
  NoDup labels → Forall (λ l, String.length l = n) labels →
  ∃ new,
    log (snd (bootstrap_loop regions opic_string title s e labels w))
      = log w ++ new
    ∧ omap sheet_of new = []
    ∧ match fst (bootstrap_loop regions opic_string title s e labels w) with
      | Ok (bs_pack, bs_dict) =>
          Forall2 (region_bootstrap G regions s e (length labels))
            (seq 0 (length region_unique)) bs_pack
          ∧ bs_dict = sheet_columns opic_string labels bs_pack
          ∧ omap summary_of new =
              zip_with (λ r bs, (r, title, opic_string, summary_stats bs))
                region_unique bs_pack
      | Raise _ => True
      end.
Proof.
  intros Hnd Hlen. unfold bootstrap_loop.
  destruct (bootstrap_loop_run regions opic_string title s e labels
              (zip (seq 0 (length region_unique)) region_unique) [] [] w)
    as (new & Hlog & Hsheets & Hrun).
  exists new. split; [done|]. split; [done|].
  destruct (fst (prog_for _ _ _ w)) as [[bs_pack bs_dict]|err]; [|done].
  destruct Hrun as (bss & -> & Hturns & -> & Hsum).
  set (pairs := zip (seq 0 (length region_unique)) region_unique) in *.
  change (seq 0 (length region_unique)) with (fst <$> pairs).
  unfold sheet_columns.
  change region_unique with (snd <$> pairs).
  split; [|split].
  - by apply Forall2_fmap_l.
  - rewrite (sheet_fold opic_string n labels); [done..| |].
    + apply labels_distinct.
    + intros p l _ _. by intros ?%elem_of_nil.
  - rewrite Hsum. by rewrite zip_with_fmap_l.
Qed.

(** [plot_linear] when it ends well: the bootstraps of the ten regions for
    the rates and for the densities, the two sheets, and the blocks of the
    summary. *)
Lemma plot_linear_run regions (ifile_path opic_string : string) w :
  ∃ new,
    log (snd (plot_linear regions ifile_path opic_string w)) = log w ++ new
    ∧ match fst (plot_linear regions ifile_path opic_string w) with
      | Ok (bs_pack1, bs_pack2, region_means) =>
          Forall2 (region_bootstrap G regions 18 22 4)
            (seq 0 (length region_unique)) bs_pack1
          ∧ Forall2 (region_bootstrap G regions 22 27 5)
              (seq 0 (length region_unique)) bs_pack2
          ∧ omap sheet_of new =
              [("UER_" +:+ opic_string,
                sheet_columns opic_string rate_labels bs_pack1);
               ("PD_" +:+ opic_string,
                sheet_columns opic_string decade_labels bs_pack2)]
          ∧ omap summary_of new =
              zip_with (λ r bs, (r, "Urban Expansion Rates", opic_string,
                                 summary_stats bs)) region_unique bs_pack1
              ++ zip_with (λ r bs, (r, "Population Density", opic_string,
                                    summary_stats bs)) region_unique bs_pack2
      | Raise _ => True
      end.
Proof.
  unfold plot_linear.
  destruct (region_means_of_silent regions w) as (new0 & Hlog0 & Hnew0).
  destruct (region_means_of regions w) as [[region_means|err] w0] eqn:E0;
    rewrite (prog_bind_run _ _ _ _ _ E0); simpl in Hlog0.
  2: { by exists new0. }
  destruct (bootstrap_loop_sheet regions opic_string "Urban Expansion Rates"
              18 22 rate_labels 5 w0) as (new1 & Hlog1 & Hsheets1 & Hrun1);
    [apply labels_distinct..|].
  destruct (bootstrap_loop regions opic_string "Urban Expansion Rates"
              18 22 rate_labels w0) as [[[bs_pack1 bs_dict1]|err] w1] eqn:E1;
    rewrite (prog_bind_run _ _ _ _ _ E1); simpl in Hlog1, Hrun1.
  2: { exists (new0 ++ new1). simpl. by rewrite Hlog1, Hlog0, <- app_assoc. }
  destruct Hrun1 as (Hturns1 & -> & Hsum1).
  rewrite !prog_bind_emit.
  match goal with
  | |- context [(bootstrap_loop _ _ _ _ _ _ ≫= _) ?w2] =>
      destruct (bootstrap_loop_sheet regions opic_string "Population Density"
                  22 27 decade_labels 4 w2)
        as (new2 & Hlog2 & Hsheets2 & Hrun2); [apply labels_distinct..|];
      destruct (bootstrap_loop regions opic_string "Population Density"
                  22 27 decade_labels w2)
        as [[[bs_pack2 bs_dict2]|err] w3] eqn:E2;
      rewrite (prog_bind_run _ _ _ _ _ E2); simpl in Hlog2, Hrun2
  end.
  2: { eexists. simpl. rewrite Hlog2. simpl. rewrite Hlog1, Hlog0, <- !app_assoc. done. }
  destruct Hrun2 as (Hturns2 & -> & Hsum2).
  rewrite !prog_bind_emit. simpl.
  eexists. rewrite Hlog2. simpl. rewrite Hlog1, Hlog0, <- !app_assoc.
  split; [done|]. split; [done|]. split; [done|].
  assert (omap summary_of new0 = [] ∧ omap sheet_of new0 = []) as [Hs0 Hh0].
  { split; apply omap_none; eapply Forall_impl; try exact Hnew0;
      by intros ev [? ?]. }
  rewrite !omap_app, Hs0, Hh0, Hsheets1, Hsheets2, Hsum1, Hsum2. simpl.
  split; [done|]. by rewrite app_nil_r.
Qed.
End PlotLinearRun.

(** ** What a run of [plot_linear] needs, gives and leaves to [plot_log] *)

Section AfterPlotLinear.
Context {F : Type} `{PyFloat F} `{NumpyWarnings F}
  {G : Type} `{RandomState G} `{OsPath}.
Implicit Types (w : world G F) (regions : list (list (list string))).

Lemma py_slice_full {A} (l : list A) (s e : Z) :
  0 ≤ s → 0 < e - s →
  length (py_slice l s e) = Z.to_nat (e - s) → e ≤ Z.of_nat (length l).
Proof.
  intros Hs Hes Hlen.
  destruct (decide (e ≤ Z.of_nat (length l))) as [|Hshort]; [done|].
  pose proof (py_slice_short l s e Hs) as Hlt. lia.
Qed.

(** Where [loc_average] returns, the region has rows, and every row has
    the fields up to [e]. *)
Lemma loc_average_Ok_rows regions (m : nat) (s e : Z) (data : list (list F)) :
  0 ≤ s →
  loc_average regions (Z.of_nat m) s e = Ok data →
  ∃ region, regions !! m = Some region ∧ region ≠ []
            ∧ Forall (λ row, e ≤ Z.of_nat (length row)) region.
Proof.
  intros Hs. unfold loc_average. rewrite py_getitem_nat.
  destruct (regions !! m) as [region|]; simpl; [|done].
  rewrite py_getitem_0.
  destruct (zip_star region) as [|names others] eqn:Ecols; simpl; [done|].
  intros Hrun. exists region. split; [done|]. split.
  { intros ->. done. }
  assert (0 < e - s
          ∧ length (py_slice (names :: others) s e) = Z.to_nat (e - s))
    as [Hes Hlen].
  { destruct (e - s =? 4) eqn:E4.
    - apply Z.eqb_eq in E4. rewrite E4. split; [lia|].
      unfold unpack in Hrun.
      destruct (length _ =? 4)%nat eqn:El; [|done].
      by apply Nat.eqb_eq in El.
    - destruct (e - s =? 5) eqn:E5; [|done].
      apply Z.eqb_eq in E5. rewrite E5. split; [lia|].
      unfold unpack in Hrun.
      destruct (length _ =? 5)%nat eqn:El; [|done].
      by apply Nat.eqb_eq in El. }
  apply py_slice_full in Hlen; [|done..]. rewrite <- Ecols in Hlen.
  apply Forall_forall. intros row Hrow.
  pose proof (zip_star_length_le region row Hrow). lia.
Qed.

(** The loop of [plot_log] over the regions ends well when every region
    has its bootstrap. *)
Lemma log_loop_returns regions (bs_pack : list (list (list F))) (s e : Z)
    (k : nat) (ms : list nat) w :
  Forall (λ m, ∃ bs, bs_pack !! m = Some bs
                     ∧ region_bootstrap G regions s e k m bs) ms →
  fst (prog_for
         (λ (_ : unit) m,
            bs ← lift (py_getitem bs_pack (Z.of_nat m));
            bs ← lift (unpack k bs);
            data ← lift (loc_average regions (Z.of_nat m) s e);
            data ← lift (unpack k data);
            jitter bs)
         ms () w) = Ok ().
Proof.
  intros Hms. revert w.
  induction Hms as [|m ms (bs & Hbs & data & g & Havg & Hdata & _ & Hlen) _ IH];
    intros w; [done|].
  cbn [prog_for]. rewrite prog_bind_assoc, prog_bind_lift.
  rewrite (py_getitem_nat bs_pack m), Hbs.
  rewrite prog_bind_assoc, prog_bind_lift.
  unfold unpack at 1. rewrite Hlen, Nat.eqb_refl.
  rewrite prog_bind_assoc, prog_bind_lift, Havg.
  rewrite prog_bind_assoc, prog_bind_lift.
  unfold unpack at 1. rewrite Hdata, Nat.eqb_refl.
  rewrite (prog_bind_run _ _ _ _ _ (jitter_run bs w)). apply IH.
Qed.

Lemma bootstraps_lookup regions (s e : Z) (k n : nat)
    (bs_pack : list (list (list F))) :
  Forall2 (region_bootstrap G regions s e k) (seq 0 n) bs_pack →
  Forall (λ m, ∃ bs, bs_pack !! m = Some bs
                     ∧ region_bootstrap G regions s e k m bs) (seq 0 n).
Proof.
  intros Hall. apply Forall_forall. intros m Hm.
  apply list_elem_of_lookup in Hm as [i Hi].
  destruct (Forall2_lookup_l _ _ _ _ _ Hall Hi) as (bs & Hbs & Hturn).
  apply lookup_seq in Hi as [-> _]. by exists bs.
Qed.
End AfterPlotLinear.

(** X12. [plot_linear] ends well only on complete tables: when it returns,
    each of the ten regions has at least one row, and every row of these
    regions has at least 27 fields, since the columns are made with [zip]
    and the last decade that is read is column 26. *)
Theorem plot_linear_needs_rows {F : Type} `{PyFloat F} `{NumpyWarnings F}
    {G : Type} `{RandomState G} `{OsPath} (regions : list (list (list string)))
    (ifile_path opic_string : string) (w : world G F) :
  match fst (plot_linear regions ifile_path opic_string w) with
  | Ok _ =>
      Forall (λ m, ∃ region, regions !! m = Some region ∧ region ≠ []
                             ∧ Forall (λ row, (27 ≤ length row)%nat) region)
        (seq 0 (length region_unique))
  | Raise _ => True
  end.
Proof.
  destruct (plot_linear_run regions ifile_path opic_string w)
    as (new & _ & Hrun).
  destruct (fst (plot_linear regions ifile_path opic_string w))
    as [[[bs_pack1 bs_pack2] region_means]|err]; [|done].
  destruct Hrun as (_ & Hturns & _).
  apply bootstraps_lookup in Hturns.
  eapply Forall_impl; [exact Hturns|].
  intros m (bs & _ & data & g & Havg & _).
  apply loc_average_Ok_rows in Havg as (region & Hregion & Hne & Hrows);
    [|done].
  exists region. split; [done|]. split; [done|].
  eapply Forall_impl; [exact Hrows|]. intros row Hrow. simpl in Hrow. lia.
Qed.

(** X13. [plot_log] cannot fail after [plot_linear]: with the regions that
    [plot_linear] has plotted and the bootstraps that it has returned,
    [plot_log] finds the bootstrap of every region, the location averages
    that it computes once more are there, and it returns, from every state
    of the generator and the log. *)
Theorem plot_log_after_plot_linear {F : Type} `{PyFloat F} `{NumpyWarnings F}
    {G : Type} `{RandomState G} `{OsPath} (regions : list (list (list string)))
    (ifile_path opic_string : string) (w : world G F) :
  match fst (plot_linear regions ifile_path opic_string w) with
  | Ok (bs_pack1, bs_pack2, region_means) =>
      ∀ w' : world G F,
        fst (plot_log regions ifile_path opic_string bs_pack1 bs_pack2
               region_means w') = Ok ()
  | Raise _ => True
  end.
Proof.
  destruct (plot_linear_run regions ifile_path opic_string w)
    as (new & _ & Hrun).
  destruct (fst (plot_linear regions ifile_path opic_string w))
    as [[[bs_pack1 bs_pack2] region_means]|err]; [|done].
  destruct Hrun as (Hturns1 & Hturns2 & _). intros w'.
  apply bootstraps_lookup in Hturns1, Hturns2.
  unfold plot_log, log_loop.
  pose proof (log_loop_returns regions bs_pack1 18 22 4 _ w' Hturns1) as Hrun1.
  destruct (prog_for _ (seq 0 (length region_unique)) () w')
    as [[[]|err] w1] eqn:E1; [|done].
  rewrite (prog_bind_run _ _ _ _ _ E1), prog_bind_emit.
  match goal with
  | |- context [(prog_for ?body ?ms () ≫= _) ?w2] =>
      pose proof (log_loop_returns regions bs_pack2 22 27 5 _ w2 Hturns2)
        as Hrun2;
      destruct (prog_for body ms () w2) as [[[]|err] w3] eqn:E2; [|done];
      rewrite (prog_bind_run _ _ _ _ _ E2)
  end.
  done.
Qed.

(** ** The sheets and the summary of [plot_linear] *)

Section SheetColumns.
Context {F : Type} `{PyFloat F}.
Implicit Types (bs : list (list F)) (labels : list string)
  (bs_dict : list (string * list F)).

Lemma bs_dict_update_NoDup (r o : string) bs_dict (item : string * list F) :
  NoDup (fst <$> bs_dict) → NoDup (fst <$> bs_dict_update r o bs_dict item).
Proof.
  intros Hnd. unfold bs_dict_update.
  destruct (length (snd item) =? 0)%nat; [done|].
  case_bool_decide as Hin; [done|].
  rewrite fmap_app. apply NoDup_app. split; [done|]. split.
  - intros key Hkey ->%list_elem_of_singleton. done.
  - apply NoDup_singleton.
Qed.

Lemma update_fold_NoDup (r o : string) bs_dict
    (items : list (string * list F)) :
  NoDup (fst <$> bs_dict) →
  NoDup (fst <$> foldl (bs_dict_update r o) bs_dict items).
Proof.
  revert bs_dict. induction items as [|item items IH]; intros bs_dict Hnd;
    [done|].
  simpl. by apply IH, bs_dict_update_NoDup.
Qed.

(** The names of the columns of a sheet differ from each other. *)
Lemma sheet_columns_NoDup (o : string) (n : nat) labels
    (bs_pack : list (list (list F))) :
  NoDup labels → Forall (λ l, String.length l = n) labels →
  NoDup (fst <$> sheet_columns o labels bs_pack).
Proof.
  intros Hnd Hlen.
  set (pairs := zip (seq 0 (length region_unique)) region_unique).
  assert (NoDup (fst <$> foldl
                   (λ d pb, foldl (bs_dict_update (snd (fst pb)) o) d
                              (zip labels (snd pb)))
                   ([] : list (string * list F)) (zip pairs bs_pack))) as Hfold.
  { generalize (zip pairs bs_pack). intros items.
    assert (NoDup (fst <$> ([] : list (string * list F)))) as Hnil
      by constructor.
    revert Hnil. generalize ([] : list (string * list F)).
    induction items as [|pb items IH]; intros d Hd; [done|].
    simpl. by apply IH, update_fold_NoDup. }
  rewrite (sheet_fold o n labels pairs) in Hfold; [done..| |].
  - apply labels_distinct.
  - intros p l _ _. by intros ?%elem_of_nil.
Qed.

(** A column of a sheet is an array with members of the bootstrap of a
    region. *)
Lemma sheet_columns_arrays (o : string) labels
    (bs_pack : list (list (list F))) (c : string * list F) :
  c ∈ sheet_columns o labels bs_pack →
  snd c ≠ [] ∧ ∃ bs, bs ∈ bs_pack ∧ snd c ∈ bs.
Proof.
  unfold sheet_columns. intros (cs & Hc & Hcs)%list_elem_of_join.
  apply elem_of_lookup_zip_with in Hcs as (i & r & bs & -> & _ & Hbs).
  apply region_columns_keys in Hc as (l & _ & _ & Hne & Hin).
  split; [done|]. exists bs. split; [|done].
  by apply list_elem_of_lookup_2 in Hbs.
Qed.
End SheetColumns.

Section BootstrapArrays.
Context {F : Type} `{PyFloat F} {G : Type} `{RandomState G}
  `{!RandintInRange G}.

(** An array of a bootstrap has no member, or one for every resample. *)
Lemma bstrap_array_lengths (bs_iter : nat) (data bs : list (list F)) (g : G) :
  length data = 4%nat ∨ length data = 5%nat →
  fst (bstrap bs_iter data g) = Ok bs →
  Forall (λ b, b = [] ∨ length b = bs_iter) bs.
Proof.
  intros Hk. destruct (bstrap_spec bs_iter data g Hk) as (bs' & g' & -> & Hbs).
  intros [= <-]. apply Forall_forall. intros b Hb.
  apply list_elem_of_lookup in Hb as [i Hi].
  destruct (Forall2_lookup_r _ _ _ _ _ Hbs Hi) as (d & _ & Hd).
  apply bootstrapped_length in Hd.
  destruct (scaled _ d); [left; by destruct b|by right].
Qed.

Lemma region_bootstrap_lengths (regions : list (list (list string)))
    (s e : Z) (k m : nat) (bs : list (list F)) :
  k = 4%nat ∨ k = 5%nat →
  region_bootstrap G regions s e k m bs →
  length bs = k ∧ Forall (λ b, b = [] ∨ length b = 1000%nat) bs.
Proof.
  intros Hk (data & g & _ & Hdata & Hrun & Hlen). split; [done|].
  apply (bstrap_array_lengths 1000 data bs g); [by rewrite Hdata|done].
Qed.
End BootstrapArrays.

(** X14. The two sheets that [plot_linear] writes hold, for every region
    and decade whose bootstrap array has members, one column named
    [Region_cohort_decade] with that array, in the order of the regions and
    the decades; an array without members gives no column, no column
    replaces another, and so every column has 1000 values and the names of
    the columns of a sheet differ. *)
Theorem sheets_of_plot_linear {F : Type} `{PyFloat F} `{NumpyWarnings F}
    {G : Type} `{RandomState G} `{!RandintInRange G} `{OsPath}
    (regions : list (list (list string)))
    (ifile_path opic_string : string) (g : G) :
  match fst (plot_linear (F:=F) regions ifile_path opic_string (World g []))
  with
  | Ok (bs_pack1, bs_pack2, _) =>
      omap sheet_of
        (log (snd (plot_linear (F:=F) regions ifile_path opic_string
                     (World g []))))
      = [("UER_" +:+ opic_string,
          sheet_columns opic_string rate_labels bs_pack1);
         ("PD_" +:+ opic_string,
          sheet_columns opic_string decade_labels bs_pack2)]
      ∧ Forall (λ columns : list (string * list F),
                  NoDup (fst <$> columns)
                  ∧ Forall (λ c, length (snd c) = 1000%nat) columns)
          [sheet_columns opic_string rate_labels bs_pack1;
           sheet_columns opic_string decade_labels bs_pack2]
  | Raise _ => True
  end.
Proof.
  destruct (plot_linear_run (F:=F) regions ifile_path opic_string (World g []))
    as (new & Hlog & Hrun).
  destruct (fst (plot_linear regions ifile_path opic_string (World g [])))
    as [[[bs_pack1 bs_pack2] region_means]|err]; [|done].
  destruct Hrun as (Hturns1 & Hturns2 & Hsheets & _).
  simpl in Hlog. rewrite Hlog. split; [done|].
  assert (∀ (s e : Z) (k : nat) (labels : list string)
            (bs_pack : list (list (list F))),
            k = 4%nat ∨ k = 5%nat →
            Forall2 (region_bootstrap G regions s e k)
              (seq 0 (length region_unique)) bs_pack →
            Forall (λ c, length (snd c) = 1000%nat)
              (sheet_columns opic_string labels bs_pack)) as Hcolumns.
  { intros s e k labels bs_pack Hk Hturns. apply Forall_forall. intros c Hc.
    apply sheet_columns_arrays in Hc as (Hne & bs & Hbs & Hin).
    apply list_elem_of_lookup in Hbs as [i Hi].
    destruct (Forall2_lookup_r _ _ _ _ _ Hturns Hi) as (m & _ & Hturn).
    apply region_bootstrap_lengths in Hturn as [_ Hall]; [|done].
    rewrite Forall_forall in Hall. by destruct (Hall _ Hin). }
  repeat constructor.
  - apply (sheet_columns_NoDup opic_string 5); apply labels_distinct.
  - apply (Hcolumns 18 22 4%nat); [by left|done].
  - apply (sheet_columns_NoDup opic_string 4); apply labels_distinct.
  - apply (Hcolumns 22 27 5%nat); [by right|done].
Qed.

Lemma sheets_of_plot_linear_witness :
  match fst (plot_linear (F:=Exact.num) (H2:=Posix.os_path) one_city_regions
               "data/Input.csv" "regional_all_location"
               (World Sample.seed []))
  with
  | Ok (bs_pack1, bs_pack2, _) =>
      omap sheet_of
        (log (snd (plot_linear (F:=Exact.num) (H2:=Posix.os_path)
                     one_city_regions "data/Input.csv"
                     "regional_all_location" (World Sample.seed []))))
      = [("UER_" +:+ "regional_all_location",
          sheet_columns "regional_all_location" rate_labels bs_pack1);
         ("PD_" +:+ "regional_all_location",
          sheet_columns "regional_all_location" decade_labels bs_pack2)]
      ∧ Forall (λ columns : list (string * list Exact.num),
                  NoDup (fst <$> columns)
                  ∧ Forall (λ c, length (snd c) = 1000%nat) columns)
          [sheet_columns "regional_all_location" rate_labels bs_pack1;
           sheet_columns "regional_all_location" decade_labels bs_pack2]
  | Raise _ => True
  end.
Proof.
  apply (sheets_of_plot_linear (F:=Exact.num) (G:=Lcg.state)
           one_city_regions "data/Input.csv" "regional_all_location"
           Sample.seed).
Defined.

(** X15. The summary of [plot_linear] has a block for each of the ten
    regions under "Urban Expansion Rates", in the order of the regions, and
    then a block for each of them under "Population Density"; a block holds
    for every decade the mean and then the median of the bootstrap array,
    both [nan] for an array without members: eight numbers for the rates
    and ten for the densities. *)
Theorem summary_of_plot_linear {F : Type} `{PyFloat F} `{NumpyWarnings F}
    {G : Type} `{RandomState G} `{OsPath} (regions : list (list (list string)))
    (ifile_path opic_string : string) (g : G) :
  match fst (plot_linear (F:=F) regions ifile_path opic_string (World g []))
  with
  | Ok (bs_pack1, bs_pack2, _) =>
      omap summary_of
        (log (snd (plot_linear (F:=F) regions ifile_path opic_string
                     (World g []))))
      = zip_with (λ r bs, (r, "Urban Expansion Rates", opic_string,
                           summary_stats bs)) region_unique bs_pack1
        ++ zip_with (λ r bs, (r, "Population Density", opic_string,
                              summary_stats bs)) region_unique bs_pack2
      ∧ length bs_pack1 = length region_unique
      ∧ length bs_pack2 = length region_unique
      ∧ Forall (λ bs, length (summary_stats bs) = 8%nat) bs_pack1
      ∧ Forall (λ bs, length (summary_stats bs) = 10%nat) bs_pack2
  | Raise _ => True
  end.
Proof.
  destruct (plot_linear_run (F:=F) regions ifile_path opic_string (World g []))
    as (new & Hlog & Hrun).
  destruct (fst (plot_linear regions ifile_path opic_string (World g [])))
    as [[[bs_pack1 bs_pack2] region_means]|err]; [|done].
  destruct Hrun as (Hturns1 & Hturns2 & _ & Hsum).
  simpl in Hlog. rewrite Hlog, Hsum.
  assert (∀ bs : list (list F),
            length (summary_stats bs) = (2 * length bs)%nat) as Hstats.
  { intros bs. induction bs as [|b bs IH]; [done|].
    change (summary_stats (b :: bs))
      with ([numpy_mean b; summary_median b] ++ summary_stats bs).
    rewrite length_app, IH. simpl. lia. }
  split; [|split; [|split; [|split]]].
  - done.
  - apply Forall2_length in Hturns1. by rewrite length_seq in Hturns1.
  - apply Forall2_length in Hturns2. by rewrite length_seq in Hturns2.
  - apply Forall_forall. intros bs Hbs.
    apply list_elem_of_lookup in Hbs as [i Hi].
    destruct (Forall2_lookup_r _ _ _ _ _ Hturns1 Hi)
      as (m & _ & data & g' & _ & _ & _ & Hlen).
    rewrite Hstats, Hlen. done.
  - apply Forall_forall. intros bs Hbs.
    apply list_elem_of_lookup in Hbs as [i Hi].
    destruct (Forall2_lookup_r _ _ _ _ _ Hturns2 Hi)
      as (m & _ & data & g' & _ & _ & _ & Hlen).
    rewrite Hstats, Hlen. done.
Qed.

(** ** What a run of the whole script needs *)

Section RunNeeds.
Context {F : Type} `{PyFloat F} `{NumpyWarnings F}
  {G : Type} `{RandomState G} `{OsPath}.
Implicit Types (w : world G F) (regions : list (list (list string))).

Lemma prog_bind_Ok_inv {A B} (p : prog G F A) (k : A → prog G F B) w (b : B) :
  fst ((p ≫= k) w) = Ok b →
  ∃ a w1, p w = (Ok a, w1) ∧ fst (k a w1) = Ok b.
Proof.
  unfold mbind, prog_bind. destruct (p w) as [[a|err] w1]; [|done].
  intros Hk. by exists a, w1.
Qed.

(** Where [plot_linear] returns, each of the ten regions has a row. *)
Lemma plot_linear_Ok_regions regions (ifile_path opic_string : string) w
    (x : list (list (list F)) * list (list (list F)) * list (list F)) :
  fst (plot_linear regions ifile_path opic_string w) = Ok x →
  Forall (λ m, ∃ region, regions !! m = Some region ∧ region ≠ [])
    (seq 0 (length region_unique)).
Proof.
  intros Hx.
  destruct (plot_linear_run regions ifile_path opic_string w)
    as (new & _ & Hrun).
  rewrite Hx in Hrun. destruct x as [[bs_pack1 bs_pack2] region_means].
  destruct Hrun as (Hturns & _). apply bootstraps_lookup in Hturns.
  eapply Forall_impl; [exact Hturns|].
  intros m (bs & _ & data & g & Havg & _).
  apply loc_average_Ok_rows in Havg as (region & Hregion & Hne & _); [|done].
  by exists region.
Qed.

(** A row of a cohort is a row of the region with a field 8 that passes
    the test of the cohort. *)
Lemma cohort_member (t : F → bool) regions
    (cohort : list (list (list string))) (m : nat)
    (rows : list (list string)) (row : list string) :
  comprehension
    (λ region_line,
       comprehension_if
         (λ x, field ← py_getitem x 8; v ← py_float field; Ok (t v))
         region_line)
    regions = Ok cohort →
  cohort !! m = Some rows → row ∈ rows →
  ∃ region field v,
    regions !! m = Some region ∧ row ∈ region
    ∧ row !! 8%nat = Some field ∧ float_of_str field = Some v
    ∧ t v = true.
Proof.
  rewrite cohorts_test.
  destruct (comprehension _ regions) as [vss|] eqn:E; simpl; [|done].
  intros [= <-] Hrows Hrow. apply comprehension_Ok_Forall2 in E.
  apply lookup_zip_with_Some in Hrows as (region & vs & -> & Hregion & Hvs).
  destruct (Forall2_lookup_l _ _ _ _ _ E Hregion) as (vs' & Hvs' & Hpop).
  rewrite Hvs in Hvs'. injection Hvs' as <-.
  apply comprehension_Ok_Forall2 in Hpop.
  apply list_elem_of_fmap in Hrow as ([row' v] & -> & Hin).
  apply list_elem_of_filter in Hin as [Ht Hin]. simpl in Ht.
  apply list_elem_of_lookup in Hin as [i Hi].
  apply lookup_zip_with_Some in Hi as (x & v' & [= <- <-] & Hx & Hv).
  destruct (Forall2_lookup_l _ _ _ _ _ Hpop Hx) as (v'' & Hv'' & Hfloat).
  rewrite Hv in Hv''. injection Hv'' as <-.
  apply population_Ok in Hfloat as (field & Hfield & Hfloat).
  exists region, field, v. simpl. repeat split; try done.
  by apply list_elem_of_lookup_2 in Hx.
Qed.

(** The rows of a group, when the groups are made. *)
Lemma regions_of_Ok (data_items : list (list string)) regions :
  regions_of data_items = Ok regions →
  regions =
    (λ keyword, filter (λ row, row !! 2%nat = Some keyword) data_items)
      <$> region_unique.
Proof.
  intros Hrun.
  destruct (decide (Exists (λ row, (length row < 3)%nat) data_items))
    as [Hex|Hex].
  { rewrite (group_short_regions _ Hex) in Hrun. done. }
  rewrite regions_of_filter in Hrun; [congruence|].
  apply Forall_forall. intros row Hrow.
  destruct (decide (2 < length row)%nat) as [|Hlen]; [done|].
  destruct Hex. apply Exists_exists. exists row. split; [done|lia].
Qed.
End RunNeeds.

(** X16. The script runs to its end only on tables that have, for each of
    the ten region keywords, a row above and a row at or below two million
    people in 2010: [plot_linear] is called for the cohorts "above" and
    "below" too, and it fails on a region without rows. *)
Theorem main_needs_both_cohorts {F : Type} `{PyFloat F} `{NumpyWarnings F}
    {G : Type}
    `{RandomState G} `{OsPath} (input_file file_data : string) (g : G) :
  match fst (main (F:=F) input_file file_data (World g [])) with
  | Ok _ =>
      ∃ data_items,
        data_items_of file_data = Ok data_items
        ∧ Forall (λ keyword,
            (∃ row field (v : F),
               row ∈ data_items ∧ row !! 2%nat = Some keyword
               ∧ row !! 8%nat = Some field ∧ float_of_str field = Some v
               ∧ f_gt v (f_of_nat 2000) = true)
            ∧ (∃ row field (v : F),
                 row ∈ data_items ∧ row !! 2%nat = Some keyword
                 ∧ row !! 8%nat = Some field ∧ float_of_str field = Some v
                 ∧ f_le v (f_of_nat 2000) = true))
            region_unique
  | Raise _ => True
  end.
Proof.
  destruct (fst (main input_file file_data (World g []))) as [[]|err] eqn:Hrun;
    [|done].
  unfold main in Hrun.
  apply prog_bind_Ok_inv in Hrun as ([] & w1 & _ & Hrun).
  apply prog_bind_Ok_inv in Hrun as (data_items & w2 & Hitems & Hrun).
  apply prog_bind_Ok_inv in Hrun as (regions & w3 & Hregions & Hrun).
  apply prog_bind_Ok_inv in Hrun as (above & w4 & Habove & Hrun).
  apply prog_bind_Ok_inv in Hrun as (below & w5 & Hbelow & Hrun).
  apply prog_bind_Ok_inv in Hrun as ([] & w6 & _ & Hrun).
  apply prog_bind_Ok_inv in Hrun as ([] & w7 & Hplot_above & Hrun).
  apply prog_bind_Ok_inv in Hrun as ([] & w8 & Hplot_below & _).
  unfold lift in Hitems, Hregions, Habove, Hbelow.
  injection Hitems as Hitems _. injection Hregions as Hregions _.
  injection Habove as Habove _. injection Hbelow as Hbelow _.
  apply (f_equal fst) in Hplot_above, Hplot_below.
  unfold plot_cohort in Hplot_above, Hplot_below. simpl in *.
  apply prog_bind_Ok_inv in Hplot_above as (xa & wa & Hlinear_above & _).
  apply prog_bind_Ok_inv in Hplot_below as (xb & wb & Hlinear_below & _).
  apply (f_equal fst) in Hlinear_above, Hlinear_below. simpl in *.
  apply plot_linear_Ok_regions in Hlinear_above, Hlinear_below.
  apply regions_of_Ok in Hregions.
  exists data_items. split; [done|].
  apply Forall_forall. intros keyword Hkeyword.
  apply list_elem_of_lookup in Hkeyword as [m Hm].
  assert (m ∈ seq 0 (length region_unique)) as Hseq.
  { apply elem_of_seq. apply lookup_lt_Some in Hm. lia. }
  rewrite Forall_forall in Hlinear_above, Hlinear_below.
  assert (∀ (t : F → bool) (cohort : list (list (list string))),
            comprehension
              (λ region_line,
                 comprehension_if
                   (λ x, field ← py_getitem x 8; v ← py_float field;
                         Ok (t v)) region_line) regions = Ok cohort →
            (∃ rows, cohort !! m = Some rows ∧ rows ≠ []) →
            ∃ row field (v : F),
              row ∈ data_items ∧ row !! 2%nat = Some keyword
              ∧ row !! 8%nat = Some field ∧ float_of_str field = Some v
              ∧ t v = true) as Hcohort.
  { intros t cohort Hmade (rows & Hrows & Hne).
    destruct rows as [|row rows]; [done|].
    destruct (cohort_member t regions cohort m (row :: rows) row Hmade Hrows)
      as (region & field & v & Hregion & Hin & Hfield & Hv & Ht);
      [by left|].
    rewrite Hregions, list_lookup_fmap, Hm in Hregion.
    injection Hregion as <-.
    apply list_elem_of_filter in Hin as [Hkey Hin].
    by exists row, field, v. }
  split.
  - apply (Hcohort (λ v, f_gt v (f_of_nat 2000)) above Habove).
    by apply Hlinear_above.
  - apply (Hcohort (λ v, f_le v (f_of_nat 2000)) below Hbelow).
    by apply Hlinear_below.
Qed.

(** ** When [plot_linear] returns *)

Section PlotLinearReturns.
Context {F : Type} `{PyFloat F} `{NumpyWarnings F} {G : Type} `{RandomState G}
  `{!RandintInRange G} `{OsPath}.
Implicit Types (w : world G F) (regions : list (list (list string))).

(** The loop over the regions ends well when [loc_average] returns for
    every region: nothing else in it can raise. *)
Lemma bootstrap_loop_returns regions (opic_string title : string) (s e : Z)
    (labels : list string) (pairs : list (nat * string))
    (bs_pack : list (list (list F))) (bs_dict : list (string * list F)) w :
  length labels = 4%nat ∨ length labels = 5%nat →
  Z.of_nat (length labels) = e - s →
  Forall (λ p, is_ok (loc_average (F:=F) regions (Z.of_nat (fst p)) s e)
               = true) pairs →
  is_ok (fst (prog_for
                (λ '(bs_pack, bs_dict) '(m, cur_region),
                   data ← lift (loc_average regions (Z.of_nat m) s e);
                   data ← lift (unpack (length labels) data);
                   bs ← with_rng (bstrap 1000 data);
                   bs ← lift (unpack (length labels) bs);
                   means ← prog_for
                             (λ acc b,
                                v ← numpy_stat numpy_mean mean_warnings b;
                                mret (acc ++ [v])) bs [];
                   medians ← prog_for
                               (λ acc b,
                                  v ← numpy_stat f_median median_warnings b;
                                  mret (acc ++ [v])) bs [];
                   _ ← emit (SummaryWritten cur_region title opic_string
                               (mjoin (zip_with (λ a b, [a; b]) means
                                         medians)));
                   let bs_dict' :=
                     foldl (bs_dict_update cur_region opic_string) bs_dict
                       (zip labels bs) in
                   _ ← jitter bs;
                   mret (M:=prog G F) (bs_pack ++ [bs], bs_dict'))
                pairs (bs_pack, bs_dict) w)) = true.
Proof.
  intros Hk Hes Hpairs. revert bs_pack bs_dict w.
  induction Hpairs as [|[m cur_region] pairs Havg _ IH];
    intros bs_pack bs_dict w; [done|].
  cbn [prog_for].
  rewrite (prog_bind_eq _ _ _ _
             (bootstrap_body_run regions opic_string title s e labels
                bs_pack bs_dict m cur_region w)).
  simpl in Havg.
  assert (e - s = 4 ∨ e - s = 5) as Hcnt by lia.
  pose proof (loc_average_good_count (F:=F) regions (Z.of_nat m) s e Hcnt)
    as Hlen.
  destruct (loc_average regions (Z.of_nat m) s e) as [data|err]; [|done].
  simpl. unfold unpack at 1.
  rewrite (proj2 (Nat.eqb_eq (length data) (length labels))) by lia.
  assert (length data = 4%nat ∨ length data = 5%nat) as Hdata by lia.
  destruct (bstrap_spec 1000 data (rng w) Hdata) as (bs & g' & -> & Hbs).
  apply Forall2_length in Hbs. unfold unpack at 1.
  rewrite (proj2 (Nat.eqb_eq (length bs) (length labels))) by lia.
  apply IH.
Qed.

Lemma region_means_of_returns regions w :
  Forall (λ m, is_ok (loc_average (F:=F) regions (Z.of_nat m) 9 13) = true)
    (seq 0 (length region_unique)) →
  is_ok (fst (region_means_of regions w)) = true.
Proof.
  intros Hall. unfold region_means_of. rewrite region_means_loop.
  assert (is_ok (comprehension
                   (λ m, loc_average (F:=F) regions (Z.of_nat m) 9 13
                         ≫= unpack 4) (seq 0 (length region_unique)))
          = true) as Hok.
  { induction Hall as [|m ms Hm _ IH]; [done|].
    assert (is_ok (loc_average (F:=F) regions (Z.of_nat m) 9 13 ≫= unpack 4)
            = true) as Hm'.
    { pose proof (loc_average_good_count (F:=F) regions (Z.of_nat m) 9 13
                    (or_introl eq_refl)) as Hlen.
      destruct (loc_average regions (Z.of_nat m) 9 13) as [data|]; [|done].
      simpl. unfold unpack.
      rewrite (proj2 (Nat.eqb_eq (length data) 4)) by lia. done. }
    cbn [comprehension].
    destruct (loc_average regions (Z.of_nat m) 9 13 ≫= unpack 4); [|done].
    simpl. by destruct (comprehension _ ms). }
  by destruct (comprehension _ (seq 0 (length region_unique))).
Qed.

Lemma region_means_of_Ok regions w (region_means : list (list F)) :
  fst (region_means_of regions w) = Ok region_means →
  Forall (λ m, is_ok (loc_average (F:=F) regions (Z.of_nat m) 9 13) = true)
    (seq 0 (length region_unique)).
Proof.
  unfold region_means_of. rewrite region_means_loop.
  destruct (comprehension _ (seq 0 (length region_unique))) as [pops|] eqn:E;
    [|done].
  intros _. apply comprehension_Ok_Forall2 in E.
  apply Forall_forall. intros m Hm.
  apply list_elem_of_lookup in Hm as [i Hi].
  destruct (Forall2_lookup_l _ _ _ _ _ E Hi) as (pop & _ & Hpop).
  by destruct (loc_average regions (Z.of_nat m) 9 13).
Qed.

Lemma plottable_returns regions (ifile_path opic_string : string) w :
  plottable (F:=F) regions →
  is_ok (fst (plot_linear regions ifile_path opic_string w)) = true.
Proof.
  intros Hall. unfold plot_linear.
  pose proof (region_means_of_returns regions w) as H0'.
  destruct (region_means_of regions w) as [[region_means|err] w0] eqn:E0;
    rewrite (prog_bind_run _ _ _ _ _ E0).
  2: { apply H0'. eapply Forall_impl; [exact Hall|]. by intros m (? & _). }
  clear H0'. unfold bootstrap_loop.
  set (pairs := zip (seq 0 (length region_unique)) region_unique).
  assert (∀ P : nat → Prop, Forall P (seq 0 (length region_unique)) →
                            Forall (λ p, P (fst p)) pairs) as Hpairs.
  { intros P HP. apply Forall_fmap. exact HP. }
  pose proof (bootstrap_loop_returns regions opic_string
                "Urban Expansion Rates" 18 22 rate_labels pairs [] [] w0
                (or_introl eq_refl) eq_refl) as H1'.
  match type of H1' with
  | _ → is_ok (fst (?loop ?w0')) = true =>
      destruct (loop w0') as [[[bs_pack1 bs_dict1]|err] w1] eqn:E1;
      rewrite (prog_bind_run _ _ _ _ _ E1)
  end.
  2: { apply H1'. apply (Hpairs (λ m, is_ok (loc_average (F:=F) regions
                                               (Z.of_nat m) 18 22) = true)).
       eapply Forall_impl; [exact Hall|]. by intros m (_ & ? & _). }
  clear H1'. rewrite !prog_bind_emit.
  match goal with
  | |- context [(prog_for ?body pairs ([], []) ≫= _) ?w2] =>
      pose proof (bootstrap_loop_returns regions opic_string
                    "Population Density" 22 27 decade_labels pairs [] [] w2
                    (or_intror eq_refl) eq_refl) as H2';
      destruct (prog_for body pairs ([], []) w2)
        as [[[bs_pack2 bs_dict2]|err] w3] eqn:E2;
      rewrite (prog_bind_run _ _ _ _ _ E2)
  end.
  2: { apply H2'. apply (Hpairs (λ m, is_ok (loc_average (F:=F) regions
                                               (Z.of_nat m) 22 27) = true)).
       eapply Forall_impl; [exact Hall|]. by intros m (_ & _ & ?). }
  done.
Qed.

Lemma returns_plottable regions (ifile_path opic_string : string) w :
  is_ok (fst (plot_linear regions ifile_path opic_string w)) = true →
  plottable (F:=F) regions.
Proof.
  intros Hok.
  destruct (plot_linear_run regions ifile_path opic_string w)
    as (new & _ & Hrun).
  destruct (fst (plot_linear regions ifile_path opic_string w))
    as [[[bs_pack1 bs_pack2] region_means]|err] eqn:Elinear; [|done].
  destruct Hrun as (Hturns1 & Hturns2 & _).
  apply bootstraps_lookup in Hturns1, Hturns2.
  unfold plot_linear in Elinear.
  apply prog_bind_Ok_inv in Elinear as (rm & w0 & Hmeans & _).
  apply (f_equal fst) in Hmeans. simpl in Hmeans.
  apply region_means_of_Ok in Hmeans.
  rewrite Forall_forall in Hmeans, Hturns1, Hturns2.
  apply Forall_forall. intros m Hm. split; [by apply Hmeans|split].
  - destruct (Hturns1 m Hm) as (bs & _ & data & g & -> & _). done.
  - destruct (Hturns2 m Hm) as (bs & _ & data & g & -> & _). done.
Qed.
End PlotLinearReturns.

(** ** When the whole script returns *)

Section MainReturns.
Context {F : Type} `{PyFloat F} `{NumpyWarnings F} {G : Type} `{RandomState G}
  `{!RandintInRange G} `{OsPath}.
Implicit Types (w : world G F) (regions : list (list (list string))).

(** [plot_log] with what [plot_linear] has returned. *)
Lemma plot_log_returns regions (ifile_path opic_string : string) w w'
    (bs_pack1 bs_pack2 : list (list (list F))) (region_means : list (list F)) :
  fst (plot_linear regions ifile_path opic_string w)
    = Ok (bs_pack1, bs_pack2, region_means) →
  fst (plot_log regions ifile_path opic_string bs_pack1 bs_pack2
         region_means w') = Ok ().
Proof.
  intros Hlinear.
  destruct (plot_linear_run regions ifile_path opic_string w)
    as (new & _ & Hrun).
  rewrite Hlinear in Hrun. destruct Hrun as (Hturns1 & Hturns2 & _).
  apply bootstraps_lookup in Hturns1, Hturns2.
  unfold plot_log, log_loop.
  pose proof (log_loop_returns regions bs_pack1 18 22 4 _ w' Hturns1) as Hrun1.
  destruct (prog_for _ (seq 0 (length region_unique)) () w')
    as [[[]|err] w1] eqn:E1; [|done].
  rewrite (prog_bind_run _ _ _ _ _ E1), prog_bind_emit.
  match goal with
  | |- context [(prog_for ?body ?ms () ≫= _) ?w2] =>
      pose proof (log_loop_returns regions bs_pack2 22 27 5 _ w2 Hturns2)
        as Hrun2;
      destruct (prog_for body ms () w2) as [[[]|err] w3] eqn:E2; [|done];
      rewrite (prog_bind_run _ _ _ _ _ E2)
  end.
  done.
Qed.

(** The plots of a cohort are made exactly when its regions can be
    plotted. *)
Lemma plot_cohort_returns regions (input_file opic_string : string) w :
  is_ok (fst (plot_cohort regions input_file opic_string w)) = true
  ↔ plottable (F:=F) regions.
Proof.
  unfold plot_cohort. split.
  - intros Hok. apply (returns_plottable regions input_file opic_string w).
    destruct (fst ((plot_linear regions input_file opic_string ≫= _) w))
      as [[]|err] eqn:Erun; [|done].
    apply prog_bind_Ok_inv in Erun as (x & w1 & -> & _). done.
  - intros Hall.
    pose proof (plottable_returns regions input_file opic_string w Hall)
      as Hlinear.
    destruct (plot_linear regions input_file opic_string w)
      as [[[[bs_pack1 bs_pack2] region_means]|err] w1] eqn:E; [|done].
    rewrite (prog_bind_run _ _ _ _ _ E).
    rewrite (plot_log_returns regions input_file opic_string w w1
               bs_pack1 bs_pack2 region_means); [done|by rewrite E].
Qed.
End MainReturns.

(** X18. The script fails only in reading the table or in [loc_average]: a
    run ends well exactly when the file gives rows, the rows can be grouped
    and split in cohorts, and [loc_average] returns for each of the ten
    regions of each of the three cohorts on the columns 9:13, 18:22 and
    22:27. *)
Theorem main_returns_iff {F : Type} `{PyFloat F} `{NumpyWarnings F} {G : Type}
    `{RandomState G} `{!RandintInRange G} `{OsPath}
    (input_file file_data : string) (g : G) :
  is_ok (fst (main (F:=F) input_file file_data (World g []))) = true
  ↔ ∃ data_items allregions aboveregions belowregions,
      data_items_of file_data = Ok data_items
      ∧ regions_of data_items = Ok allregions
      ∧ aboveregions_of (F:=F) allregions = Ok aboveregions
      ∧ belowregions_of (F:=F) allregions = Ok belowregions
      ∧ plottable (F:=F) allregions
      ∧ plottable (F:=F) aboveregions
      ∧ plottable (F:=F) belowregions.
Proof.
  split.
  - intros Hok.
    destruct (fst (main input_file file_data (World g []))) as [[]|err]
      eqn:Hrun; [|done].
    unfold main in Hrun.
    apply prog_bind_Ok_inv in Hrun as ([] & w1 & _ & Hrun).
    apply prog_bind_Ok_inv in Hrun as (data_items & w2 & Hitems & Hrun).
    apply prog_bind_Ok_inv in Hrun as (regions & w3 & Hregions & Hrun).
    apply prog_bind_Ok_inv in Hrun as (above & w4 & Habove & Hrun).
    apply prog_bind_Ok_inv in Hrun as (below & w5 & Hbelow & Hrun).
    apply prog_bind_Ok_inv in Hrun as ([] & w6 & Hplot_all & Hrun).
    apply prog_bind_Ok_inv in Hrun as ([] & w7 & Hplot_above & Hrun).
    apply prog_bind_Ok_inv in Hrun as ([] & w8 & Hplot_below & _).
    unfold lift in Hitems, Hregions, Habove, Hbelow.
    injection Hitems as Hitems _. injection Hregions as Hregions _.
    injection Habove as Habove _. injection Hbelow as Hbelow _.
    exists data_items, regions, above, below. repeat split; try done.
    + eapply plot_cohort_returns. by rewrite Hplot_all.
    + eapply plot_cohort_returns. by rewrite Hplot_above.
    + eapply plot_cohort_returns. by rewrite Hplot_below.
  - intros (data_items & regions & above & below & Hitems & Hregions
            & Habove & Hbelow & Hall & Hup & Hdown).
    unfold main. rewrite prog_bind_emit.
    rewrite prog_bind_lift, Hitems, prog_bind_lift, Hregions.
    cbv zeta. rewrite prog_bind_lift, Habove, prog_bind_lift, Hbelow.
    match goal with
    | |- context [(plot_cohort regions ?i ?o ≫= _) ?w1] =>
        pose proof (proj2 (plot_cohort_returns regions i o w1) Hall) as Hok1;
        destruct (plot_cohort regions i o w1) as [[[]|err] w2] eqn:E1;
          [|done];
        rewrite (prog_bind_run _ _ _ _ _ E1)
    end.
    match goal with
    | |- context [(plot_cohort above ?i ?o ≫= _) ?w1] =>
        pose proof (proj2 (plot_cohort_returns above i o w1) Hup) as Hok2;
        destruct (plot_cohort above i o w1) as [[[]|err] w3] eqn:E2;
          [|done];
        rewrite (prog_bind_run _ _ _ _ _ E2)
    end.
    match goal with
    | |- context [(plot_cohort below ?i ?o ≫= _) ?w1] =>
        pose proof (proj2 (plot_cohort_returns below i o w1) Hdown) as Hok3;
        destruct (plot_cohort below i o w1) as [[[]|err] w4] eqn:E3;
          [|done];
        rewrite (prog_bind_run _ _ _ _ _ E3)
    end.
    done.
Qed.

Lemma main_returns_iff_witness :
  is_ok (fst (main (F:=Exact.num) (H2:=Posix.os_path) "data/Input.csv"
                (Sample.file_of Sample.complete_items)
                (World Sample.seed []))) = true.
Proof.
  apply (main_returns_iff (F:=Exact.num) (G:=Lcg.state) "data/Input.csv"
           (Sample.file_of Sample.complete_items) Sample.seed).
  eexists _, _, _, _.
  split; [vm_compute; reflexivity|].
  split; [vm_compute; reflexivity|].
  split; [vm_compute; reflexivity|].
  split; [vm_compute; reflexivity|].
  split; [|split]; repeat (constructor; [by vm_compute|]); constructor.
Defined.

(** ** The ticks of the axes *)

Section Ticks.
Implicit Types (l lo hi : Z) (ticks : list Z).

Lemma py_getitem_last {A} (xs : list A) (x : A) :
  py_getitem (xs ++ [x]) (-1) = Ok x.
Proof.
  unfold py_getitem. rewrite length_app. simpl. z_cases; try lia.
  replace (Z.to_nat (-1 + Z.of_nat (length xs + 1))) with (length xs) by lia.
  by rewrite lookup_app_r, Nat.sub_diag by lia.
Qed.

(** The steps of two from [l] that are not above [hi]. *)
Lemma linear_ticks_loop_steps (fuel : nat) l hi ticks :
  (Z.to_nat ((hi - l + 2) / 2) < fuel)%nat →
  linear_ticks_loop fuel l hi ticks =
    Some (ticks ++ ((λ i : nat, l + 2 * Z.of_nat i)
                      <$> seq 0 (Z.to_nat ((hi - l + 2) / 2)))).
Proof.
  revert l ticks. induction fuel as [|fuel IH]; intros l ticks Hfuel; [lia|].
  simpl. destruct (l <=? hi) eqn:Hl.
  - apply Z.leb_le in Hl.
    assert (Z.to_nat ((hi - l + 2) / 2)
            = S (Z.to_nat ((hi - (l + 2) + 2) / 2))) as Hn.
    { replace (hi - l + 2) with ((hi - (l + 2) + 2) + 1 * 2) by lia.
      rewrite Z.div_add by lia.
      assert (0 ≤ (hi - (l + 2) + 2) / 2) by (apply Z.div_pos; lia). lia. }
    rewrite IH by lia. rewrite Hn. f_equal. rewrite <- app_assoc. f_equal.
    cbn [seq fmap list_fmap app]. f_equal; [lia|].
    rewrite <- fmap_S_seq, <- list_fmap_compose. apply list_fmap_ext.
    intros _ i _. simpl. lia.
  - apply Z.leb_gt in Hl.
    assert ((hi - l + 2) / 2 ≤ 0) as Hn.
    { apply Z.lt_succ_r, Z.div_lt_upper_bound; lia. }
    replace (Z.to_nat ((hi - l + 2) / 2)) with 0%nat by lia.
    simpl. by rewrite app_nil_r.
Qed.
End Ticks.

(** X19. The ticks of a linear axis with int limits [lo <= hi] are [lo],
    [lo + 2], ... as far as they are not above [hi], with [hi] added at the
    end when the steps of two do not hit it; the loop ends after that many
    tests. For [lo > hi] no tick is made, and the test of the last tick,
    [tp_yticks[-1]], ends with an [IndexError]. *)
Theorem linear_ticks_steps (fuel : nat) (lo hi : Z) :
  (Z.to_nat ((hi - lo + 2) / 2) < fuel)%nat →
  linear_ticks fuel lo hi =
    Some (if bool_decide (lo ≤ hi)
          then Ok (((λ i : nat, lo + 2 * Z.of_nat i)
                      <$> seq 0 (S (Z.to_nat ((hi - lo) / 2))))
                   ++ (if bool_decide ((hi - lo) mod 2 = 0) then []
                       else [hi]))
          else Raise IndexError).
Proof.
  intros Hfuel. unfold linear_ticks.
  rewrite linear_ticks_loop_steps by done. cbn [mbind option_bind app].
  f_equal. case_bool_decide as Hlo.
  - assert (Z.to_nat ((hi - lo + 2) / 2) = S (Z.to_nat ((hi - lo) / 2)))
      as ->.
    { replace (hi - lo + 2) with ((hi - lo) + 1 * 2) by lia.
      rewrite Z.div_add by lia.
      assert (0 ≤ (hi - lo) / 2) by (apply Z.div_pos; lia). lia. }
    rewrite seq_S, fmap_app. cbn [fmap list_fmap].
    rewrite py_getitem_last. cbn [mbind result_mbind result_bind].
    f_equal. pose proof (Z.div_mod (hi - lo) 2 ltac:(lia)) as Hdiv.
    pose proof (Z.mod_pos_bound (hi - lo) 2 ltac:(lia)) as Hmod.
    assert (0 ≤ (hi - lo) / 2) by (apply Z.div_pos; lia).
    repeat case_bool_decide; rewrite ?app_nil_r; try done; lia.
  - assert ((hi - lo + 2) / 2 ≤ 0) as Hn.
    { apply Z.lt_succ_r, Z.div_lt_upper_bound; lia. }
    replace (Z.to_nat ((hi - lo + 2) / 2)) with 0%nat by lia. done.
Qed.

Lemma linear_ticks_steps_witness :
  linear_ticks 8 0 12 =
    Some (if bool_decide (0 ≤ 12)
          then Ok (((λ i : nat, 0 + 2 * Z.of_nat i)
                      <$> seq 0 (S (Z.to_nat ((12 - 0) / 2))))
                   ++ (if bool_decide ((12 - 0) mod 2 = 0) then []
                       else [12]))
          else Raise IndexError).
Proof. apply (linear_ticks_steps 8 0 12). vm_compute. lia. Defined.

(** The ticks of the linear plots of the script, and of an axis whose
    limit is not hit by the steps. *)
Example linear_ticks_of_script :
  linear_ticks 8 0 12 = Some (Ok [0; 2; 4; 6; 8; 10; 12])
  ∧ linear_ticks 8 1 12 = Some (Ok [1; 3; 5; 7; 9; 11; 12])
  ∧ linear_ticks 8 12 0 = Some (Raise IndexError).
Proof. repeat split. Qed.

Section DensityTicks.
Implicit Types (l lo hi : Z).

Lemma foldl_append_filter {A} (P : A → Prop) `{∀ x, Decision (P x)}
    (xs acc : list A) :
  foldl (λ acc x, if bool_decide (P x) then acc ++ [x] else acc) acc xs
  = acc ++ filter P xs.
Proof.
  revert acc. induction xs as [|x xs IH]; intros acc; simpl.
  { by rewrite app_nil_r. }
  rewrite IH. rewrite filter_cons. case_bool_decide; case_decide; try done.
  by rewrite <- app_assoc.
Qed.

Lemma elem_of_py_range start stop step x :
  0 < step →
  x ∈ py_range start stop step
  ↔ start ≤ x < stop ∧ (x - start) mod step = 0.
Proof.
  intros Hstep. unfold py_range. rewrite list_elem_of_fmap.
  setoid_rewrite elem_of_seq. split.
  - intros (i & -> & _ & Hi).
    assert (Z.of_nat i < (stop - start + step - 1) / step) as Hlt by lia.
    assert (step * Z.of_nat i < stop - start).
    { apply Z.lt_le_pred in Hlt.
      assert (step * (Z.of_nat i + 1) ≤ stop - start + step - 1); [|lia].
      etrans; [|apply (Z.mul_div_le _ step); lia].
      apply Z.mul_le_mono_nonneg_l; lia. }
    split; [nia|].
    replace (start + step * Z.of_nat i - start) with (Z.of_nat i * step)
      by lia.
    apply Z.mod_mul. lia.
  - intros ([Hlo Hhi] & Hmod).
    apply Z.mod_divide in Hmod as [q Hq]; [|lia].
    exists (Z.to_nat q). assert (0 ≤ q) by nia.
    split; [lia|]. split; [lia|]. simpl.
    assert (q + 1 ≤ (stop - start + step - 1) / step); [|lia].
    apply Z.div_le_lower_bound; [done|]. nia.
Qed.

Lemma StronglySorted_filter {A} (R : relation A) (P : A → Prop)
    `{∀ x, Decision (P x)} (xs : list A) :
  StronglySorted R xs → StronglySorted R (filter P xs).
Proof.
  induction 1 as [|x xs _ IH Hx]; [constructor|].
  rewrite filter_cons. case_decide; [|done].
  constructor; [done|]. apply Forall_forall.
  intros y [_ Hy]%list_elem_of_filter. by eapply Forall_forall in Hx.
Qed.

Lemma py_range_sorted start stop step :
  0 < step → StronglySorted Z.lt (py_range start stop step).
Proof.
  intros Hstep. unfold py_range.
  generalize (Z.to_nat ((stop - start + step - 1) / step)) as n.
  generalize 0%nat as k. intros k n. revert k.
  induction n as [|n IH]; intros k; simpl; constructor; [done|].
  apply Forall_fmap, Forall_forall. intros i Hi%elem_of_seq. simpl. nia.
Qed.

Lemma py_getitem_last_cons {A} (x : A) (xs : list A) :
  py_getitem (x :: xs) (-1) = Ok (List.last xs x).
Proof.
  destruct (decide (xs = [])) as [->|Hne]; [done|].
  destruct (exists_last Hne) as (ys & y & ->).
  rewrite app_comm_cons, py_getitem_last. by rewrite List.last_last.
Qed.

(** The ticks of the densities, in one list. *)
Lemma density_ticks_list lo hi :
  density_ticks lo hi
  = Ok (lo :: filter (λ l, l ≠ lo) (py_range 10 hi 10)
           ++ (if bool_decide (hi ≤ 10 ∧ lo = hi) then [] else [hi])).
Proof.
  unfold density_ticks. cbv zeta.
  rewrite (foldl_append_filter (λ l, l ≠ lo)). cbn [app].
  rewrite py_getitem_last_cons. cbn [mbind result_mbind result_bind].
  f_equal. set (ticks := filter _ _).
  assert (Forall (λ l, l < hi ∧ l ≠ lo) ticks) as Hticks.
  { apply Forall_forall. intros l [Hl Hin%elem_of_py_range]%list_elem_of_filter;
      [|lia]. split; [lia|done]. }
  assert (hi ≤ 10 → ticks = []) as Hnil.
  { intros Hhi. destruct ticks as [|l ticks'] eqn:E; [done|].
    assert (l ∈ py_range 10 hi 10) as Hin%elem_of_py_range; [|lia|lia].
    eapply (list_elem_of_filter (λ l, l ≠ lo)). fold ticks. rewrite E. left. }
  destruct (decide (ticks = [])) as [E|Hne].
  - rewrite E. simpl. repeat case_bool_decide; try done.
    + lia.
    + destruct (decide (hi ≤ 10)); [lia|].
      assert (10 ∈ ticks) as Hin;
        [|rewrite E in Hin; by apply elem_of_nil in Hin].
      apply list_elem_of_filter. split; [lia|].
      apply elem_of_py_range; [lia|]. split; [lia|done].
  - destruct (exists_last Hne) as (ys & y & E). rewrite E in Hticks |- *.
    rewrite List.last_last.
    apply Forall_app in Hticks as [_ [[Hy _] _]%Forall_cons].
    rewrite bool_decide_true by lia. rewrite bool_decide_false; [done|].
    intros [Hhi _]. apply Hnil in Hhi. by destruct ys.
Qed.
End DensityTicks.

(** X20. The ticks of the densities are made for all int limits, without
    an error: the first one is the lower limit, the last one the upper
    limit, and the others are the tens from 10 on that are below the upper
    limit. *)
Theorem density_ticks_between (lo hi : Z) :
  ∃ ticks, density_ticks lo hi = Ok ticks
    ∧ head ticks = Some lo ∧ last ticks = Some hi
    ∧ ∀ l, l ∈ ticks ↔ l = lo ∨ l = hi ∨ (10 ≤ l < hi ∧ l mod 10 = 0).
Proof.
  eexists. split; [apply density_ticks_list|]. split; [done|].
  set (tens := filter (λ l, l ≠ lo) (py_range 10 hi 10)).
  assert (∀ l, l ∈ tens ↔ l ≠ lo ∧ 10 ≤ l < hi ∧ l mod 10 = 0) as Htens.
  { intros l. unfold tens. rewrite list_elem_of_filter, elem_of_py_range by lia.
    replace (l - 10) with (l + (-1) * 10) by lia. by rewrite Z.mod_add. }
  split.
  - case_bool_decide as Hlast.
    + destruct Hlast as [Hhi <-]. rewrite app_nil_r.
      assert (tens = []) as ->; [|done].
      apply elem_of_nil_inv. intros l Hl%Htens. lia.
    + by rewrite app_comm_cons, last_snoc.
  - intros l. rewrite elem_of_cons, elem_of_app, Htens. split.
    + intros [->|[(_ & Hl)|Hl]]; [by left|by right; right|].
      case_bool_decide; [by apply elem_of_nil in Hl|].
      apply list_elem_of_singleton in Hl. by right; left.
    + intros [->|[->|Hl]]; [by left| |].
      * case_bool_decide as Hlast; [left; by destruct Hlast|].
        right; right. by apply list_elem_of_singleton.
      * destruct (decide (l = lo)) as [->|]; [by left|]. by right; left.
Qed.

(** X21. The ticks of the densities go up from one to the next exactly
    when the lower limit is at most 10 and at most the upper limit: above
    10 the lower limit is followed by the tick at 10 or by a smaller upper
    limit. *)
Theorem density_ticks_increasing (lo hi : Z) :
  (∃ ticks, density_ticks lo hi = Ok ticks ∧ StronglySorted Z.lt ticks)
  ↔ lo ≤ 10 ∧ lo ≤ hi.
Proof.
  rewrite density_ticks_list.
  set (tens := filter (λ l, l ≠ lo) (py_range 10 hi 10)).
  assert (∀ l, l ∈ tens ↔ l ≠ lo ∧ 10 ≤ l < hi ∧ (l - 10) mod 10 = 0)
    as Htens.
  { intros l. unfold tens.
    by rewrite list_elem_of_filter, elem_of_py_range by lia. }
  assert (StronglySorted Z.lt tens) as Hsorted.
  { apply StronglySorted_filter, py_range_sorted. lia. }
  split.
  - intros (ticks & [= <-] & Hticks).
    apply StronglySorted_inv in Hticks as [_ Hlo].
    rewrite Forall_app, !Forall_forall in Hlo. destruct Hlo as [Hlo Hhi].
    destruct (decide (10 < hi)) as [Hten|Hten].
    + destruct (decide (lo = 10)) as [->|Hne]; [lia|].
      assert (lo < 10); [|lia]. apply Hlo, Htens. done.
    + destruct (decide (lo = hi)) as [->|Hne]; [lia|].
      rewrite bool_decide_false in Hhi by lia.
      assert (lo < hi); [|lia]. apply Hhi. left.
  - intros [Hlo Hhi]. eexists. split; [done|].
    apply SSorted_cons.
    + case_bool_decide as Hlast; [by rewrite app_nil_r|].
      apply StronglySorted_app_2; [|done|repeat constructor].
      intros l1 l2 Hl1%Htens ->%list_elem_of_singleton. lia.
    + apply Forall_app. split.
      * apply Forall_forall. intros l Hl%Htens. lia.
      * case_bool_decide as Hlast; [done|]. repeat constructor. lia.
Qed.

Section LogTicks.
Implicit Types (lo hi : Qc).

Local Abbreviation power := (λ i : nat, Qc_of_Z (2 ^ Z.of_nat i)).

Lemma power_le (i j : nat) : (i ≤ j)%nat → (power i ≤ power j)%Qc.
Proof.
  intros Hij. apply (proj1 (Z2Qc_inj_le _ _)). apply Z.pow_le_mono_r; lia.
Qed.

(** The powers of two from [2 ^ n] on that are not above [hi], but for
    [lo]; [k] tests more find a power above [hi]. *)
Lemma log_ticks_loop_powers (k fuel n : nat) lo hi (ticks : list Qc) :
  (hi < power (n + k)%nat)%Qc → (k < fuel)%nat →
  log_ticks_loop fuel (2 ^ Z.of_nat n) (Z.of_nat n) lo hi ticks
  = Some (ticks ++ filter (λ l, (l ≤ hi)%Qc ∧ l ≠ lo) (power <$> seq n k)).
Proof.
  revert fuel n ticks.
  induction k as [|k IH]; intros [|fuel] n ticks Hhi Hfuel; try lia.
  - simpl. rewrite Nat.add_0_r in Hhi.
    rewrite bool_decide_false by by apply Qclt_not_le.
    by rewrite app_nil_r.
  - cbn [log_ticks_loop seq fmap list_fmap]. rewrite filter_cons.
    replace (Z.of_nat n + 1) with (Z.of_nat (S n)) by lia.
    case_bool_decide as Hl.
    + rewrite IH; [|by replace (S n + k)%nat with (n + S k)%nat by lia|lia].
      f_equal. case_bool_decide; case_decide; try done; try tauto.
      by rewrite <- app_assoc.
    + rewrite decide_False by tauto. f_equal.
      rewrite (elem_of_nil_inv (filter _ _)); [by rewrite app_nil_r|].
      intros l [[Hle _] (i & -> & Hi%elem_of_seq)%list_elem_of_fmap]
        %list_elem_of_filter.
      apply Hl. etrans; [|done]. apply power_le. lia.
Qed.
End LogTicks.

(** X22. The loop of the ticks of a logarithmic axis ends for all limits:
    after [k] powers of two, where [2 ^ k] is above the upper limit. Its
    ticks are made without an error: the first one is the lower limit, the
    last one the upper limit, and the others are the powers of two from 1 on
    that are not above the upper limit. *)
Theorem log_ticks_between (fuel k : nat) (lo hi : Qc) :
  (hi < Qc_of_Z (2 ^ Z.of_nat k))%Qc → (k < fuel)%nat →
  ∃ ticks, log_ticks fuel lo hi = Some (Ok ticks)
    ∧ head ticks = Some lo ∧ last ticks = Some hi
    ∧ ∀ l, l ∈ ticks
        ↔ l = lo ∨ l = hi
          ∨ (l ≤ hi)%Qc ∧ ∃ n : nat, l = Qc_of_Z (2 ^ Z.of_nat n).
Proof.
  intros Hhi Hfuel. unfold log_ticks.
  change (log_ticks_loop fuel (2 ^ 0) 0)
    with (log_ticks_loop fuel (2 ^ Z.of_nat 0) (Z.of_nat 0)).
  rewrite (log_ticks_loop_powers k fuel 0 lo hi [lo]) by done.
  cbn [mbind option_bind app].
  set (powers := filter _ _).
  assert (∀ l, l ∈ powers
            ↔ l ≠ lo ∧ (l ≤ hi)%Qc ∧ ∃ n : nat, l = Qc_of_Z (2 ^ Z.of_nat n))
    as Hpowers.
  { intros l. unfold powers. rewrite list_elem_of_filter, list_elem_of_fmap.
    split.
    - intros ([Hle Hne] & n & -> & _). eauto.
    - intros (Hne & Hle & n & ->). split; [done|]. exists n. split; [done|].
      apply elem_of_seq. split; [lia|].
      destruct (decide (n < k)%nat) as [|Hn]; [lia|]. exfalso.
      apply (Qclt_not_le _ _ Hhi). etrans; [|done].
      apply (proj1 (Z2Qc_inj_le _ _)). apply Z.pow_le_mono_r; lia. }
  rewrite py_getitem_last_cons. cbn [mbind result_mbind result_bind].
  eexists. split; [done|].
  assert (last (lo :: powers) = Some (List.last powers lo)) as Hlast.
  { destruct (decide (powers = [])) as [->|Hne]; [done|].
    destruct (exists_last Hne) as (ys & y & ->).
    by rewrite app_comm_cons, last_snoc, List.last_last. }
  case_bool_decide as Hend.
  - split; [done|]. split; [by rewrite app_comm_cons, last_snoc|].
    intros l. rewrite app_comm_cons, elem_of_app, elem_of_cons, Hpowers.
    rewrite list_elem_of_singleton. split.
    + intros [[->|(_ & Hl)]| ->]; auto.
    + intros [->|[->|Hl]]; auto.
      destruct (decide (l = lo)) as [->|]; auto.
  - rewrite Hend in Hlast.
    split; [done|]. split; [done|].
    intros l. rewrite elem_of_cons, Hpowers. split.
    + intros [->|(_ & Hl)]; auto.
    + intros [->|[->|Hl]]; auto.
      * apply last_Some_elem_of, elem_of_cons in Hlast as [->|Hin]; auto.
        right. by apply Hpowers.
      * destruct (decide (l = lo)) as [->|]; auto.
Qed.

Lemma log_ticks_between_witness :
  ∃ ticks, log_ticks 5 (Q2Qc (1 # 10)) (Qc_of_Z 12) = Some (Ok ticks)
    ∧ head ticks = Some (Q2Qc (1 # 10)) ∧ last ticks = Some (Qc_of_Z 12)
    ∧ ∀ l, l ∈ ticks
        ↔ l = Q2Qc (1 # 10) ∨ l = Qc_of_Z 12
          ∨ (l ≤ Qc_of_Z 12)%Qc ∧ ∃ n : nat, l = Qc_of_Z (2 ^ Z.of_nat n).
Proof.
  apply (log_ticks_between 5 4 (Q2Qc (1 # 10)) (Qc_of_Z 12)); [done|lia].
Defined.

(** The ticks of the logarithmic axis between a tenth and twelve. *)
Example log_ticks_of_tenth :
  log_ticks 5 (Q2Qc (1 # 10)) (Qc_of_Z 12)
  = Some (Ok (Q2Qc (1 # 10) :: (Qc_of_Z <$> [1; 2; 4; 8; 12]))).
Proof.
  unfold log_ticks. simpl. repeat (f_equal; try by apply Qc_is_canon).
Qed.


(** ** [plot_linear] with the limits of its axes *)

Section PlotLinearLimits.
Context {F : Type} `{PyFloat F} `{NumpyWarnings F} {G : Type}
  `{RandomState G} `{OsPath}.
Implicit Types (w : world G F) (regions : list (list (list string))).

(** The ticks of a linear axis are made exactly for limits in order. *)
Lemma linear_ticks_run_ordered (lo hi : Z) :
  linear_ticks_run lo hi
  = if bool_decide (lo ≤ hi)
    then Ok (((λ i : nat, lo + 2 * Z.of_nat i)
                <$> seq 0 (Z.to_nat ((hi - lo + 2) / 2)))
             ++ (if bool_decide ((hi - lo) mod 2 = 0) then [] else [hi]))
    else Raise IndexError.
Proof.
  unfold linear_ticks_run, linear_ticks.
  rewrite linear_ticks_loop_steps by lia. cbn [mbind option_bind app].
  case_bool_decide as Hlo.
  - assert (Z.to_nat ((hi - lo + 2) / 2) = S (Z.to_nat ((hi - lo) / 2)))
      as Hn.
    { replace (hi - lo + 2) with ((hi - lo) + 1 * 2) by lia.
      rewrite Z.div_add by lia.
      assert (0 ≤ (hi - lo) / 2) by (apply Z.div_pos; lia). lia. }
    rewrite Hn, seq_S, fmap_app. cbn [fmap list_fmap].
    rewrite py_getitem_last. cbn [mbind result_mbind result_bind].
    f_equal. pose proof (Z.div_mod (hi - lo) 2 ltac:(lia)) as Hdiv.
    pose proof (Z.mod_pos_bound (hi - lo) 2 ltac:(lia)) as Hmod.
    assert (0 ≤ (hi - lo) / 2) by (apply Z.div_pos; lia).
    repeat case_bool_decide; rewrite ?app_nil_r; try done; lia.
  - assert ((hi - lo + 2) / 2 ≤ 0) as Hn.
    { apply Z.lt_succ_r, Z.div_lt_upper_bound; lia. }
    replace (Z.to_nat ((hi - lo + 2) / 2)) with 0%nat by lia. done.
Qed.

(** With limits in order the ticks change nothing of a run, and else the
    first of them ends it, after the means of the rates of population
    change. *)
Lemma plot_linear_limits_run (lo hi lo' hi' : Z) regions
    (ifile_path opic_string : string) w :
  plot_linear_limits ((lo, hi), (lo', hi')) regions ifile_path opic_string w
  = if bool_decide (lo ≤ hi)
    then plot_linear regions ifile_path opic_string w
    else match region_means_of regions w with
         | (Ok _, w') => (Raise IndexError, w')
         | (Raise err, w') => (Raise err, w')
         end.
Proof.
  unfold plot_linear_limits, plot_linear. cbn [fst snd].
  rewrite linear_ticks_run_ordered, density_ticks_list.
  destruct (decide (lo ≤ hi)) as [Hlo|Hlo].
  - rewrite !(bool_decide_eq_true_2 (lo ≤ hi)) by done.
    destruct (region_means_of regions w) as [[region_means|err] w0] eqn:E0;
      rewrite !(prog_bind_run _ _ _ _ _ E0); [|done].
    rewrite prog_bind_lift.
    destruct (bootstrap_loop regions opic_string "Urban Expansion Rates"
                18 22 rate_labels w0) as [[[bs_pack1 bs_dict1]|err] w1] eqn:E1;
      rewrite !(prog_bind_run _ _ _ _ _ E1); [|done].
    rewrite !prog_bind_emit, prog_bind_lift, !prog_bind_emit.
    match goal with
    | |- context [(bootstrap_loop ?r ?o ?t 22 27 ?l ≫= _) ?w2] =>
        destruct (bootstrap_loop r o t 22 27 l w2)
          as [[[bs_pack2 bs_dict2]|err] w3] eqn:E2;
        rewrite !(prog_bind_run _ _ _ _ _ E2); [|done]
    end.
    by rewrite !prog_bind_emit, !prog_bind_lift, !prog_bind_emit.
  - rewrite !(bool_decide_eq_false_2 (lo ≤ hi)) by done.
    destruct (region_means_of regions w) as [[region_means|err] w0] eqn:E0;
      rewrite !(prog_bind_run _ _ _ _ _ E0); [|done].
    by rewrite prog_bind_lift.
Qed.
End PlotLinearLimits.

(** X17. [plot_linear] with int limits [(lo, hi)] for the rates and
    [(lo', hi')] for the densities fails only in [loc_average] and in the
    ticks of the rates: it returns exactly when [lo <= hi] and
    [loc_average] returns for each of the ten regions on the columns 9:13,
    18:22 and 22:27. The bootstrap, the statistics of the arrays, the
    columns of the sheets and the ticks of the densities never raise. With
    the limits [(0, 12)] and [(1, 60)] of the script the ticks change
    nothing of a run. *)
Theorem plot_linear_returns_iff {F : Type} `{PyFloat F} `{NumpyWarnings F}
    {G : Type} `{RandomState G} `{!RandintInRange G} `{OsPath}
    (lo hi lo' hi' : Z) (regions : list (list (list string)))
    (ifile_path opic_string : string) (w : world G F) :
  (is_ok (fst (plot_linear_limits ((lo, hi), (lo', hi')) regions ifile_path
                 opic_string w)) = true
   ↔ lo ≤ hi ∧ plottable (F:=F) regions)
  ∧ plot_linear_limits ((0, 12), (1, 60)) regions ifile_path opic_string w
    = plot_linear regions ifile_path opic_string w.
Proof.
  split; [|by rewrite plot_linear_limits_run].
  rewrite plot_linear_limits_run. case_bool_decide as Hlo.
  - split.
    + intros Hok. split; [done|]. by eapply returns_plottable.
    + intros [_ Hall]. by apply plottable_returns.
  - split; [|by intros [? _]].
    by destruct (region_means_of regions w) as [[region_means|err] w'].
Qed.

Lemma plot_linear_returns_iff_witness :
  is_ok (fst (plot_linear_limits (F:=Exact.num) (H2:=Posix.os_path)
                ((0, 12), (1, 60)) one_city_regions
                "data/Input.csv" "regional_all_location"
                (World Sample.seed []))) = true.
Proof.
  destruct (plot_linear_returns_iff (F:=Exact.num) (G:=Lcg.state)
              (H2:=Posix.os_path) 0 12 1 60
              one_city_regions "data/Input.csv" "regional_all_location"
              (World Sample.seed [])) as [[_ Hret] _].
  apply Hret. clear Hret. split; [lia|].
  repeat (constructor; [by vm_compute|]). constructor.
Defined.

(** Limits out of order: the ticks of the rates end the run of
    [plot_linear], whatever the table is. *)
Example plot_linear_limits_reversed :
  ∀ regions w,
    is_ok (fst (plot_linear_limits (F:=Exact.num) (G:=Lcg.state)
                  (H2:=Posix.os_path) ((12, 0), (1, 60)) regions
                  "data/Input.csv" "regional_all_location" w)) = false.
Proof.
  intros regions w. rewrite plot_linear_limits_run.
  rewrite bool_decide_false by lia.
  by destruct (region_means_of regions w) as [[region_means|err] w'].
Qed.
